(** * ComponentApiBuilder: a shallow embedding and its verified properties

    The embedded program is
    [packages/api-docs-builder/ApiBuilders/ComponentApiBuilder.ts].
    JavaScript values are modelled as follows.
    - A JS string is a [string]: the sequence of its code units, one [ascii]
      per unit (units below 256).
    - A JS object used as a dictionary is an association list kept in the
      order in which [Object.entries] and [JSON.stringify] enumerate it.
    - [undefined] and [null] are [None]; a thrown exception is [Throw].
    - The file system is a finite map from paths to file contents and the
      set of its directories; creating a directory and writing a file throw
      when a file or a directory is in the way and when the operating system
      refuses.
    - Functions imported from other modules are parameters. *)

From Stdlib Require Import ZArith Ascii String List Bool Lia Sorted Permutation.
From stdpp Require Import base option strings gmap.

Local Open Scope Z_scope.
Local Open Scope nat_scope.
Local Open Scope stdpp_scope.

(** ** JavaScript strings *)

Module Js.

(** Code units that [String.prototype.trim] removes and that [\s] matches:
    tab, line feed, vertical tab, form feed, carriage return, space and the
    no-break space. *)
Definition isWhiteSpace (a : ascii) : bool :=
  match nat_of_ascii a with
  | 9 | 10 | 11 | 12 | 13 | 32 | 160 => true
  | _ => false
  end.

(** Line terminators: the code units that [.] does not match. *)
Definition isLineTerminator (a : ascii) : bool :=
  match nat_of_ascii a with
  | 10 | 13 => true
  | _ => false
  end.

Definition LF : string := String "010" "".
Definition CR : string := String "013" "".

Fixpoint trimStart (s : string) : string :=
  match s with
  | String a s' => if isWhiteSpace a then trimStart s' else s
  | EmptyString => EmptyString
  end.

(** [trimEnd] keeps a code unit when it is not white space or when
    something is kept after it. *)
Fixpoint trimEnd (s : string) : string :=
  match s with
  | String a s' =>
      match trimEnd s' with
      | EmptyString => if isWhiteSpace a then EmptyString else String a EmptyString
      | t => String a t
      end
  | EmptyString => EmptyString
  end.

(** [s.trim()] *)
Definition trim (s : string) : string := trimEnd (trimStart s).

(** [s.slice(n)] for [0 <= n] *)
Fixpoint drop (n : nat) (s : string) : string :=
  match n, s with
  | S n', String _ s' => drop n' s'
  | _, _ => s
  end.

(** [s.slice(0, n)] for [0 <= n] *)
Fixpoint take (n : nat) (s : string) : string :=
  match n, s with
  | S n', String a s' => String a (take n' s')
  | _, _ => EmptyString
  end.

(** [s.slice(i, j)] for [0 <= i], [0 <= j] *)
Definition slice (i j : nat) (s : string) : string := take (j - i) (drop i s).

(** The position at which [slice] reads an index in a string of [len] code
    units: an index below zero counts from the end, and the result stays
    within the string. *)
Definition position (len : nat) (i : Z) : nat :=
  if (i <? 0)%Z then Z.to_nat (Z.max (Z.of_nat len + i) 0)
  else Nat.min (Z.to_nat i) len.

(** [s.slice(0, j)] and [s.slice(i)] for integers [i] and [j]. *)
Definition sliceTo (j : Z) (s : string) : string := take (position (String.length s) j) s.
Definition sliceFrom (i : Z) (s : string) : string := drop (position (String.length s) i) s.

(** [stripPrefix p s] is what follows [p] in [s] when [s] starts with [p]. *)
Fixpoint stripPrefix (p s : string) : option string :=
  match p, s with
  | EmptyString, _ => Some s
  | String a p', String b s' => if Ascii.eqb a b then stripPrefix p' s' else None
  | String _ _, EmptyString => None
  end.

(** [s.startsWith(p)] *)
Definition startsWith (s p : string) : bool :=
  match stripPrefix p s with Some _ => true | None => false end.

(** [s.indexOf(p)] as an option: [None] is JavaScript's [-1]. *)
Fixpoint indexOfFrom (i : nat) (p s : string) : option nat :=
  if startsWith s p then Some i
  else match s with
       | String _ s' => indexOfFrom (S i) p s'
       | EmptyString => None
       end.

(** Every unit of [s] satisfies [p]. *)
Fixpoint allUnits (p : ascii -> bool) (s : string) : bool :=
  match s with
  | String a s' => p a && allUnits p s'
  | EmptyString => true
  end.

(** [s] has no line terminator in it. *)
Definition singleLine (s : string) : bool :=
  allUnits (fun a => negb (isLineTerminator a)) s.

(** [s.endsWith(p)] *)
Definition endsWith (s p : string) : bool :=
  (String.length p <=? String.length s) &&
  String.eqb (drop (String.length s - String.length p) s) p.

(** [s.includes(p)] *)
Definition includes (s p : string) : bool :=
  match indexOfFrom 0 p s with Some _ => true | None => false end.

(** [s.split(sep)] for a separator of one code unit. *)
Fixpoint splitOn (sep : ascii) (s : string) : list string :=
  match s with
  | EmptyString => [EmptyString]
  | String a s' =>
      if Ascii.eqb a sep then EmptyString :: splitOn sep s'
      else match splitOn sep s' with
           | l :: ls => String a l :: ls
           | [] => [String a EmptyString]
           end
  end.

(** [xs.join(sep)] *)
Fixpoint join (sep : string) (xs : list string) : string :=
  match xs with
  | [] => ""
  | [x] => x
  | x :: rest => x +:+ sep +:+ join sep rest
  end.

(** A JS string is truthy when it is not empty; [undefined] is falsy. *)
Definition truthy (s : option string) : bool :=
  match s with
  | Some (String _ _) => true
  | _ => false
  end.

(** [a || b] on strings that may be [undefined], read as a string. *)
Definition orElse (s : option string) (d : string) : string :=
  if truthy s then default d s else d.

End Js.

(** ** Regular expressions

    The regular expressions of the module are abstract syntax trees, run by a
    backtracking matcher that tries alternatives in the order ECMAScript
    prescribes: the left branch of [|] first, a greedy quantifier with as
    many iterations as possible first, a lazy one with as few as possible
    first. The module applies [*] and [+] to character classes only, so a
    quantified class is a constructor of its own; the optional group [r?]
    rejects an iteration that consumes nothing, as the specification's
    RepeatMatcher does. *)

Module Regex.

(** A character class. *)
Inductive charClass : Type :=
| AnyChar                       (* [.]: any unit but a line terminator *)
| WhiteSpace                    (* [\s] *)
| NoneOf (cs : string).         (* a class that excludes the units of [cs] *)

Definition member (cls : charClass) (a : ascii) : bool :=
  match cls with
  | AnyChar => negb (Js.isLineTerminator a)
  | WhiteSpace => Js.isWhiteSpace a
  | NoneOf cs => negb (Js.includes cs (String a EmptyString))
  end.

Inductive regex : Type :=
| Lit (s : string)              (* a sequence of literal characters *)
| Class (cls : charClass)       (* one unit of a class *)
| Eol                           (* [$], no multiline flag *)
| Seq (r1 r2 : regex)           (* [r1 r2] *)
| Alt (r1 r2 : regex)           (* [r1 | r2] *)
| Cap (n : nat) (r : regex)     (* the [n]-th capturing group [(r)] *)
| Opt (r : regex)               (* [r?] *)
| Star (cls : charClass)        (* [cls*] *)
| LazyStar (cls : charClass)    (* [cls*?] *)
| Plus (cls : charClass).       (* [cls+] *)

(** The captures recorded so far, newest first. *)
Definition captures := list (nat * string).

Fixpoint capture (c : captures) (n : nat) : option string :=
  match c with
  | [] => None
  | (m, s) :: c' => if Nat.eqb m n then Some s else capture c' n
  end.

(** What was consumed between input [s] and its suffix [s']. *)
Definition consumed (s s' : string) : string :=
  Js.take (String.length s - String.length s') s.

Section Matcher.
Context {R : Type}.

(** A greedy run of units satisfying [p]: the longest run is tried first,
    then shorter and shorter ones, until the continuation [k] accepts what
    is left. *)
Fixpoint greedyRun (p : ascii -> bool) (k : string -> option R) (s : string) : option R :=
  match s with
  | String a s' =>
      if p a then
        match greedyRun p k s' with
        | Some x => Some x
        | None => k s
        end
      else k s
  | EmptyString => k s
  end.

(** A lazy run: the empty run is tried first, then longer and longer ones. *)
Fixpoint lazyRun (p : ascii -> bool) (k : string -> option R) (s : string) : option R :=
  match k s with
  | Some x => Some x
  | None =>
      match s with
      | String a s' => if p a then lazyRun p k s' else None
      | EmptyString => None
      end
  end.

(** [run r s c k] matches [r] at the start of [s] with captures [c] and
    hands the rest of the input and the captures to the continuation
    [k]; [None] makes the matcher backtrack. *)
Fixpoint run (r : regex) (s : string) (c : captures)
    (k : string -> captures -> option R) {struct r} : option R :=
  match r with
  | Lit l =>
      match Js.stripPrefix l s with
      | Some s' => k s' c
      | None => None
      end
  | Class cls =>
      match s with
      | String a s' => if member cls a then k s' c else None
      | EmptyString => None
      end
  | Eol =>
      match s with
      | EmptyString => k s c
      | String _ _ => None
      end
  | Seq r1 r2 => run r1 s c (fun s1 c1 => run r2 s1 c1 k)
  | Alt r1 r2 =>
      match run r1 s c k with
      | Some x => Some x
      | None => run r2 s c k
      end
  | Cap n r1 => run r1 s c (fun s' c' => k s' ((n, consumed s s') :: c'))
  | Opt r1 =>
      match run r1 s c (fun s' c' =>
              if String.length s' <? String.length s then k s' c' else None) with
      | Some x => Some x
      | None => k s c
      end
  | Star cls => greedyRun (member cls) (fun s' => k s' c) s
  | LazyStar cls => lazyRun (member cls) (fun s' => k s' c) s
  | Plus cls =>
      match s with
      | String a s' =>
          if member cls a then greedyRun (member cls) (fun s'' => k s'' c) s' else None
      | EmptyString => None
      end
  end.
End Matcher.

(** The result of [RegExp.prototype.exec]: where the match starts, what it
    covers, what follows it and the groups. *)
Record result := Result {
  index : nat;
  matched : string;
  rest : string;
  groups : captures
}.

Definition group (m : result) (n : nat) : option string := capture (groups m) n.

(** The leftmost match: every start position is tried in turn, the end of
    the input included. *)
Fixpoint execFrom (r : regex) (i : nat) (s : string) : option result :=
  match run r s [] (fun s' c => Some (s', c)) with
  | Some (s', c) => Some (Result i (consumed s s') s' c)
  | None =>
      match s with
      | String _ s' => execFrom r (S i) s'
      | EmptyString => None
      end
  end.

(** [r.exec(s)], and [s.match(r)] for [r] without the [g] flag. *)
Definition exec (r : regex) (s : string) : option result := execFrom r 0 s.

(** [r.test(s)] *)
Definition test (r : regex) (s : string) : bool :=
  match exec r s with Some _ => true | None => false end.

(** Number of capturing groups of a pattern. *)
Fixpoint groupCount (r : regex) : nat :=
  match r with
  | Lit _ | Class _ | Eol | Star _ | LazyStar _ | Plus _ => 0
  | Seq r1 r2 | Alt r1 r2 => groupCount r1 + groupCount r2
  | Cap _ r1 => S (groupCount r1)
  | Opt r1 => groupCount r1
  end.

(** The replacement text of [String.prototype.replace]: [$$] is a dollar
    sign, [$&] the matched text, [$n] for a digit [n] between 1 and the
    number of groups is group [n] (empty when the group took no part in
    the match); everything else stands for itself. *)
Definition digit (a : ascii) : option nat :=
  let n := nat_of_ascii a in
  if (49 <=? n) && (n <=? 57) then Some (n - 48) else None.

Fixpoint substitution (m : result) (count : nat) (template : string) : string :=
  match template with
  | String "$" (String b t as t1) =>
      if Ascii.eqb b "$" then String "$" (substitution m count t)
      else if Ascii.eqb b "&" then matched m +:+ substitution m count t
      else match digit b with
           | Some n =>
               if n <=? count
               then default "" (group m n) +:+ substitution m count t
               else String "$" (substitution m count t1)
           | None => String "$" (substitution m count t1)
           end
  | String a t => String a (substitution m count t)
  | EmptyString => EmptyString
  end.

(** [s.replace(r, f)] for [r] without the [g] flag and a function [f] of
    the match. *)
Definition replaceWith (r : regex) (f : result -> string) (s : string) : string :=
  match exec r s with
  | Some m => Js.take (index m) s +:+ f m +:+ rest m
  | None => s
  end.

(** [s.replace(r, template)] for [r] without the [g] flag. *)
Definition replace (r : regex) (template : string) (s : string) : string :=
  replaceWith r (fun m => substitution m (groupCount r) template) s.

(** [s.replace(r, template)] for [r] with the [g] flag: the matches are
    replaced from left to right; after an empty match the search moves on
    by one code unit. *)
Fixpoint replaceAllFuel (fuel : nat) (r : regex) (template : string) (s : string)
    : string :=
  match fuel with
  | O => s
  | S fuel' =>
      match exec r s with
      | Some m =>
          Js.take (index m) s +:+ substitution m (groupCount r) template +:+
          match matched m, rest m with
          | EmptyString, String a s' => String a (replaceAllFuel fuel' r template s')
          | EmptyString, EmptyString => EmptyString
          | String _ _, s' => replaceAllFuel fuel' r template s'
          end
      | None => s
      end
  end.

Definition replaceAll (r : regex) (template : string) (s : string) : string :=
  replaceAllFuel (S (String.length s)) r template s.

End Regex.

(** ** JavaScript objects used as dictionaries

    An object is the list of its own string-keyed properties in the order of
    OrdinaryOwnPropertyKeys, which [Object.entries], [Object.keys] and
    [JSON.stringify] follow: the keys that are array indices first, in
    ascending numeric order, then the other keys in the order in which they
    were created. *)

Module Obj.

Definition t (V : Type) := list (string * V).

Fixpoint digits (s : string) (acc : N) : option N :=
  match s with
  | EmptyString => Some acc
  | String a s' =>
      let n := nat_of_ascii a in
      if (48 <=? n) && (n <=? 57)
      then digits s' (10 * acc + N.of_nat (n - 48))%N
      else None
  end.

(** An array index is a canonical numeric string: decimal digits without a
    leading zero (["0"] itself apart) whose value is below [2^32 - 1]. *)
Definition arrayIndex (k : string) : option N :=
  match k with
  | EmptyString => None
  | String "0" (String _ _) => None
  | _ =>
      match digits k 0%N with
      | Some n => if (n <? 4294967295)%N then Some n else None
      | None => None
      end
  end.

Definition isArrayIndex (k : string) : bool :=
  match arrayIndex k with Some _ => true | None => false end.

(** [o[k]] *)
Fixpoint get {V} (k : string) (o : t V) : option V :=
  match o with
  | [] => None
  | (k', v) :: o' => if String.eqb k' k then Some v else get k o'
  end.

Definition has {V} (k : string) (o : t V) : bool :=
  match get k o with Some _ => true | None => false end.

(** Overwriting the value of a key that is present keeps its place. *)
Fixpoint update {V} (k : string) (v : V) (o : t V) : t V :=
  match o with
  | [] => []
  | (k', v') :: o' =>
      if String.eqb k' k then (k', v) :: o' else (k', v') :: update k v o'
  end.

(** A new array index goes before the first key that is not an array index
    or is a larger one. *)
Fixpoint insertIndex {V} (n : N) (k : string) (v : V) (o : t V) : t V :=
  match o with
  | [] => [(k, v)]
  | (k', v') :: o' =>
      match arrayIndex k' with
      | Some n' =>
          if (n' <? n)%N then (k', v') :: insertIndex n k v o'
          else (k, v) :: o
      | None => (k, v) :: o
      end
  end.

(** [o[k] = v] *)
Definition set {V} (k : string) (v : V) (o : t V) : t V :=
  if has k o then update k v o
  else match arrayIndex k with
       | Some n => insertIndex n k v o
       | None => o ++ [(k, v)]
       end.

(** [delete o[k]] *)
Definition delete {V} (k : string) (o : t V) : t V :=
  List.filter (fun kv => negb (String.eqb (fst kv) k)) o.

(** [Object.entries(o)] and [Object.keys(o)] *)
Definition entries {V} (o : t V) : list (string * V) := o.
Definition keys {V} (o : t V) : list string := map fst o.

(** [_.fromPairs(pairs)]: the pairs are assigned from left to right into
    an empty object. *)
Definition fromPairs {V} (pairs : list (string * V)) : t V :=
  fold_left (fun o kv => set (fst kv) (snd kv) o) pairs [].

End Obj.

(** ** Exceptions *)

Record Error := mkError {
  errorName : string;   (* ["Error"], ["TypeError"], ... *)
  message : string
}.

(** [`${error}`], that is [Error.prototype.toString]. *)
Definition errorToString (e : Error) : string :=
  match errorName e, message e with
  | EmptyString, m => m
  | n, EmptyString => n
  | n, m => n +:+ ": " +:+ m
  end.

Inductive result (A : Type) : Type :=
| Return (a : A)
| Throw (e : Error).
Arguments Return {A} a.
Arguments Throw {A} e.

Definition bind {A B} (r : result A) (f : A -> result B) : result B :=
  match r with
  | Return a => f a
  | Throw e => Throw e
  end.

(** ** The file system *)

Record FileSystem := mkFS {
  files : gmap string string;
  directories : gset string
}.

(** [readFileSync(path, { encoding: 'utf8' })] *)
Definition readFileSync (fs : FileSystem) (path : string) : result string :=
  match files fs !! path with
  | Some content => Return content
  | None => Throw (mkError "Error" ("ENOENT: no such file or directory, open '" +:+ path +:+ "'"))
  end.

(** The file system in which the file [path] holds [data], and the one in
    which the [paths] are directories. *)
Definition withFile (fs : FileSystem) (path data : string) : FileSystem :=
  mkFS (<[path := data]> (files fs)) (directories fs).
Definition withDirectories (fs : FileSystem) (paths : list string) : FileSystem :=
  mkFS (files fs) (list_to_set paths ∪ directories fs).

(** The flag of [writeFileSync]: [w] by default, [wx] to fail on a file
    that exists. *)
Inductive WriteFlag := FlagW | FlagWX.

(** A computation that reads and writes files and may throw: the file system
    it leaves behind comes with the outcome. *)
Definition io (A : Type) : Type := FileSystem -> FileSystem * result A.

Definition ioReturn {A} (a : A) : io A := fun fs => (fs, Return a).
Definition ioThrow {A} (e : Error) : io A := fun fs => (fs, Throw e).
Definition ioLift {A} (r : result A) : io A := fun fs => (fs, r).
Definition ioBind {A B} (m : io A) (f : A -> io B) : io B :=
  fun fs =>
    match m fs with
    | (fs', Return a) => f a fs'
    | (fs', Throw e) => (fs', Throw e)
    end.

(** Both are monads; stdpp's notation [x ← m; k] sequences them. *)
Global Instance result_ret : MRet result := @Return.
Global Instance result_bind : MBind result := fun A B f r => bind r f.
Global Instance io_ret : MRet io := @ioReturn.
Global Instance io_bind : MBind io := fun A B f m => ioBind m f.

(** ** Data model

    Records follow the TypeScript types the module declares or imports; an
    optional or [undefined]-able field is an [option]. *)

(** A prop-type descriptor of react-docgen, with the two fields the module
    reads. What else it holds is read by the imported renderers only. *)
Module PropType.
Record t := mk { name : string; raw : option string }.
End PropType.

(** A prop descriptor as react-docgen returns it. *)
Module PropDescriptor.
Record t := mk {
  type : PropType.t;
  description : option string;
  jsdocDefaultValue : option string   (* [jsdocDefaultValue?.value] *)
}.
End PropDescriptor.

(** [DescribeablePropDescriptor], the result of [createDescribeableProp]. *)
Module Describeable.
Record t := mk { required : bool; type : PropType.t }.
End Describeable.

(** What [getChained] returns when it does not return [false]. *)
Module Chained.
Record t := mk { type : PropType.t; required : bool }.
End Chained.

(** A described argument or return value of a function prop. *)
Module Described.
Record t := mk { name : string; description : string }.
End Described.

(** The result of [generatePropDescription]. *)
Module PropDescription.
Record t := mk {
  deprecated : string;
  jsDocText : string;
  signature : option string;
  signatureArgs : option (list Described.t);
  signatureReturn : option Described.t;
  requiresRef : bool
}.
End PropDescription.

(** [AdditionalPropsInfo]: the module sets at most one of its keys, so a
    non-empty object is the key that is set. *)
Inductive AdditionalPropsInfo :=
| cssApi | sx | slotsApi | joy_size | joy_color | joy_variant.

Module Signature.
Record t := mk {
  type : string;
  describedArgs : option (list string);
  returned : option string
}.
End Signature.

Module TableType.
Record t := mk { name : option string; description : option string }.
End TableType.

(** An entry of [ReactApi['propsTable']]. *)
Module Entry.
Record t := mk {
  type : TableType.t;
  default : option string;
  required : option bool;
  deprecated : option bool;
  deprecationInfo : option string;
  signature : option Signature.t;
  additionalInfo : option AdditionalPropsInfo
}.
End Entry.

Module Demo.
Record t := mk { demoPageTitle : string; demoPathname : string }.
End Demo.

Module Inheritance.
Record t := mk { name : string; apiPathname : string }.
End Inheritance.

(** [ComponentClassDefinition] *)
Module ClassDefinition.
Record t := mk {
  key : string;
  className : string;
  description : string;
  isGlobal : bool
}.
End ClassDefinition.

Module Slot.
Record t := mk {
  name : string;
  description : string;
  defaultComponent : option string;
  class : option string
}.
End Slot.

Module PropTranslation.
Record t := mk {
  description : string;
  requiresRef : option bool;
  deprecated : option string;
  typeDescriptions : option (Obj.t string)
}.
End PropTranslation.

Module ClassTranslation.
Record t := mk {
  description : string;
  conditions : option string;
  nodeName : option string
}.
End ClassTranslation.

Module Translations.
Record t := mk {
  componentDescription : string;
  propDescriptions : Obj.t PropTranslation.t;
  classDescriptions : Obj.t ClassTranslation.t;
  slotDescriptions : option (Obj.t string)
}.
End Translations.

(** [themeDefaultProps] is [boolean | undefined | null]. *)
Inductive ThemeDefaultProps :=
| ThemeUndefined
| ThemeNull
| ThemeBool (b : bool).

(** The documentation object react-docgen returns; [props!] in the module
    asserts that the props are there. *)
Module Docgen.
Record t := mk {
  props : Obj.t PropDescriptor.t;
  description : string
}.
End Docgen.

Module ReactApi.
Record t := mk {
  props : Obj.t PropDescriptor.t;
  description : string;
  demos : list Demo.t;
  EOL : string;
  filename : string;
  apiPathname : string;
  forwardsRefTo : option string;
  inheritance : option Inheritance.t;
  name : string;
  muiName : string;
  spread : option bool;
  themeDefaultProps : ThemeDefaultProps;
  classes : list ClassDefinition.t;
  slots : list Slot.t;
  propsTable : Obj.t Entry.t;
  imports : list string;
  translations : Translations.t
}.

Definition setDescription (api : t) (text : string) : t :=
  mk (props api) text (demos api) (EOL api) (filename api)
     (apiPathname api) (forwardsRefTo api) (inheritance api) (name api)
     (muiName api) (spread api) (themeDefaultProps api) (classes api)
     (slots api) (propsTable api) (imports api) (translations api).

Definition setPropsTable (api : t) (table : Obj.t Entry.t) : t :=
  mk (props api) (description api) (demos api) (EOL api) (filename api)
     (apiPathname api) (forwardsRefTo api) (inheritance api) (name api)
     (muiName api) (spread api) (themeDefaultProps api) (classes api)
     (slots api) table (imports api) (translations api).

Definition setTranslations (api : t) (tr : Translations.t) : t :=
  mk (props api) (description api) (demos api) (EOL api) (filename api)
     (apiPathname api) (forwardsRefTo api) (inheritance api) (name api)
     (muiName api) (spread api) (themeDefaultProps api) (classes api)
     (slots api) (propsTable api) (imports api) tr.
End ReactApi.

(** The result of [parseTest]. *)
Module TestInfo.
Record t := mk {
  forwardsRefTo : option string;
  spread : option bool;
  themeDefaultProps : ThemeDefaultProps;
  inheritComponent : option string
}.
End TestInfo.

(** The result of [componentInfo.readFile()]. *)
Module ReadFile.
Record t := mk {
  shouldSkip : bool;
  spread : option bool;
  EOL : string;
  src : string
}.
End ReadFile.

Module ComponentInfo.
Record t := mk {
  filename : string;
  name : string;
  muiName : string;
  apiPathname : string;
  apiPagesDirectory : string;
  isSystemComponent : bool;
  skipApiGeneration : bool;
  readFile : ReadFile.t;
  getDemos : list Demo.t;
  getInheritance : option string -> option Inheritance.t
}.
End ComponentInfo.

Module ProjectSettings.
Record t := mk { translationLanguages : list string }.
End ProjectSettings.

(** The part of the syntax tree that the component finder of
    [generateComponentApi] reads. *)
Module Ast.

Record Callee := mkCallee { calleeName : option string }.

Local Unset Elimination Schemes.

(** An expression: its [callee] when it is a call, and its [expression]
    when it wraps another one (as TypeScript's [as] does). *)
Inductive Expression :=
| Expr (callee : option Callee) (expression : option Expression).

(** A variable declaration holds the initialisers of its declarators
    ([None] for a declarator without one); the visitor returns [false] on
    it, so nothing below it is visited. Any other node holds its children
    in traversal order. *)
Inductive node :=
| VariableDeclaration (declarations : option (list (option Expression)))
| Other (children : list node).

End Ast.

(** The page content that [generateApiPage] serialises. *)
Module PageContent.
Record t := mk {
  props : Obj.t Entry.t;
  name : string;
  imports : list string;
  slots : option (list Slot.t);
  classes : list ClassDefinition.t;
  spread : option bool;
  themeDefaultProps : ThemeDefaultProps;
  muiName : string;
  forwardsRefTo : option string;
  filename : string;
  inheritance : option (string * string);   (* component, pathname *)
  demos : string;
  cssComponent : bool
}.
End PageContent.

(** Handlers of react-docgen and the TypeScript project are passed through
    untouched. *)
Inductive Handler := DocgenHandler (id : nat).
Inductive TypeScriptProject := Project (id : nat).

(** ** Imported functions

    What the module imports from other modules and libraries. *)
Class Imports := {
  (** [renderMarkdown] of [@mui/markdown] *)
  renderMarkdown : string -> string;
  (** [createDescribeableProp]: a descriptor, [null], or an exception *)
  createDescribeableProp : PropDescriptor.t -> string -> result (option Describeable.t);
  generatePropDescription : Describeable.t -> string -> PropDescription.t;
  (** [generatePropTypeDescription]: the type rendered as a display string *)
  generatePropTypeDescription : PropType.t -> string;
  (** [getChained]: [None] is the [false] it returns for a type that is not
      chained *)
  getChained : PropType.t -> option Chained.t;
  parseTest : string -> result TestInfo.t;
  parseSlotsAndClasses :
    TypeScriptProject -> string -> string -> list Slot.t * list ClassDefinition.t;
  (** [parse] of react-docgen: source, component finder ([null] for the
      default resolver), handlers and file name *)
  docgenParse :
    string -> option (Ast.node -> option Ast.Expression) -> list Handler -> string ->
    result Docgen.t;
  defaultHandlers : list Handler;
  muiDefaultPropsHandler : Handler;
  (** The markdown processor of [computeApiDescription] with its link
      transformer for the given host. *)
  remarkProcess : string -> string -> string;
  (** Babel's parse and traversal in [annotateComponentDefinition]: the
      [start] and [end] left by the visitors for the types source, the types
      file name, [api.filename] and its base name, or what they throw.
      [start] is an integer: the visitors set it to [node.start - 1], which
      is [-1] for a declaration that starts the file. *)
  locateJsdoc : string -> string -> string -> string -> result (Z * option Z);
  (** The error, if any, with which the operating system refuses to create
      the directory [path], and to create or overwrite the file [path],
      given the directories that exist: missing rights and the like. *)
  mkdirRefused : gset string -> string -> option Error;
  writeRefused : gset string -> string -> option Error;
  kebabCase : string -> string;
  localeCompare : string -> string -> Z;
  pathResolve : string -> string -> string;
  pathJoin : string -> string -> string;
  pathRelative : string -> string -> string;
  pathParseName : string -> string;
  (** The directories above a path, up to the root. *)
  pathAncestors : string -> list string;
  cwd : string;
  (** The formatter behind [writePrettifiedFile]. *)
  prettify : string -> string;
  stringifyTranslations : Translations.t -> string;
  stringifyPageContent : PageContent.t -> string
}.

(** ** The module *)

Section ComponentApiBuilder.
Context `{Imports}.

Definition DQUOTE : string := String "034" "".
Definition BACKSLASH : string := String "092" "".

(** *** The file system operations

    [mkdirSync(path, { mode: 0o777, recursive: true })]: nothing happens
    when the directory exists; a file at the path or at a path above it
    makes it throw; otherwise the directory is created, and with it the
    directories above it that are missing. *)
Definition mkdirSync (path : string) : io unit :=
  fun fs =>
    if bool_decide (path ∈ directories fs) then (fs, Return tt)
    else
      match files fs !! path with
      | Some _ =>
          (fs, Throw (mkError "Error"
                        ("EEXIST: file already exists, mkdir '" +:+ path +:+ "'")))
      | None =>
          if existsb (fun above => bool_decide (is_Some (files fs !! above)))
               (pathAncestors path)
          then (fs, Throw (mkError "Error"
                             ("ENOTDIR: not a directory, mkdir '" +:+ path +:+ "'")))
          else
            match mkdirRefused (directories fs) path with
            | Some error => (fs, Throw error)
            | None => (withDirectories fs (path :: pathAncestors path), Return tt)
            end
      end.

(** Whether the directory that holds [path] is among [present]: the
    nearest of the directories above it. A path with no directory above it
    is held by the working directory. *)
Definition parentPresent (present : gset string) (path : string) : bool :=
  match pathAncestors path with
  | parent :: _ => bool_decide (parent ∈ present)
  | [] => true
  end.

(** [writeFileSync(path, data, { flag })]: under the flag [wx] (exclusive
    create) the write fails when something is at the path; a directory at
    the path makes any write fail, and so does a missing directory for the
    file; nothing is written when it fails. *)
Definition writeFileSync (path data : string) (flag : WriteFlag) : io unit :=
  fun fs =>
    match flag, files fs !! path, bool_decide (path ∈ directories fs) with
    | FlagWX, Some _, _ | FlagWX, None, true =>
        (fs, Throw (mkError "Error"
                      ("EEXIST: file already exists, open '" +:+ path +:+ "'")))
    | FlagW, _, true =>
        (fs, Throw (mkError "Error"
                      ("EISDIR: illegal operation on a directory, open '" +:+ path +:+ "'")))
    | _, _, false =>
        if parentPresent (directories fs) path then
          match writeRefused (directories fs) path with
          | Some error => (fs, Throw error)
          | None => (withFile fs path data, Return tt)
          end
        else
          (fs, Throw (mkError "Error"
                        ("ENOENT: no such file or directory, open '" +:+ path +:+ "'")))
    end.

(** [const cssComponents = ['Box', 'Grid', 'Typography', 'Stack']] *)
Definition cssComponents : list string := ["Box"; "Grid"; "Typography"; "Stack"].

(** [Array.prototype.indexOf]: the first position of [x], or [-1]. *)
Fixpoint indexOfFrom (i : Z) (x : string) (xs : list string) : Z :=
  match xs with
  | [] => (-1)%Z
  | y :: ys => if String.eqb y x then i else indexOfFrom (i + 1)%Z x ys
  end.
Definition indexOf (xs : list string) (x : string) : Z := indexOfFrom 0%Z x xs.

(** [s.replace(/\\/g, '/')] *)
Definition normalizeSlashes (s : string) : string :=
  Regex.replaceAll (Regex.Lit BACKSLASH) "/" s.

(** [pathname.startsWith('http') ? pathname : `${HOST}${pathname}`] *)
Definition absoluteUrl (host pathname : string) : string :=
  if Js.startsWith pathname "http" then pathname else host +:+ pathname.

(** *** computeApiDescription *)
Definition computeApiDescription (description host : string) : string :=
  Js.trim (remarkProcess host description).

(** *** annotateComponentDefinition *)

Definition HOST : string := "https://mui.com".

(** [/\.js$/] *)
Definition jsExtensionRegex : Regex.regex := Regex.Seq (Regex.Lit ".js") Regex.Eol.

Definition demoLine (demo : Demo.t) : string :=
  "- [" +:+ Demo.demoPageTitle demo +:+ "](" +:+
  absoluteUrl HOST (Demo.demoPathname demo) +:+ ")".

Definition inheritanceAPILink (api : ReactApi.t) : option string :=
  match ReactApi.inheritance api with
  | Some inh =>
      Some ("[" +:+ Inheritance.name inh +:+ " API](" +:+
            absoluteUrl HOST (Inheritance.apiPathname inh) +:+ ")")
  | None => None
  end.

(** The lines of the comment block: the description, a blank line, the
    demos and the API links. *)
Definition markdownLines (api : ReactApi.t) : list string :=
  let lines := Js.splitOn "010"
                 (computeApiDescription (ReactApi.description api) HOST) in
  let lines := match last lines with
               | Some EmptyString => lines
               | _ => lines ++ [""]
               end in
  let lines := lines ++ ["Demos:"; ""] ++ map demoLine (ReactApi.demos api) ++ [""] in
  let lines := lines ++
    ["API:"; "";
     "- [" +:+ ReactApi.name api +:+ " API](" +:+
     absoluteUrl HOST (ReactApi.apiPathname api) +:+ ")"] in
  match inheritanceAPILink api with
  | Some link => lines ++ ["- inherits " +:+ link]
  | None => lines
  end.

Definition jsdoc (api : ReactApi.t) : string :=
  "/**" +:+ Js.LF +:+
  Js.join Js.LF
    (map (fun line => if 0 <? String.length line then " * " +:+ line else " *")
         (markdownLines api)) +:+
  Js.LF +:+ " */".

(** The error of lines 268-272. *)
Definition noInsertionPoint (filename : string) : Error :=
  mkError "TypeError"
    (filename +:+
     ": Don't know where to insert the jsdoc block. Probably no default export or named export matching the file name was found.").

Definition annotateComponentDefinition (api : ReactApi.t) : io unit :=
  fun fs =>
    let typesFilename := Regex.replace jsExtensionRegex ".d.ts" (ReactApi.filename api) in
    let fileName := pathParseName (ReactApi.filename api) in
    match readFileSync fs typesFilename with
    | Throw e => (fs, Throw e)
    | Return typesSource =>
        match locateJsdoc typesSource typesFilename (ReactApi.filename api) fileName with
        | Throw e => (fs, Throw e)
        | Return (start, end_) =>
            match end_ with
            | None => (fs, Throw (noInsertionPoint (ReactApi.filename api)))
            | Some end_ =>
                if (start =? 0)%Z
                then (fs, Throw (noInsertionPoint (ReactApi.filename api)))
                else
                  let typesSourceNew :=
                    Js.sliceTo start typesSource +:+ jsdoc api +:+
                    Js.sliceFrom end_ typesSource in
                  writeFileSync typesFilename typesSourceNew FlagW fs
            end
        end
    end.

(** *** extractClassConditions *)

(** [stylesRegex] (lines 325-326), in three definitions. Group 1 is group 2,
    one of [Styles], [State class] and [Class name], followed by
    [ applied to ]. *)
Definition stylesPrefix : Regex.regex :=
  Regex.Cap 1
    (Regex.Seq
       (Regex.Cap 2
          (Regex.Alt (Regex.Lit "Styles")
             (Regex.Alt (Regex.Lit "State class") (Regex.Lit "Class name"))))
       (Regex.Lit " applied to ")).

(** Group 5 is one of [ if ], [ unless ], [ when ] and [, ]; its quantifier
    repeats it once. *)
Definition stylesSeparator : Regex.regex :=
  Regex.Cap 5
    (Regex.Alt (Regex.Lit " if ")
       (Regex.Alt (Regex.Lit " unless ")
          (Regex.Alt (Regex.Lit " when ") (Regex.Lit ", ")))).

(** After group 1 comes group 3, a lazy run of [.]; then the optional group
    4, which is group 5 followed by group 6, a greedy run of [.]; a literal
    full stop ends the pattern. *)
Definition stylesRegex : Regex.regex :=
  Regex.Seq stylesPrefix
    (Regex.Seq
       (Regex.Cap 3 (Regex.LazyStar Regex.AnyChar))
       (Regex.Seq
          (Regex.Opt
             (Regex.Cap 4
                (Regex.Seq stylesSeparator (Regex.Cap 6 (Regex.Star Regex.AnyChar)))))
          (Regex.Lit "."))).

(** The pattern of line 338, with the [g] flag: a backquote, group 1 as a
    lazy run of [.], a backquote. *)
Definition codeRegex : Regex.regex :=
  Regex.Seq (Regex.Lit "`")
    (Regex.Seq (Regex.Cap 1 (Regex.LazyStar Regex.AnyChar)) (Regex.Lit "`")).

(** The entry recorded for one class description. *)
Definition classCondition (description : string) : ClassTranslation.t :=
  let conditions := Regex.exec stylesRegex description in
  match conditions with
  | Some m =>
      if Js.truthy (Regex.group m 6) then
        ClassTranslation.mk
          (renderMarkdown
             (Regex.replace stylesRegex "$1{{nodeName}}$5{{conditions}}." description))
          (Some (renderMarkdown
             (Regex.replaceAll codeRegex "<code>$1</code>"
                (default "" (Regex.group m 6)))))
          (Some (renderMarkdown (default "" (Regex.group m 3))))
      else if Js.truthy (Regex.group m 3) &&
              negb (String.eqb (default "" (Regex.group m 3)) "the root element") then
        ClassTranslation.mk
          (renderMarkdown (Regex.replace stylesRegex "$1{{nodeName}}$5." description))
          None
          (Some (renderMarkdown (default "" (Regex.group m 3))))
      else ClassTranslation.mk (renderMarkdown description) None None
  | None => ClassTranslation.mk (renderMarkdown description) None None
  end.

Definition extractClassConditions (descriptions : Obj.t string)
    : Obj.t ClassTranslation.t :=
  fold_left
    (fun classConditions entry =>
       let '(className, description) := entry in
       if Js.truthy (Some className)
       then Obj.set className (classCondition description) classConditions
       else classConditions)
    (Obj.entries descriptions) [].

(** *** toGitHubPath *)
Definition toGitHubPath (filepath : string) : string :=
  "/" +:+ normalizeSlashes (pathRelative cwd filepath).

(** *** generateApiTranslations *)

(** Modelled from the spec: [writePrettifiedFile] of [buildApiUtils], which
    is not among the sources. It formats the data and writes it to the
    file with the flag it is given. *)
Definition writePrettifiedFile (filename data : string) (flag : WriteFlag) : io unit :=
  writeFileSync filename (prettify data) flag.

(** [try { m } catch (error) { }] *)
Definition tryCatchIgnore (m : io unit) : io unit :=
  fun fs => (fst (m fs), Return tt).

(** [xs.forEach(f)] for an [f] with effects. *)
Fixpoint forEach {A} (xs : list A) (f : A -> io unit) : io unit :=
  match xs with
  | [] => mret tt
  | x :: rest => f x ;; forEach rest f
  end.

Definition resolveApiDocsTranslationsComponentLanguagePath
    (apiDocsTranslationPath componentName language : string) : string :=
  let languageSuffix := if String.eqb language "en" then "" else "-" +:+ language in
  pathJoin apiDocsTranslationPath
    (kebabCase componentName +:+ languageSuffix +:+ ".json").

Definition generateApiTranslations
    (outputDirectory : string) (reactApi : ReactApi.t) (languages : list string)
    : io unit :=
  let componentName := ReactApi.name reactApi in
  let apiDocsTranslationPath := pathResolve outputDirectory (kebabCase componentName) in
  let languagePath :=
    resolveApiDocsTranslationsComponentLanguagePath apiDocsTranslationPath componentName in
  mkdirSync apiDocsTranslationPath ;;
  writePrettifiedFile (languagePath "en")
    (stringifyTranslations (ReactApi.translations reactApi)) FlagW ;;
  forEach languages (fun language =>
    if negb (String.eqb language "en")
    then tryCatchIgnore
           (writePrettifiedFile (languagePath language)
              (stringifyTranslations (ReactApi.translations reactApi)) FlagWX)
    else mret tt).

(** *** generateApiPage *)

(** [Array.prototype.sort] is stable; with a consistent comparison function
    its result is the one that stable insertion produces: an element goes
    before the first element that does not compare below it. *)
Fixpoint insertSorted {A} (compare : A -> A -> Z) (x : A) (sorted : list A) : list A :=
  match sorted with
  | [] => [x]
  | y :: rest =>
      if (compare x y <=? 0)%Z then x :: sorted
      else y :: insertSorted compare x rest
  end.

Definition sort {A} (compare : A -> A -> Z) (xs : list A) : list A :=
  fold_right (insertSorted compare) [] xs.

(** The truth value of [data.required]. *)
Definition isRequired (data : Entry.t) : bool :=
  match Entry.required data with
  | Some b => b
  | None => false
  end.

(** The comparison function of lines 416-424. *)
Definition compareProps (a b : string * Entry.t) : Z :=
  let '(aName, aData) := a in
  let '(bName, bData) := b in
  if (isRequired aData && isRequired bData) ||
     (negb (isRequired aData) && negb (isRequired bData))
  then localeCompare aName bName
  else if isRequired aData then (-1)%Z
  else 1%Z.

Definition sortedProps (propsTable : Obj.t Entry.t) : Obj.t Entry.t :=
  Obj.fromPairs (sort compareProps (Obj.entries propsTable)).

Definition demosHtml (demos : list Demo.t) : string :=
  "<ul>" +:+
  Js.join Js.LF
    (map (fun item =>
            "<li><a href=" +:+ DQUOTE +:+ Demo.demoPathname item +:+ DQUOTE +:+ ">" +:+
            Demo.demoPageTitle item +:+ "</a></li>")
         demos) +:+
  "</ul>".

Definition pageContent (reactApi : ReactApi.t) : PageContent.t :=
  let normalizedApiPathname := normalizeSlashes (ReactApi.apiPathname reactApi) in
  PageContent.mk
    (sortedProps (ReactApi.propsTable reactApi))
    (ReactApi.name reactApi)
    (ReactApi.imports reactApi)
    (if 0 <? length (ReactApi.slots reactApi)
     then Some (ReactApi.slots reactApi) else None)
    (ReactApi.classes reactApi)
    (ReactApi.spread reactApi)
    (ReactApi.themeDefaultProps reactApi)
    (if Js.startsWith normalizedApiPathname "/joy-ui"
     then Regex.replace (Regex.Lit "Mui") "Joy" (ReactApi.muiName reactApi)
     else ReactApi.muiName reactApi)
    (ReactApi.forwardsRefTo reactApi)
    (toGitHubPath (ReactApi.filename reactApi))
    (match ReactApi.inheritance reactApi with
     | Some inh => Some (Inheritance.name inh, Inheritance.apiPathname inh)
     | None => None
     end)
    (demosHtml (ReactApi.demos reactApi))
    (0 <=? indexOf cssComponents (ReactApi.name reactApi))%Z.

(** The page module of lines 457-479, line by line. *)
Definition pageModule (translationPagesDirectory name : string) : string :=
  Js.join Js.LF
    [ "import * as React from 'react';";
      "  import ApiPage from 'docs/src/modules/components/ApiPage';";
      "  import mapApiPageTranslations from 'docs/src/modules/utils/mapApiPageTranslations';";
      "  import jsonPageContent from './" +:+ kebabCase name +:+ ".json';";
      "";
      "  export default function Page(props) {";
      "    const { descriptions, pageContent } = props;";
      "    return <ApiPage descriptions={descriptions} pageContent={pageContent} />;";
      "  }";
      "";
      "  Page.getInitialProps = () => {";
      "    const req = require.context(";
      "      '" +:+ translationPagesDirectory +:+ "/" +:+ kebabCase name +:+ "',";
      "      false,";
      "      /" +:+ kebabCase name +:+ ".*.json$/,";
      "    );";
      "    const descriptions = mapApiPageTranslations(req);";
      "";
      "    return {";
      "      descriptions,";
      "      pageContent: jsonPageContent,";
      "    };";
      "  };";
      "  " ].

(** [/\r?\n/g] *)
Definition newlineRegex : Regex.regex :=
  Regex.Seq (Regex.Opt (Regex.Lit Js.CR)) (Regex.Lit Js.LF).

Definition generateApiPage
    (apiPagesDirectory translationPagesDirectory : string)
    (reactApi : ReactApi.t) (onlyJsonFile : bool) : io unit :=
  writePrettifiedFile
    (pathResolve apiPagesDirectory (kebabCase (ReactApi.name reactApi) +:+ ".json"))
    (stringifyPageContent (pageContent reactApi)) FlagW ;;
  if negb onlyJsonFile
  then writePrettifiedFile
         (pathResolve apiPagesDirectory (kebabCase (ReactApi.name reactApi) +:+ ".js"))
         (Regex.replaceAll newlineRegex (ReactApi.EOL reactApi)
            (pageModule translationPagesDirectory (ReactApi.name reactApi)))
         FlagW
  else mret tt.

(** *** attachTranslations *)

(** [(signatureArgs || []).concat(signatureReturn || [])] *)
Definition describedTypes (d : PropDescription.t) : list Described.t :=
  default [] (PropDescription.signatureArgs d) ++
  match PropDescription.signatureReturn d with
  | Some r => [r]
  | None => []
  end.

(** [value || undefined] for a string and for a boolean. *)
Definition nonEmpty (s : string) : option string :=
  match s with
  | EmptyString => None
  | _ => Some s
  end.
Definition trueOrUndefined (b : bool) : option bool :=
  if b then Some true else None.

Definition propTranslation (prop : Describeable.t) (propName : string)
    : PropTranslation.t :=
  let d := generatePropDescription prop propName in
  let typeDescriptions :=
    fold_left
      (fun o arg =>
         Obj.set (Described.name arg) (renderMarkdown (Described.description arg)) o)
      (describedTypes d) [] in
  PropTranslation.mk
    (renderMarkdown (PropDescription.jsDocText d))
    (trueOrUndefined (PropDescription.requiresRef d))
    (nonEmpty (renderMarkdown (PropDescription.deprecated d)))
    (if 0 <? length (Obj.keys typeDescriptions) then Some typeDescriptions else None).

Definition attachTranslations (reactApi : ReactApi.t) : ReactApi.t :=
  let propDescriptions :=
    fold_left
      (fun o entry =>
         let '(propName, propDescriptor) := entry in
         match createDescribeableProp propDescriptor propName with
         | Return (Some prop) => Obj.set propName (propTranslation prop propName) o
         | Return None | Throw _ => o
         end)
      (Obj.entries (ReactApi.props reactApi)) [] in
  let slotDescriptions :=
    if 0 <? length (ReactApi.slots reactApi)
    then Some (fold_left
                 (fun o slot => Obj.set (Slot.name slot) (Slot.description slot) o)
                 (ReactApi.slots reactApi) [])
    else None in
  let classDescriptions :=
    fold_left
      (fun o classDefinition =>
         Obj.set (ClassDefinition.key classDefinition)
                 (ClassDefinition.description classDefinition) o)
      (ReactApi.classes reactApi) [] in
  ReactApi.setTranslations reactApi
    (Translations.mk
       (ReactApi.description reactApi)
       propDescriptions
       (extractClassConditions classDescriptions)
       slotDescriptions).

(** *** attachPropsTable *)

(** The pattern [/\.isRequired/] *)
Definition isRequiredRegex : Regex.regex := Regex.Lit ".isRequired".

(** The pattern of line 572: [@deprecated], then optionally (group 1)
    one or more [\s] followed by the named group [info] (group 2), a
    greedy run of [.]. *)
Definition deprecatedRegex : Regex.regex :=
  Regex.Seq (Regex.Lit "@deprecated")
    (Regex.Opt
       (Regex.Cap 1
          (Regex.Seq (Regex.Plus Regex.WhiteSpace) (Regex.Cap 2 (Regex.Star Regex.AnyChar))))).

(** [r.test(x)] converts [x] to a string first: [undefined] is read as the
    text [undefined]. *)
Definition testOptional (r : Regex.regex) (x : option string) : bool :=
  Regex.test r (default "undefined" x).

(** Lines 567-570. *)
Definition requiredProp (prop : Describeable.t) : bool :=
  let chainedPropType := getChained (Describeable.type prop) in
  Describeable.required prop ||
  testOptional isRequiredRegex (PropType.raw (Describeable.type prop)) ||
  match chainedPropType with
  | Some chained => Chained.required chained
  | None => false
  end.

(** Lines 574-597. *)
Definition additionalPropsInfo (reactApi : ReactApi.t) (propName : string)
    : option AdditionalPropsInfo :=
  let normalizedApiPathname := normalizeSlashes (ReactApi.apiPathname reactApi) in
  if String.eqb propName "classes" then Some cssApi
  else if String.eqb propName "sx" then Some sx
  else if String.eqb propName "slots" &&
          negb (Js.startsWith normalizedApiPathname "/material-ui") then Some slotsApi
  else if Js.startsWith normalizedApiPathname "/joy-ui" then
    if String.eqb propName "size" then Some joy_size
    else if String.eqb propName "color" then Some joy_color
    else if String.eqb propName "variant" then Some joy_variant
    else None
  else None.

(** The table entry of a prop that [createDescribeableProp] accepted
    (lines 557-624). *)
Definition propsTableEntry (reactApi : ReactApi.t) (propName : string)
    (propDescriptor : PropDescriptor.t) (prop : Describeable.t) : Entry.t :=
  let defaultValue := PropDescriptor.jsdocDefaultValue propDescriptor in
  let d := generatePropDescription prop propName in
  let propTypeDescription :=
    generatePropTypeDescription (PropDescriptor.type propDescriptor) in
  let deprecation :=
    Regex.exec deprecatedRegex (Js.orElse (PropDescriptor.description propDescriptor) "") in
  let signature :=
    match PropDescription.signature d with
    | Some signatureType =>
        Some (Signature.mk signatureType
                (option_map (map Described.name) (PropDescription.signatureArgs d))
                (option_map Described.name (PropDescription.signatureReturn d)))
    | None => None
    end in
  Entry.mk
    (TableType.mk
       (Some (PropType.name (PropDescriptor.type propDescriptor)))
       (if negb (String.eqb propTypeDescription
                   (PropType.name (PropDescriptor.type propDescriptor)))
        then Some propTypeDescription else None))
    defaultValue
    (trueOrUndefined (requiredProp prop))
    (trueOrUndefined (match deprecation with Some _ => true | None => false end))
    (nonEmpty
       (Js.trim
          (renderMarkdown
             (Js.orElse
                (match deprecation with
                 | Some m => Regex.group m 2
                 | None => None
                 end) ""))))
    signature
    (additionalPropsInfo reactApi propName).

(** The callback of the [map] of lines 544-625 for one prop: the pair it
    returns ([None] is the [[]] returned for a prop without descriptor)
    and the error it pushes to [propErrors], if any. *)
Definition describeProp (reactApi : ReactApi.t) (entry : string * PropDescriptor.t)
    : option (string * Entry.t) * option (string * Error) :=
  let '(propName, propDescriptor) := entry in
  match createDescribeableProp propDescriptor propName with
  | Throw error =>
      (None, Some ("[" +:+ ReactApi.name reactApi +:+ "] `" +:+ propName +:+ "`", error))
  | Return None => (None, None)
  | Return (Some prop) =>
      (Some (propName, propsTableEntry reactApi propName propDescriptor prop), None)
  end.

(** The pair [[]] has neither key nor value: [_.fromPairs] stores
    [undefined] under the key [undefined]. *)
Definition asPair (p : option (string * Entry.t)) : string * option Entry.t :=
  match p with
  | Some (k, v) => (k, Some v)
  | None => ("undefined", None)
  end.

(** The properties of an object whose value is defined. *)
Definition defined {V} (o : Obj.t (option V)) : Obj.t V :=
  omap (fun kv => match snd kv with Some v => Some (fst kv, v) | None => None end) o.

(** The message of the aggregated error (lines 629-633). *)
Definition propErrorsMessage (propErrors : list (string * Error)) : string :=
  "There were errors creating prop descriptions:" +:+ Js.LF +:+
  Js.join Js.LF
    (map (fun pe => "  - " +:+ fst pe +:+ ": " +:+ errorToString (snd pe)) propErrors).

Definition attachPropsTable (reactApi : ReactApi.t) : result ReactApi.t :=
  let described := map (describeProp reactApi) (Obj.entries (ReactApi.props reactApi)) in
  let propErrors := omap snd described in
  let componentProps := Obj.fromPairs (map (fun r => asPair (fst r)) described) in
  if 0 <? length propErrors
  then Throw (mkError "Error" (propErrorsMessage propErrors))
  else Return (ReactApi.setPropsTable reactApi
                 (defined (Obj.delete "undefined" componentProps))).

(** *** getComponentImports *)

(** [`${x}`] for a group that may be [undefined]. *)
Definition interpolate (x : option string) : string := default "undefined" x.

(** The optional, non-capturing [-(.+?)] with the package as group 1. *)
Definition packageSuffix : Regex.regex :=
  Regex.Opt
    (Regex.Seq (Regex.Lit "-")
       (Regex.Cap 1 (Regex.Seq (Regex.Class Regex.AnyChar) (Regex.LazyStar Regex.AnyChar)))).

(** The pattern of line 652. *)
Definition rootImportRegex : Regex.regex :=
  Regex.Seq (Regex.Lit "/packages/mui")
    (Regex.Seq packageSuffix
       (Regex.Seq (Regex.Lit "/src/") (Regex.Star Regex.AnyChar))).

(** The pattern of line 657; group 2 is a run of units other than the
    backslash and the slash. *)
Definition subdirectoryImportRegex : Regex.regex :=
  Regex.Seq (Regex.Lit "/packages/mui")
    (Regex.Seq packageSuffix
       (Regex.Seq (Regex.Lit "/src/")
          (Regex.Seq (Regex.Cap 2 (Regex.Plus (Regex.NoneOf (BACKSLASH +:+ "/"))))
             (Regex.Seq (Regex.Lit "/") (Regex.Star Regex.AnyChar))))).

Definition getComponentImports (name filename : string) : list string :=
  let githubPath := toGitHubPath filename in
  let rootImportPath :=
    Regex.replaceWith rootImportRegex
      (fun m => "@mui/" +:+ interpolate (Regex.group m 1)) githubPath in
  let subdirectoryImportPath :=
    Regex.replaceWith subdirectoryImportRegex
      (fun m => "@mui/" +:+ interpolate (Regex.group m 1) +:+ "/" +:+
                interpolate (Regex.group m 2)) githubPath in
  let defaultImportName := name in
  let namedImportName :=
    if Regex.test (Regex.Lit "Unstable_") githubPath
    then "Unstable_" +:+ name +:+ " as " +:+ name
    else name in
  let useNamedImports := String.eqb rootImportPath "@mui/base" in
  let subpathImport :=
    if useNamedImports
    then "import { " +:+ namedImportName +:+ " } from '" +:+ subdirectoryImportPath +:+ "';"
    else "import " +:+ defaultImportName +:+ " from '" +:+ subdirectoryImportPath +:+ "';" in
  let rootImport :=
    "import { " +:+ namedImportName +:+ " } from '" +:+ rootImportPath +:+ "';" in
  [subpathImport; rootImport].

(** *** generateComponentApi *)

(** The body of [definitions.forEach] (lines 715-727): [node] becomes the
    definition when it is a call of [create<name>]. *)
Definition selectDefinition (name : string) (node : option Ast.Expression)
    (definition : option Ast.Expression) : option Ast.Expression :=
  let expression :=
    match definition with
    | Some (Ast.Expr _ (Some inner)) => Some inner
    | _ => definition
    end in
  match expression with
  | Some (Ast.Expr (Some callee) _) =>
      match Ast.calleeName callee with
      | Some definitionName =>
          if String.eqb definitionName ("create" +:+ name) then expression else node
      | None => node
      end
  | _ => node
  end.

(** [astTypes.visit] with [visitVariableDeclaration] (lines 706-731). *)
Fixpoint visit (name : string) (ast : Ast.node) (node : option Ast.Expression)
    : option Ast.Expression :=
  match ast with
  | Ast.VariableDeclaration declarations =>
      fold_left (selectDefinition name) (default [] declarations) node
  | Ast.Other children =>
      fold_left (fun node child => visit name child node) children node
  end.

(** The component finder handed to react-docgen for a system component. *)
Definition findCreateDefinition (name : string) (ast : Ast.node)
    : option Ast.Expression :=
  visit name ast None.

Definition noDefinitionMessage : string := "No suitable component definition found.".

(** Lines 700-752. *)
Definition parseComponent (componentInfo : ComponentInfo.t) (src filename : string)
    : result Docgen.t :=
  if ComponentInfo.isSystemComponent componentInfo then
    match docgenParse src (Some (findCreateDefinition (ComponentInfo.name componentInfo)))
            defaultHandlers filename with
    | Return reactApi => Return reactApi
    | Throw error =>
        if String.eqb (message error) noDefinitionMessage
        then docgenParse src None (defaultHandlers ++ [muiDefaultPropsHandler]) filename
        else Throw error
    end
  else docgenParse src None (defaultHandlers ++ [muiDefaultPropsHandler]) filename.

(** The pattern of line 755: group 1 is [Demos] or [API], then a colon
    and two line ends, each a line feed after an optional carriage
    return. *)
Definition annotatedDescriptionRegex : Regex.regex :=
  Regex.Seq (Regex.Cap 1 (Regex.Alt (Regex.Lit "Demos") (Regex.Lit "API")))
    (Regex.Seq (Regex.Lit ":")
       (Regex.Seq newlineRegex newlineRegex)).

(** Lines 754-758. *)
Definition stripAnnotation (description : string) : string :=
  match Regex.exec annotatedDescriptionRegex description with
  | Some annotatedDescriptionMatch =>
      Js.trim (Js.take (Regex.index annotatedDescriptionMatch) description)
  | None => description
  end.

(** The error of lines 767-771. *)
Definition missingDemosError (name : string) : Error :=
  mkError "Error"
    ("Unable to find demos. " +:+ Js.LF +:+
     "Be sure to include `components: " +:+ name +:+
     "` in the markdown pages where the `" +:+ name +:+ "` component is relevant. " +:+
     "Every public component should have a demo. ").

Definition emptyTranslations : Translations.t := Translations.mk "" [] [] None.

(** Lines 796-828: the pages, the translations and the annotation. *)
Definition emitArtifacts (componentInfo : ComponentInfo.t)
    (projectSettings : ProjectSettings.t) (reactApi : ReactApi.t) : io unit :=
  let normalizedApiPathname := normalizeSlashes (ReactApi.apiPathname reactApi) in
  let normalizedFilename := normalizeSlashes (ReactApi.filename reactApi) in
  if negb (ComponentInfo.skipApiGeneration componentInfo) then
    let translationPagesDirectory :=
      if Js.startsWith normalizedApiPathname "/joy-ui" &&
         Js.includes normalizedFilename "mui-joy/src"
      then "docs/translations/api-docs-joy"
      else if Js.startsWith normalizedApiPathname "/base" &&
              Js.includes normalizedFilename "mui-base/src"
      then "docs/translations/api-docs-base"
      else "docs/translations/api-docs" in
    generateApiTranslations (pathJoin cwd translationPagesDirectory) reactApi
      (ProjectSettings.translationLanguages projectSettings) ;;
    let generateOnlyJsonFile := Js.startsWith normalizedApiPathname "/base" in
    generateApiPage (ComponentInfo.apiPagesDirectory componentInfo)
      translationPagesDirectory reactApi generateOnlyJsonFile ;;
    annotateComponentDefinition reactApi
  else mret tt.

(** The record as lines 757-788 fill it in, before the props table and the
    translations are attached. *)
Definition assembleReactApi (componentInfo : ComponentInfo.t)
    (project : TypeScriptProject) (docgen : Docgen.t) (testInfo : TestInfo.t)
    : ReactApi.t :=
  let file := ComponentInfo.readFile componentInfo in
  let filename := ComponentInfo.filename componentInfo in
  let name := ComponentInfo.name componentInfo in
  let '(slots, classes) :=
    parseSlotsAndClasses project name (ComponentInfo.muiName componentInfo) in
  ReactApi.mk
    (Docgen.props docgen)
    (stripAnnotation (Docgen.description docgen))
    (ComponentInfo.getDemos componentInfo)
    (ReadFile.EOL file)
    filename
    (ComponentInfo.apiPathname componentInfo)
    (TestInfo.forwardsRefTo testInfo)
    (ComponentInfo.getInheritance componentInfo (TestInfo.inheritComponent testInfo))
    name
    (ComponentInfo.muiName componentInfo)
    (match TestInfo.spread testInfo with
     | Some b => Some b
     | None => ReadFile.spread file
     end)
    (TestInfo.themeDefaultProps testInfo)
    classes
    slots
    []
    (getComponentImports name filename)
    emptyTranslations.

(** The component's API: [None] is the [null] returned for a component
    that is skipped. Writing to the console is left out. *)
Definition generateComponentApi (componentInfo : ComponentInfo.t)
    (project : TypeScriptProject) (projectSettings : ProjectSettings.t)
    : io (option ReactApi.t) :=
  let file := ComponentInfo.readFile componentInfo in
  if ReadFile.shouldSkip file then mret None
  else
    let filename := ComponentInfo.filename componentInfo in
    docgen ← ioLift (parseComponent componentInfo (ReadFile.src file) filename);
    let demos := ComponentInfo.getDemos componentInfo in
    if length demos =? 0
    then ioThrow (missingDemosError (ComponentInfo.name componentInfo))
    else
      testInfo ← ioLift (parseTest filename);
      let reactApi := assembleReactApi componentInfo project docgen testInfo in
      reactApi ← ioLift (attachPropsTable reactApi);
      let reactApi := attachTranslations reactApi in
      emitArtifacts componentInfo projectSettings reactApi ;;
      mret (Some reactApi).

End ComponentApiBuilder.

Arguments cssComponents : simpl never.

(** ** A concrete environment

    An instance of the imported functions on which the closed examples
    below are run. Markdown is rendered as it is, a prop without
    description is refused as [createDescribeableProp] refuses it, a prop
    whose description is empty has no descriptor, names are compared unit
    by unit, and paths are joined with a slash. The description of a
    component is read from the first documentation comment of its source,
    which is also where the annotation goes; without such a comment the
    annotation goes before the default export. The operating system
    refuses nothing. *)

Module Sample.

Definition compareStrings (a b : string) : Z :=
  match String.compare a b with
  | Lt => (-1)%Z
  | Eq => 0%Z
  | Gt => 1%Z
  end.

Definition describe (propDescriptor : PropDescriptor.t) (propName : string)
    : result (option Describeable.t) :=
  match PropDescriptor.description propDescriptor with
  | None =>
      Throw (mkError "Error" ("The `" +:+ propName +:+ "` prop is missing a description."))
  | Some EmptyString => Return None
  | Some _ => Return (Some (Describeable.mk false (PropDescriptor.type propDescriptor)))
  end.

(** Where the first documentation comment of [src] starts and ends. *)
Definition commentRange (src : string) : option (nat * nat) :=
  match Js.indexOfFrom 0 "/**" src with
  | Some start =>
      match Js.indexOfFrom 0 "*/" (Js.drop (start + 3) src) with
      | Some length => Some (start, start + 3 + length + 2)
      | None => None
      end
  | None => None
  end.

(** A line of a documentation comment without its star. *)
Definition unstar (line : string) : string :=
  match Js.stripPrefix " * " line with
  | Some text => text
  | None =>
      match Js.stripPrefix " *" line with
      | Some text => text
      | None => line
      end
  end.

(** The text of the first documentation comment of [src]: its lines
    between the opening and the closing line, without their stars. *)
Definition readDescription (src : string) : string :=
  match commentRange src with
  | Some (start, end_) =>
      Js.join Js.LF
        (map unstar
           (removelast (tl (Js.splitOn "010" (Js.slice (start + 3) (end_ - 2) src)))))
  | None => ""
  end.

(** The syntax tree of a source that starts, as [const Box = createBox();]
    does, with the declaration of a variable initialised by a call: the
    name of the callee is what stands between the first [ = ] and the
    parenthesis after it. The tree of another source declares nothing. *)
Definition syntax (src : string) : Ast.node :=
  match Js.indexOfFrom 0 " = " src with
  | Some start =>
      let call := Js.drop (start + 3) src in
      match Js.indexOfFrom 0 "(" call with
      | Some length =>
          Ast.Other
            [Ast.VariableDeclaration
               (Some [Some (Ast.Expr (Some (Ast.mkCallee (Some (Js.take length call))))
                              None)])]
      | None => Ast.Other []
      end
  | None => Ast.Other []
  end.

(** A parser that documents what the finder selects and, without finder,
    the source itself: it reads the description and no prop. *)
Definition parse (src : string) (finder : option (Ast.node -> option Ast.Expression))
    (handlers : list Handler) (filename : string) : result Docgen.t :=
  match finder with
  | Some find =>
      match find (syntax src) with
      | Some _ => Return (Docgen.mk [] (readDescription src))
      | None => Throw (mkError "Error" "No suitable component definition found.")
      end
  | None => Return (Docgen.mk [] (readDescription src))
  end.

(** The range of the first documentation comment, or the place before the
    default export: its offset less one, as the visitors compute it. *)
Definition locate (typesSource typesFilename filename fileName : string)
    : result (Z * option Z) :=
  match commentRange typesSource with
  | Some (start, end_) => Return (Z.of_nat start, Some (Z.of_nat end_))
  | None =>
      match Js.indexOfFrom 0 "export default" typesSource with
      | Some start => Return ((Z.of_nat start - 1)%Z, Some (Z.of_nat start - 1)%Z)
      | None => Return (0%Z, None)
      end
  end.

(** The lists that start a list, the shortest first. *)
Fixpoint leading (parts : list string) : list (list string) :=
  match parts with
  | [] => []
  | part :: parts' => [part] :: map (cons part) (leading parts')
  end.

(** The directories above a path, the nearest first: what precedes each of
    its slashes, [/] for what precedes the first slash of an absolute
    path. *)
Definition ancestors (path : string) : list string :=
  rev (map (fun parts =>
              match Js.join "/" parts with
              | EmptyString => "/"
              | directory => directory
              end)
           (leading (removelast (Js.splitOn "/" path)))).

#[export] Instance imports : Imports := {|
  renderMarkdown := fun s => s;
  createDescribeableProp := describe;
  generatePropDescription := fun _ _ => PropDescription.mk "" "" None None None false;
  generatePropTypeDescription := fun type => default (PropType.name type) (PropType.raw type);
  getChained := fun _ => None;
  parseTest := fun _ => Return (TestInfo.mk None None ThemeUndefined None);
  parseSlotsAndClasses := fun _ _ _ => ([], []);
  docgenParse := parse;
  defaultHandlers := [DocgenHandler 0];
  muiDefaultPropsHandler := DocgenHandler 1;
  remarkProcess := fun _ s => s;
  locateJsdoc := locate;
  mkdirRefused := fun _ _ => None;
  writeRefused := fun _ _ => None;
  kebabCase := fun s => s;
  localeCompare := compareStrings;
  pathResolve := fun a b => a +:+ "/" +:+ b;
  pathJoin := fun a b => a +:+ "/" +:+ b;
  pathRelative := fun _ p => p;
  pathParseName := fun p => p;
  pathAncestors := ancestors;
  cwd := "";
  prettify := fun s => s;
  stringifyTranslations := fun t => Translations.componentDescription t;
  stringifyPageContent := fun p => PageContent.name p
|}.

End Sample.

(** ** Notions used in the statements *)

(** [sub] occurs somewhere in [s]. *)
Definition occursIn (sub s : string) : Prop :=
  exists before after, s = before +:+ sub +:+ after.

(** The continuation [k] refuses every stop of a lazy run inside [target],
    when [rest] follows it. *)
Fixpoint refusedBefore {R} (k : string -> option R) (target rest : string) : Prop :=
  match target with
  | EmptyString => True
  | String a target' =>
      k (String a (target' +:+ rest)) = None /\ refusedBefore k target' rest
  end.

(** One attempt of [r] at the start of [s]: what is left of [s] and the
    captures, or [None]. *)
Definition attempt (r : Regex.regex) (s : string) : option (string * Regex.captures) :=
  Regex.run r s [] (fun s' c => Some (s', c)).

(** What follows a line end at the start of [s]. *)
Definition lineEnd (s : string) : option string :=
  match Js.stripPrefix Js.CR s with
  | Some s1 => Js.stripPrefix Js.LF s1
  | None => Js.stripPrefix Js.LF s
  end.

(** What follows two line ends at the start of [s]. *)
Definition twoLineEnds (s : string) : option string :=
  match lineEnd s with
  | Some s2 => lineEnd s2
  | None => None
  end.

(** What follows the marker at the start of [s]. *)
Definition afterColon (s : string) : option string :=
  match Js.stripPrefix ":" s with
  | Some s1 =>
      match lineEnd s1 with
      | Some s2 => lineEnd s2
      | None => None
      end
  | None => None
  end.

(** What follows a match of [annotatedDescriptionRegex] at the start of
    [s]: [Demos] or [API], a colon and two line ends. *)
Definition markerEnd (s : string) : option string :=
  match
    match Js.stripPrefix "Demos" s with
    | Some s1 => afterColon s1
    | None => None
    end
  with
  | Some s' => Some s'
  | None =>
      match Js.stripPrefix "API" s with
      | Some s1 => afterColon s1
      | None => None
      end
  end.

(** An expression that calls the function named [create<name>]. *)
Definition isCreateCall (name : string) (expression : Ast.Expression) : Prop :=
  exists callee inner,
    expression = Ast.Expr (Some callee) inner /\
    Ast.calleeName callee = Some ("create" +:+ name).

(** Induction over a syntax tree and the children of its nodes. *)
Fixpoint node_induction (P : Ast.node -> Prop)
    (HV : forall declarations, P (Ast.VariableDeclaration declarations))
    (HO : forall children, Forall P children -> P (Ast.Other children))
    (ast : Ast.node) : P ast :=
  match ast with
  | Ast.VariableDeclaration declarations => HV declarations
  | Ast.Other children =>
      HO children
        ((fix all (cs : list Ast.node) : Forall P cs :=
            match cs with
            | [] => List.Forall_nil P
            | c :: cs' => List.Forall_cons P c cs' (node_induction P HV HO c) (all cs')
            end) children)
  end.

(** [s] with every backslash turned into a slash. *)
Fixpoint forwardSlashes (s : string) : string :=
  match s with
  | EmptyString => EmptyString
  | String a s' =>
      String (if Ascii.eqb a "092" then "/"%char else a) (forwardSlashes s')
  end.

(** The expression that the finder examines for an initialiser: the
    expression it wraps when it wraps one, the initialiser otherwise. *)
Definition examined (init : Ast.Expression) : Ast.Expression :=
  match init with
  | Ast.Expr _ (Some inner) => inner
  | Ast.Expr _ None => init
  end.

(** The expressions that the finder examines, in the order of the
    traversal: one for each initialiser of the variable declarations that
    the traversal reaches. *)
Fixpoint initialisers (ast : Ast.node) : list Ast.Expression :=
  match ast with
  | Ast.VariableDeclaration declarations =>
      map examined (omap id (default [] declarations))
  | Ast.Other children => flat_map initialisers children
  end.

(** Whether an expression calls the function named [create<name>]. *)
Definition callsCreate (name : string) (expression : Ast.Expression) : bool :=
  match expression with
  | Ast.Expr (Some callee) _ =>
      match Ast.calleeName callee with
      | Some definitionName => String.eqb definitionName ("create" +:+ name)
      | None => false
      end
  | Ast.Expr None _ => false
  end.

(** The last of the expressions [found], or [node] when there is none. *)
Definition lastOr {A} (node : option A) (found : list A) : option A :=
  match last found with
  | Some e => Some e
  | None => node
  end.

(** A tree declares the factory of [name] when a variable declaration that
    the traversal reaches has a declarator initialised by a call of
    [create<name>]. *)
Inductive declaresCreate (name : string) : Ast.node -> Prop :=
| declares_here (declarations : list (option Ast.Expression)) (init : Ast.Expression) :
    In (Some init) declarations ->
    isCreateCall name (examined init) ->
    declaresCreate name (Ast.VariableDeclaration (Some declarations))
| declares_below (children : list Ast.node) (child : Ast.node) :
    In child children ->
    declaresCreate name child ->
    declaresCreate name (Ast.Other children).

(** [s] holds no slash. *)
Definition noSlash (s : string) : bool :=
  Js.allUnits (fun a => negb (Ascii.eqb a "/")) s.

(** [s] holds no carriage return; [s] holds no dollar sign. *)
Definition noCR (s : string) : bool :=
  Js.allUnits (fun a => negb (Ascii.eqb a "013")) s.
Definition noDollar (s : string) : bool :=
  Js.allUnits (fun a => negb (Ascii.eqb a "$")) s.

(** [s] holds no backquote. *)
Definition noBackquote (s : string) : bool :=
  Js.allUnits (fun a => negb (Ascii.eqb a "`")) s.

Section Notions.
Context `{Imports}.

(** The props that [createDescribeableProp] refuses, in the order of the
    props, each with the error thrown for it. *)
Definition failingProps (reactApi : ReactApi.t) : list (string * Error) :=
  omap (fun entry =>
          match createDescribeableProp (snd entry) (fst entry) with
          | Throw error => Some (fst entry, error)
          | Return _ => None
          end)
       (ReactApi.props reactApi).

(** How the aggregated error names a prop: the component's name in square
    brackets and the prop's name between backquotes. *)
Definition propLabel (reactApi : ReactApi.t) (propName : string) : string :=
  "[" +:+ ReactApi.name reactApi +:+ "] `" +:+ propName +:+ "`".

(** The words that may open the description of a class and the separators
    that may introduce its condition. *)
Definition prefixes : list string := ["Styles"; "State class"; "Class name"].
Definition separators : list string := [" if "; " unless "; " when "; ", "].

(** Where group 3 may end: before a separator or before a full stop. *)
Definition stops : list string := separators ++ ["."].

(** No separator and no full stop starts inside [target] when [rest]
    follows it: the lazy group 3 then covers all of [target]. *)
Fixpoint plainTarget (target rest : string) : bool :=
  match target with
  | EmptyString => true
  | String a target' =>
      forallb (fun stop => negb (Js.startsWith (String a (target' +:+ rest)) stop)) stops &&
      plainTarget target' rest
  end.

(** What [stylesRegex] holds after group 3. *)
Definition afterTarget : Regex.regex :=
  Regex.Seq
    (Regex.Opt
       (Regex.Cap 4
          (Regex.Seq stylesSeparator (Regex.Cap 6 (Regex.Star Regex.AnyChar)))))
    (Regex.Lit ".").

(** The text of the comment block: the lines of [markdownLines], joined. *)
Definition annotatedDescription (api : ReactApi.t) : string :=
  Js.join Js.LF (markdownLines api).

(** The file [path] can be written, the directories being [present]: no
    directory is at the path, the directory that holds the file is there,
    and the operating system does not refuse. *)
Definition writable (present : gset string) (path : string) : bool :=
  negb (bool_decide (path ∈ present)) &&
  parentPresent present path &&
  match writeRefused present path with
  | Some _ => false
  | None => true
  end.

End Notions.

(** ** Sample components

    Concrete components, tables and file systems, read in the environment
    of [Sample]. *)

Module Instances.

(** Two entries of a props table: one that is not required, one that is. *)
Definition optional : Entry.t :=
  Entry.mk (TableType.mk (Some "string") None) None None None None None None.
Definition required : Entry.t :=
  Entry.mk (TableType.mk (Some "node") None) None (Some true) None None None None.

(** A props table whose names are words, and one with a number among its
    names (an object enumerates that name first). *)
Definition wordTable : Obj.t Entry.t :=
  [("variant", optional); ("children", required); ("color", optional)].
Definition numberTable : Obj.t Entry.t :=
  [("0", optional); ("children", required)].

(** A prop with a description, and one without. *)
Definition described (name : string) (raw : option string) : PropDescriptor.t :=
  PropDescriptor.mk (PropType.mk name raw) (Some "The description.") None.
Definition undescribed (name : string) : PropDescriptor.t :=
  PropDescriptor.mk (PropType.mk name None) None None.

Definition demo : Demo.t := Demo.mk "Button" "/material-ui/react-button/".

(** The API of a button with the given props and description. *)
Definition api (props : Obj.t PropDescriptor.t) (description : string) : ReactApi.t :=
  ReactApi.mk props description [demo] Js.LF "Button.tsx"
    "/material-ui/api/button/" None None "Button" "MuiButton" None ThemeUndefined
    [] [] [] [] (Translations.mk description [] [] None).

(** Two described props, one of them rendered by its raw signature. *)
Definition describedApi : ReactApi.t :=
  api [("color", described "enum" (Some "'red' | 'blue'"));
       ("disabled", described "bool" None)] "A button.".

(** Two props without description around a described one. *)
Definition brokenApi : ReactApi.t :=
  api [("color", undescribed "enum");
       ("disabled", described "bool" None);
       ("size", undescribed "enum")] "A button.".

(** The entry of [color] in the props table of [describedApi]. *)
Definition colorEntry : Entry.t :=
  Entry.mk (TableType.mk (Some "enum") (Some "'red' | 'blue'"))
    None None None None None None.

(** The source of a button with the given lines of documentation. *)
Definition source (documentation : list string) : string :=
  Js.join Js.LF
    (["import * as React from 'react';"; ""; "/**"] ++
     map (fun line => " * " +:+ line) documentation ++
     [" */"; "export default function Button() {}"; ""]).

(** The button as a component of the project, with the given demos. *)
Definition component (system : bool) (demos : list Demo.t) : ComponentInfo.t :=
  ComponentInfo.mk "Button.tsx" "Button" "MuiButton" "/material-ui/api/button/"
    "pages/api" system false (ReadFile.mk false None Js.LF (source ["A button."]))
    demos (fun _ => None).

Definition settings : ProjectSettings.t := ProjectSettings.mk ["en"; "fr"; "de"].

Definition emptyFiles : FileSystem := mkFS ∅ ∅.

(** A file system in which the French bundle of the button is there, and
    one in which a file has the name of the directory of its bundles. *)
Definition translatedFiles : FileSystem :=
  mkFS {[ "translations/Button/Button-fr.json" := "translated" ]}
    {[ "translations"; "translations/Button" ]}.
Definition blockedFiles : FileSystem :=
  mkFS {[ "translations/Button" := "not a directory" ]} {[ "translations" ]}.

(** A prop whose raw signature holds [.isRequired] before its end. *)
Definition wrappedProp : Describeable.t :=
  Describeable.mk false
    (PropType.mk "custom"
       (Some "deprecatedPropType(PropTypes.bool.isRequired, 'Use the other prop.')")).

(** A call of [createButton], and a tree that declares a variable with it,
    wrapped in another expression. *)
Definition createButton : Ast.Expression :=
  Ast.Expr (Some (Ast.mkCallee (Some "createButton"))) None.
Definition program : Ast.node :=
  Ast.Other
    [Ast.VariableDeclaration (Some [None; Some (Ast.Expr None (Some createButton))])].

End Instances.

(** ** More sample components *)

Module MoreInstances.

(** The button with [skipApiGeneration] set, and a file system that holds
    the source of the button and the directory of the pages. *)
Definition skippedComponent : ComponentInfo.t :=
  ComponentInfo.mk "Button.tsx" "Button" "MuiButton" "/material-ui/api/button/"
    "pages/api" false true
    (ReadFile.mk false None Js.LF (Instances.source ["A button."]))
    [Instances.demo] (fun _ => None).

Definition sourceFiles : FileSystem :=
  mkFS {[ "Button.tsx" := Instances.source ["A button."] ]} {[ "pages/api" ]}.

(** A button whose file is to be skipped, without demos. *)
Definition ignoredComponent : ComponentInfo.t :=
  ComponentInfo.mk "Button.tsx" "Button" "MuiButton" "/material-ui/api/button/"
    "pages/api" false false
    (ReadFile.mk true None Js.LF (Instances.source ["A button."]))
    [] (fun _ => None).

(** The button as the project reads it from a file that holds [src]. *)
Definition documented (src : string) : ComponentInfo.t :=
  ComponentInfo.mk "Button.tsx" "Button" "MuiButton" "/material-ui/api/button/"
    "pages/api" false false (ReadFile.mk false None Js.LF src)
    [Instances.demo] (fun _ => None).

(** The file [Button.tsx] after a run of the builder on a button whose
    documentation is the given text, and after a second run on the file
    that the first run left. *)
Definition firstRun (documentation : string) : FileSystem :=
  fst (generateComponentApi (H := Sample.imports)
         (documented (Instances.source [documentation])) (Project 0)
         Instances.settings
         (mkFS {[ "Button.tsx" := Instances.source [documentation] ]}
            {[ "pages/api" ]})).
Definition annotated (documentation : string) : string :=
  default "" (files (firstRun documentation) !! "Button.tsx").
Definition secondRun (documentation : string) : FileSystem * result (option ReactApi.t) :=
  generateComponentApi (H := Sample.imports) (documented (annotated documentation))
    (Project 0) Instances.settings (firstRun documentation).

(** A system component made by [createBox]. *)
Definition box : ComponentInfo.t :=
  ComponentInfo.mk "Box.js" "Box" "MuiBox" "/system/api/box/"
    "pages/api" true false
    (ReadFile.mk false None Js.LF "const Box = createBox();")
    [] (fun _ => None).

(** The API of a button written in JavaScript, with the line ending of
    Windows, and a file system that holds its declaration file. *)
Definition jsApi : ReactApi.t :=
  ReactApi.mk [] "A button." [Instances.demo] (Js.CR +:+ Js.LF) "Button.js"
    "/material-ui/api/button/" None None "Button" "MuiButton" None ThemeUndefined
    [] [] [] [] (Translations.mk "A button." [] [] None).

Definition declarationFiles : FileSystem :=
  mkFS {[ "Button.d.ts" := Instances.source ["A button."] ]} ∅.

(** A file system whose declaration file starts with the declaration. *)
Definition bareDeclarationFiles : FileSystem :=
  mkFS {[ "Button.d.ts" := "export default Button" ]} ∅.

(** A file system that holds only the directory of the pages. *)
Definition pagesDirectory : FileSystem := mkFS ∅ {[ "pages/api" ]}.

(** A prop that is deprecated, with the replacement named after the tag. *)
Definition deprecatedProp : PropDescriptor.t :=
  PropDescriptor.mk (PropType.mk "bool" None)
    (Some "If true, the button is dense. @deprecated Use the size prop instead.") None.

(** The API of a button of Base UI. *)
Definition baseApi : ReactApi.t :=
  ReactApi.mk [] "A button." [Instances.demo] Js.LF "Button.tsx"
    "/base-ui/react-button/components-api/" None None "Button" "MuiButton" None
    ThemeUndefined [] [] [] [] (Translations.mk "A button." [] [] None).

End MoreInstances.

(** ** Properties of strings and of the matcher *)

Section StringFacts.

Lemma append_assoc (a b c : string) : (a +:+ b) +:+ c = a +:+ (b +:+ c).
Proof.
  induction a as [|x a IH]; [reflexivity|].
  change (String x ((a +:+ b) +:+ c) = String x (a +:+ (b +:+ c))).
  now rewrite IH.
Qed.

Lemma append_empty_r (a : string) : a +:+ "" = a.
Proof.
  induction a as [|x a IH]; [reflexivity|].
  change (String x (a +:+ "") = String x a). now rewrite IH.
Qed.

Lemma length_append (a b : string) :
  String.length (a +:+ b) = String.length a + String.length b.
Proof.
  induction a as [|x a IH]; [reflexivity|].
  change (S (String.length (a +:+ b)) = S (String.length a + String.length b)).
  now rewrite IH.
Qed.

Lemma stripPrefix_Some (p s s' : string) :
  Js.stripPrefix p s = Some s' <-> s = p +:+ s'.
Proof.
  revert s. induction p as [|a p IH]; intros s; simpl.
  - split; [intros [= ->]; reflexivity | intros ->; reflexivity].
  - destruct s as [|b s].
    + split; [discriminate | intros [=]].
    + destruct (Ascii.eqb_spec a b) as [->|Hne].
      * rewrite IH. split.
        -- intros ->. reflexivity.
        -- intros [= ->]. reflexivity.
      * split; [discriminate | intros [= -> _]; congruence].
Qed.

Lemma stripPrefix_append (p s : string) : Js.stripPrefix p (p +:+ s) = Some s.
Proof. now apply stripPrefix_Some. Qed.

Lemma occursIn_append_r (sub a b : string) : occursIn sub b -> occursIn sub (a +:+ b).
Proof.
  intros (before & after & ->). exists (a +:+ before), after.
  now rewrite append_assoc.
Qed.

Lemma occursIn_append_l (sub a b : string) : occursIn sub a -> occursIn sub (a +:+ b).
Proof.
  intros (before & after & ->). exists before, (after +:+ b).
  now rewrite !append_assoc.
Qed.

Lemma occursIn_refl (s : string) : occursIn s s.
Proof. exists "", "". now rewrite append_empty_r. Qed.

(** A pattern that is a literal matches exactly where the literal occurs. *)
Lemma execFrom_Lit (p s : string) (i : nat) :
  (exists m, Regex.execFrom (Regex.Lit p) i s = Some m) <-> occursIn p s.
Proof.
  revert i. induction s as [|a s IH]; intros i; simpl.
  - destruct (Js.stripPrefix p "") as [s'|] eqn:E.
    + apply stripPrefix_Some in E. split; [|eauto].
      intros _. exists "", s'. exact E.
    + split; [intros [m [=]]|].
      intros (before & after & Heq).
      destruct before; [|discriminate].
      change (("" : string) = p +:+ after) in Heq.
      apply stripPrefix_Some in Heq. congruence.
  - destruct (Js.stripPrefix p (String a s)) as [s'|] eqn:E.
    + apply stripPrefix_Some in E. split; [|eauto].
      intros _. exists "", s'. exact E.
    + rewrite IH. split.
      * intros (before & after & ->). now exists (String a before), after.
      * intros (before & after & Heq). destruct before as [|b before].
        -- change (String a s = p +:+ after) in Heq.
           apply stripPrefix_Some in Heq. congruence.
        -- injection Heq as -> ->. now exists before, after.
Qed.

Lemma test_Lit (p s : string) : Regex.test (Regex.Lit p) s = true <-> occursIn p s.
Proof.
  rewrite <- (execFrom_Lit p s 0). unfold Regex.test, Regex.exec.
  destruct (Regex.execFrom (Regex.Lit p) 0 s) as [m|].
  - split; eauto.
  - split; [discriminate | intros [m [=]]].
Qed.

Lemma occursIn_trans (a b c : string) : occursIn a b -> occursIn b c -> occursIn a c.
Proof.
  intros (p1 & q1 & ->) (p2 & q2 & ->).
  exists (p2 +:+ p1), (q1 +:+ q2). now rewrite !append_assoc.
Qed.

Lemma join_cons (sep x : string) (xs : list string) :
  xs <> [] -> Js.join sep (x :: xs) = x +:+ sep +:+ Js.join sep xs.
Proof. destruct xs; [congruence | reflexivity]. Qed.

(** An element of a list occurs in the list joined. *)
Lemma occursIn_join (sep x : string) (xs : list string) :
  In x xs -> occursIn x (Js.join sep xs).
Proof.
  induction xs as [|y ys IH]; [intros []|].
  intros Hin. destruct ys as [|z zs].
  - destruct Hin as [->|[]]. apply occursIn_refl.
  - rewrite join_cons by discriminate.
    destruct Hin as [->|Hin].
    + apply occursIn_append_l, occursIn_refl.
    + apply occursIn_append_r, occursIn_append_r, IH, Hin.
Qed.

Lemma append_empty_l (a : string) : "" +:+ a = a.
Proof. reflexivity. Qed.

Lemma take_append (x y : string) : Js.take (String.length x) (x +:+ y) = x.
Proof.
  induction x as [|a x IH]; simpl.
  - now destruct y.
  - now rewrite IH.
Qed.

Lemma consumed_append (x y : string) : Regex.consumed (x +:+ y) y = x.
Proof.
  unfold Regex.consumed. rewrite length_append.
  replace (String.length x + String.length y - String.length y)
    with (String.length x) by lia.
  apply take_append.
Qed.

Lemma consumed_spec (s x s' : string) : s = x +:+ s' -> Regex.consumed s s' = x.
Proof. intros ->. apply consumed_append. Qed.

Lemma trimEnd_length (s : string) : String.length (Js.trimEnd s) <= String.length s.
Proof.
  induction s as [|a s IH]; simpl; [lia|].
  destruct (Js.trimEnd s); [destruct (Js.isWhiteSpace a); simpl in *; lia | simpl in *; lia].
Qed.

Lemma trimEnd_idem (s : string) : Js.trimEnd (Js.trimEnd s) = Js.trimEnd s.
Proof.
  induction s as [|a s IH]; simpl; [reflexivity|].
  destruct (Js.trimEnd s) as [|b t] eqn:E.
  - destruct (Js.isWhiteSpace a) eqn:Ha; simpl; [reflexivity | now rewrite Ha].
  - change (Js.trimEnd (String a (String b t)))
      with (match Js.trimEnd (String b t) with
            | EmptyString => if Js.isWhiteSpace a then EmptyString else String a EmptyString
            | String c u => String a (String c u)
            end).
    now rewrite IH.
Qed.

Lemma trimEnd_all_blank (ws : string) :
  Js.allUnits Js.isWhiteSpace ws = true -> Js.trimEnd ws = "".
Proof.
  induction ws as [|b ws IH]; simpl; [reflexivity|].
  intros Hws. apply andb_true_iff in Hws as [Hb Hws]. now rewrite (IH Hws), Hb.
Qed.

Lemma trimEnd_blank (s ws : string) :
  Js.allUnits Js.isWhiteSpace ws = true -> Js.trimEnd (s +:+ ws) = Js.trimEnd s.
Proof.
  intros Hws. induction s as [|a s IH]; simpl.
  - now apply trimEnd_all_blank.
  - now rewrite IH.
Qed.

Lemma trimStart_head (s : string) :
  match Js.trimStart s with
  | String a _ => Js.isWhiteSpace a = false
  | EmptyString => True
  end.
Proof.
  induction s as [|a s IH]; simpl; [exact I|].
  destruct (Js.isWhiteSpace a) eqn:Ha; [exact IH | exact Ha].
Qed.

Lemma trimEnd_head (a : ascii) (s : string) :
  Js.isWhiteSpace a = false -> exists t, Js.trimEnd (String a s) = String a t.
Proof.
  intros Ha. simpl. destruct (Js.trimEnd s); [rewrite Ha|]; eauto.
Qed.

(** A trimmed string followed by blanks trims back to itself. *)
Lemma trim_append_blank (s ws : string) :
  Js.allUnits Js.isWhiteSpace ws = true ->
  Js.trim (Js.trim s +:+ ws) = Js.trim s.
Proof.
  intros Hws. unfold Js.trim.
  pose proof (trimStart_head s) as Hhead.
  destruct (Js.trimStart s) as [|a t] eqn:Et.
  - change (Js.trimEnd (Js.trimStart ws) = "").
    assert (H0 : Js.trimStart ws = "").
    { clear -Hws. induction ws as [|b ws IH]; simpl; [reflexivity|].
      simpl in Hws. apply andb_true_iff in Hws as [-> Hws]. auto. }
    now rewrite H0.
  - destruct (trimEnd_head a t Hhead) as [t' Ht']. rewrite Ht'.
    change (Js.trimStart (String a t' +:+ ws))
      with (if Js.isWhiteSpace a then Js.trimStart (t' +:+ ws)
            else String a t' +:+ ws).
    rewrite Hhead, trimEnd_blank by exact Hws. rewrite <- Ht'. apply trimEnd_idem.
Qed.

Lemma join_app (sep : string) (xs ys : list string) :
  xs <> [] -> ys <> [] ->
  Js.join sep (xs ++ ys) = Js.join sep xs +:+ sep +:+ Js.join sep ys.
Proof.
  intros Hxs Hys. induction xs as [|x xs IH]; [congruence|].
  destruct xs as [|x' xs].
  - simpl. destruct ys; [congruence | reflexivity].
  - change ((x :: x' :: xs) ++ ys) with (x :: ((x' :: xs) ++ ys)).
    rewrite join_cons by (simpl; discriminate).
    rewrite IH by discriminate.
    rewrite (join_cons sep x (x' :: xs)) by discriminate.
    now rewrite !append_assoc.
Qed.

Lemma splitOn_nonempty (sep : ascii) (s : string) : Js.splitOn sep s <> [].
Proof.
  induction s as [|a s IH]; simpl; [discriminate|].
  destruct (Ascii.eqb a sep); [discriminate|].
  destruct (Js.splitOn sep s); [congruence | discriminate].
Qed.

Lemma join_splitOn (sep : ascii) (s : string) :
  Js.join (String sep "") (Js.splitOn sep s) = s.
Proof.
  induction s as [|a s IH]; simpl; [reflexivity|].
  destruct (Ascii.eqb_spec a sep) as [->|Hne].
  - rewrite join_cons by apply splitOn_nonempty. now rewrite IH.
  - pose proof (splitOn_nonempty sep s) as Hne'.
    destruct (Js.splitOn sep s) as [|l ls]; [congruence|].
    destruct ls as [|l' ls].
    + simpl in *. now rewrite IH.
    + rewrite join_cons in IH by discriminate. rewrite join_cons by discriminate.
      now rewrite <- IH.
Qed.

(** The last line is empty only for the empty text and for a text that ends
    in a line feed. *)
Lemma last_splitOn_empty (sep : ascii) (s : string) :
  last (Js.splitOn sep s) = Some "" ->
  s = "" \/ exists s', s = s' +:+ String sep "".
Proof.
  induction s as [|a s IH]; simpl; [auto|].
  intros Hlast. right.
  pose proof (splitOn_nonempty sep s) as Hne.
  destruct (Ascii.eqb_spec a sep) as [->|Ha].
  - destruct (Js.splitOn sep s) as [|l ls] eqn:E; [congruence|].
    change (last (l :: ls) = Some "") in Hlast.
    destruct (IH Hlast) as [->|[s' ->]].
    + now exists "".
    + now exists (String sep s').
  - destruct (Js.splitOn sep s) as [|l ls] eqn:E; [congruence|].
    destruct ls as [|l' ls].
    + simpl in Hlast. discriminate.
    + change (last (l' :: ls) = Some "") in Hlast.
      assert (Hl : last (l :: l' :: ls) = Some "") by exact Hlast.
      destruct (IH Hl) as [->|[s' ->]].
      * simpl in E. discriminate.
      * now exists (String a s').
Qed.

End StringFacts.

(** ** Properties of the matcher *)

Section RegexFacts.
Context {R : Type}.
Implicit Types (s : string) (c : Regex.captures).
Implicit Types (k : string -> Regex.captures -> option R).

Lemma run_Seq r1 r2 s c k :
  Regex.run (Regex.Seq r1 r2) s c k =
  Regex.run r1 s c (fun s1 c1 => Regex.run r2 s1 c1 k).
Proof. reflexivity. Qed.

Lemma run_Cap n r s c k :
  Regex.run (Regex.Cap n r) s c k =
  Regex.run r s c (fun s' c' => k s' ((n, Regex.consumed s s') :: c')).
Proof. reflexivity. Qed.

Lemma run_Opt r s c k :
  Regex.run (Regex.Opt r) s c k =
  match Regex.run r s c (fun s' c' =>
          if String.length s' <? String.length s then k s' c' else None) with
  | Some x => Some x
  | None => k s c
  end.
Proof. reflexivity. Qed.

Lemma run_Star cls s c k :
  Regex.run (Regex.Star cls) s c k =
  Regex.greedyRun (Regex.member cls) (fun s' => k s' c) s.
Proof. reflexivity. Qed.

Lemma run_LazyStar cls s c k :
  Regex.run (Regex.LazyStar cls) s c k =
  Regex.lazyRun (Regex.member cls) (fun s' => k s' c) s.
Proof. reflexivity. Qed.

(** A greedy run of [.] over a line that ends in a full stop gives the
    full stop back when the continuation wants it. *)
Lemma greedyRun_last_stop (k : string -> option R) (line : string) (x : R) :
  Js.singleLine line = true ->
  k "" = None -> k "." = Some x ->
  Regex.greedyRun (Regex.member Regex.AnyChar) k (line +:+ ".") = Some x.
Proof.
  intros Hline Hend Hstop. induction line as [|a line IH].
  - simpl. now rewrite Hend.
  - apply andb_true_iff in Hline as [Ha Hline].
    simpl. rewrite Ha. simpl. now rewrite (IH Hline).
Qed.

(** A lazy run of [.] over [target] stops at its end when the continuation
    refuses every earlier stop and accepts that one. *)
Lemma lazyRun_target (k : string -> option R) (target rest : string) (x : R) :
  Js.singleLine target = true ->
  refusedBefore k target rest ->
  k rest = Some x ->
  Regex.lazyRun (Regex.member Regex.AnyChar) k (target +:+ rest) = Some x.
Proof.
  intros Hline Hrefused Hstop. induction target as [|a target IH].
  - destruct rest; simpl; now rewrite Hstop.
  - apply andb_true_iff in Hline as [Ha Hline]. destruct Hrefused as [Hnone Hrefused].
    simpl. rewrite Hnone. rewrite Ha. simpl. now apply IH.
Qed.

End RegexFacts.

(** A match at the very start of the input is the one [exec] returns. *)
Lemma execFrom_here (r : Regex.regex) (i : nat) (s s' : string) (c : Regex.captures) :
  Regex.run r s [] (fun s' c => Some (s', c)) = Some (s', c) ->
  Regex.execFrom r i s = Some (Regex.Result i (Regex.consumed s s') s' c).
Proof. intros Hrun. destruct s; simpl; now rewrite Hrun. Qed.

Lemma execFrom_skip (r : Regex.regex) (pre s : string) (i : nat) :
  (forall pre1 pre2, pre = pre1 +:+ pre2 -> pre2 <> "" -> attempt r (pre2 +:+ s) = None) ->
  Regex.execFrom r i (pre +:+ s) = Regex.execFrom r (i + String.length pre) s.
Proof.
  revert i. induction pre as [|a pre IH]; intros i Hnone.
  - simpl. now rewrite Nat.add_0_r.
  - change (String a pre +:+ s) with (String a (pre +:+ s)).
    cbn [Regex.execFrom].
    pose proof (Hnone "" (String a pre) eq_refl ltac:(discriminate)) as Hhere.
    unfold attempt in Hhere. change (String a pre +:+ s) with (String a (pre +:+ s)) in Hhere.
    rewrite Hhere. rewrite IH.
    + simpl. f_equal. lia.
    + intros pre1 pre2 -> Hne. apply (Hnone (String a pre1) pre2); [reflexivity | exact Hne].
Qed.

Lemma execFrom_None (r : Regex.regex) (i : nat) (s : string) :
  Regex.execFrom r i s = None ->
  forall pre post, s = pre +:+ post -> attempt r post = None.
Proof.
  revert i. induction s as [|a s IH]; intros i Hexec pre post Heq.
  - destruct pre; [|discriminate]. change ("" +:+ post) with post in Heq. subst post.
    simpl in Hexec. unfold attempt. destruct (Regex.run _ _ _ _) as [[? ?]|]; [discriminate|reflexivity].
  - cbn [Regex.execFrom] in Hexec.
    destruct (Regex.run r (String a s) [] _) as [[? ?]|] eqn:Hrun; [discriminate|].
    destruct pre as [|b pre].
    + change ("" +:+ post) with post in Heq. subst post. exact Hrun.
    + change (String b pre +:+ post) with (String b (pre +:+ post)) in Heq.
      injection Heq as -> ->. eapply IH; [exact Hexec | reflexivity].
Qed.

Lemma execFrom_first (r : Regex.regex) (i : nat) (s : string) (m : Regex.result) :
  Regex.execFrom r i s = Some m ->
  exists pre post,
    s = pre +:+ post /\
    Regex.index m = i + String.length pre /\
    attempt r post = Some (Regex.rest m, Regex.groups m) /\
    forall pre1 pre2,
      pre = pre1 +:+ pre2 -> pre2 <> "" -> attempt r (pre2 +:+ post) = None.
Proof.
  revert i. induction s as [|a s IH]; intros i Hexec.
  - simpl in Hexec.
    destruct (Regex.run r "" [] _) as [[s' c]|] eqn:Hrun; [|discriminate].
    injection Hexec as <-. exists "", "". repeat split; [simpl; lia | exact Hrun|].
    intros [|x pre1] pre2 Heq Hne; [|discriminate].
    change ("" +:+ pre2) with pre2 in Heq. congruence.
  - cbn [Regex.execFrom] in Hexec.
    destruct (Regex.run r (String a s) [] _) as [[s' c]|] eqn:Hrun.
    + injection Hexec as <-. exists "", (String a s).
      repeat split; [simpl; lia | exact Hrun|].
      intros [|x pre1] pre2 Heq Hne; [|discriminate].
      change ("" +:+ pre2) with pre2 in Heq. congruence.
    + destruct (IH _ Hexec) as (pre & post & -> & Hindex & Hpost & Hfirst).
      exists (String a pre), post. repeat split; [simpl; lia | exact Hpost|].
      intros [|x pre1] pre2 Heq Hne.
      * change ("" +:+ pre2) with pre2 in Heq. subst pre2. exact Hrun.
      * change (String x pre1 +:+ pre2) with (String x (pre1 +:+ pre2)) in Heq.
        injection Heq as _ Heq. now apply Hfirst with pre1.
Qed.

Lemma ltb_succ (n : nat) : (n <? S n) = true.
Proof. apply Nat.ltb_lt. lia. Qed.

Lemma run_newlineRegex {R} (s : string) (c : Regex.captures)
    (k : string -> Regex.captures -> option R) :
  Regex.run newlineRegex s c k =
  match lineEnd s with
  | Some s' => k s' c
  | None => None
  end.
Proof.
  unfold newlineRegex, lineEnd. cbn [Regex.run].
  destruct (Js.stripPrefix Js.CR s) as [s1|] eqn:E; [|reflexivity].
  apply stripPrefix_Some in E. subst s.
  change (String.length (Js.CR +:+ s1)) with (S (String.length s1)).
  rewrite ltb_succ.
  destruct (Js.stripPrefix Js.LF s1) as [s2|]; [|reflexivity].
  now destruct (k s2 c).
Qed.

Lemma attempt_markerEnd (s : string) :
  attempt annotatedDescriptionRegex s = None <-> markerEnd s = None.
Proof.
  unfold attempt, annotatedDescriptionRegex, markerEnd, afterColon.
  rewrite run_Seq, run_Cap. cbn [Regex.run].
  destruct (Js.stripPrefix "Demos" s) as [s1|];
    destruct (Js.stripPrefix "API" s) as [s1'|].
  all: repeat match goal with
       | |- context [Js.stripPrefix ":" ?u] => destruct (Js.stripPrefix ":" u)
       | |- context [Regex.run newlineRegex _ _ _] => rewrite run_newlineRegex
       | |- context [lineEnd ?u] => destruct (lineEnd u)
       end.
  all: split; intros; try discriminate; try reflexivity.
Qed.

Lemma stripPrefix_cons (a b : ascii) (p s : string) :
  Js.stripPrefix (String a p) (String b s) =
  if Ascii.eqb a b then Js.stripPrefix p s else None.
Proof. reflexivity. Qed.

Lemma stripPrefix_nil (s : string) : Js.stripPrefix "" s = Some s.
Proof. now destruct s. Qed.

Lemma stripPrefix_cons_nil (a : ascii) (p : string) : Js.stripPrefix (String a p) "" = None.
Proof. reflexivity. Qed.

(** A word without line feed is looked for in [y] alone when a line feed
    follows [y]. *)
Lemma stripPrefix_through (w y t : string) :
  Js.allUnits (fun a => negb (Ascii.eqb a "010")) w = true ->
  Js.stripPrefix w (y +:+ Js.LF +:+ t) =
  match Js.stripPrefix w y with
  | Some y' => Some (y' +:+ Js.LF +:+ t)
  | None => None
  end.
Proof.
  revert y. induction w as [|a w IH]; intros y Hw.
  - now rewrite !stripPrefix_nil.
  - simpl in Hw. apply andb_true_iff in Hw as [Ha Hw].
    destruct y as [|b y].
    + change ("" +:+ Js.LF +:+ t) with (String "010" t).
      rewrite stripPrefix_cons, stripPrefix_cons_nil.
      apply negb_true_iff in Ha. now rewrite Ha.
    + change (String b y +:+ Js.LF +:+ t) with (String b (y +:+ Js.LF +:+ t)).
      rewrite !stripPrefix_cons. destruct (Ascii.eqb a b); [now apply IH | reflexivity].
Qed.

Ltac split_string z :=
  destruct z as [|? z];
  [ change ("" +:+ ?t) with t in *
  | change (String ?a z +:+ ?t) with (String a (z +:+ t)) in * ].

Ltac compute_prefixes :=
  repeat (change ("" +:+ ?t) with t in * ||
          change (String ?a ?y +:+ ?t) with (String a (y +:+ t)) in * );
  repeat (progress (rewrite ?stripPrefix_cons, ?stripPrefix_nil, ?stripPrefix_cons_nil in *;
                    cbv beta iota in * )).

Ltac decide_unit :=
  match goal with
  | H : Some _ = None |- _ => discriminate H
  | |- None = None => reflexivity
  | H : context [if Ascii.eqb ?a ?b then _ else _] |- _ =>
      destruct (Ascii.eqb_spec a b); [subst; try discriminate | try congruence]
  | |- context [if Ascii.eqb ?a ?b then _ else _] =>
      destruct (Ascii.eqb_spec a b); [subst; try discriminate | try congruence]
  end.

Lemma twoLineEnds_extend (z tail : string) :
  twoLineEnds (z +:+ Js.LF +:+ Js.LF) = None ->
  twoLineEnds (z +:+ Js.LF +:+ Js.LF +:+ tail) = None.
Proof.
  unfold twoLineEnds, lineEnd, Js.LF, Js.CR. intros Hshort.
  split_string z; compute_prefixes; repeat (decide_unit; compute_prefixes).
  all: try (split_string z; compute_prefixes; repeat (decide_unit; compute_prefixes)).
  all: try (split_string z; compute_prefixes; repeat (decide_unit; compute_prefixes)).
  all: try (split_string z; compute_prefixes; repeat (decide_unit; compute_prefixes)).
  all: try (split_string z; compute_prefixes; repeat (decide_unit; compute_prefixes)).
Qed.

Lemma markerEnd_extend (y tail : string) :
  markerEnd (y +:+ Js.LF +:+ Js.LF) = None ->
  markerEnd (y +:+ Js.LF +:+ Js.LF +:+ tail) = None.
Proof.
  assert (Hcolon : forall z,
             afterColon (z +:+ Js.LF +:+ Js.LF) = None ->
             afterColon (z +:+ Js.LF +:+ Js.LF +:+ tail) = None).
  { intros z. unfold afterColon. rewrite !stripPrefix_through by reflexivity.
    destruct (Js.stripPrefix ":" z) as [z'|]; [|reflexivity].
    apply twoLineEnds_extend. }
  unfold markerEnd. rewrite !stripPrefix_through by reflexivity.
  destruct (Js.stripPrefix "Demos" y) as [y1|], (Js.stripPrefix "API" y) as [y2|].
  - destruct (afterColon (y1 +:+ Js.LF +:+ Js.LF)) eqn:E1; [discriminate|].
    intros E2. now rewrite (Hcolon _ E1), (Hcolon _ E2).
  - destruct (afterColon (y1 +:+ Js.LF +:+ Js.LF)) eqn:E1; [discriminate|].
    intros _. now rewrite (Hcolon _ E1).
  - intros E2. now rewrite (Hcolon _ E2).
  - reflexivity.
Qed.

(** Where two strings split in two ways overlap. *)
Lemma append_eq_append (a b c d : string) :
  a +:+ b = c +:+ d ->
  (exists l, c = a +:+ l /\ b = l +:+ d) \/ (exists l, a = c +:+ l /\ d = l +:+ b).
Proof.
  revert c. induction a as [|x a IH]; intros c Heq.
  - left. exists c. auto.
  - destruct c as [|y c].
    + right. exists (String x a). auto.
    + change (String x (a +:+ b) = String y (c +:+ d)) in Heq.
      injection Heq as -> Heq. destruct (IH _ Heq) as [(l & -> & ->)|(l & -> & ->)].
      * left. now exists l.
      * right. now exists l.
Qed.

(** The marker is found right after the description and the blank lines
    that follow it. *)
Lemma exec_annotated (body blank tail : string) :
  blank = Js.LF +:+ Js.LF \/ (body = "" /\ blank = Js.LF) ->
  Regex.exec annotatedDescriptionRegex (body +:+ Js.LF +:+ Js.LF) = None ->
  exists m,
    Regex.exec annotatedDescriptionRegex
      ((body +:+ blank) +:+ "Demos:" +:+ Js.LF +:+ Js.LF +:+ tail) = Some m /\
    Regex.index m = String.length (body +:+ blank).
Proof.
  intros Hblank Hnone. unfold Regex.exec.
  rewrite execFrom_skip.
  - eexists. split.
    + apply execFrom_here. reflexivity.
    + reflexivity.
  - intros pre1 pre2 Hsplit Hne.
    apply attempt_markerEnd.
    destruct Hblank as [->|[-> ->]].
    + symmetry in Hsplit.
      apply append_eq_append in Hsplit as [(l & Hl & ->)|(l & -> & Hl)].
      * rewrite !append_assoc. apply markerEnd_extend.
        apply attempt_markerEnd.
        apply (execFrom_None _ _ _ Hnone pre1). rewrite Hl. now rewrite !append_assoc.
      * destruct l as [|x [|x' l]].
        -- change ("" +:+ pre2) with pre2 in Hl. subst pre2.
           change (markerEnd ("" +:+ Js.LF +:+ Js.LF +:+ "Demos:" +:+ Js.LF +:+ Js.LF +:+ tail) = None).
           apply markerEnd_extend. apply attempt_markerEnd.
           apply (execFrom_None _ _ _ Hnone body). reflexivity.
        -- change (String x "" +:+ pre2) with (String x pre2) in Hl.
           injection Hl as <- <-. reflexivity.
        -- change (String x (String x' l) +:+ pre2)
             with (String x (String x' (l +:+ pre2))) in Hl.
           injection Hl as _ _ Hl. destruct l; [|discriminate].
           change ("" +:+ pre2) with pre2 in Hl. congruence.
    + destruct pre1 as [|x pre1].
      * change ("" +:+ pre2) with pre2 in Hsplit. subst pre2. reflexivity.
      * change (String x pre1 +:+ pre2) with (String x (pre1 +:+ pre2)) in Hsplit.
        injection Hsplit as _ Hsplit. destruct pre1; [|discriminate].
        change ("" +:+ pre2) with pre2 in Hsplit. congruence.
Qed.


Lemma trim_not_ending_blank (x s' : string) (a : ascii) :
  Js.isWhiteSpace a = true -> Js.trim x <> s' +:+ String a "".
Proof.
  intros Ha Heq.
  assert (Hidem : Js.trimEnd (Js.trim x) = Js.trim x) by apply trimEnd_idem.
  rewrite Heq in Hidem. rewrite trimEnd_blank in Hidem by (simpl; now rewrite Ha).
  pose proof (trimEnd_length s') as Hlen. rewrite Hidem, length_append in Hlen.
  simpl in Hlen. lia.
Qed.

#[local] Arguments Regex.greedyRun : simpl never.
#[local] Arguments Regex.lazyRun : simpl never.
#[local] Arguments Regex.consumed : simpl never.

(** ** Properties of objects *)

Section ObjFacts.
Context {V : Type}.

Lemma In_update (k : string) (v : V) (o : Obj.t V) (kv : string * V) :
  In kv (Obj.update k v o) -> kv = (k, v) \/ In kv o.
Proof.
  induction o as [|[k' v'] o IH]; simpl; [tauto|].
  destruct (String.eqb_spec k' k) as [->|Hne]; simpl.
  - intros [<-|Hin]; auto.
  - intros [<-|Hin]; auto. destruct (IH Hin); auto.
Qed.

Lemma In_insertIndex (n : N) (k : string) (v : V) (o : Obj.t V) (kv : string * V) :
  In kv (Obj.insertIndex n k v o) -> kv = (k, v) \/ In kv o.
Proof.
  induction o as [|[k' v'] o IH]; simpl.
  - intros [<-|[]]; auto.
  - destruct (Obj.arrayIndex k') as [n'|]; [destruct (n' <? n)%N|]; simpl.
    + intros [<-|Hin]; auto. destruct (IH Hin); auto.
    + intros [<-|Hin]; auto.
    + intros [<-|Hin]; auto.
Qed.

Lemma In_set (k : string) (v : V) (o : Obj.t V) (kv : string * V) :
  In kv (Obj.set k v o) -> kv = (k, v) \/ In kv o.
Proof.
  unfold Obj.set. destruct (Obj.has k o).
  - apply In_update.
  - destruct (Obj.arrayIndex k).
    + apply In_insertIndex.
    + intros Hin. apply in_app_or in Hin as [Hin|[<-|[]]]; auto.
Qed.

Lemma In_fold_set (pairs : list (string * V)) (o : Obj.t V) (kv : string * V) :
  In kv (fold_left (fun o kv => Obj.set (fst kv) (snd kv) o) pairs o) ->
  In kv o \/ In kv pairs.
Proof.
  revert o. induction pairs as [|[k v] pairs IH]; intros o; simpl; [tauto|].
  intros Hin. destruct (IH _ Hin) as [Hset|Hrest]; [|tauto].
  apply In_set in Hset as [->|Ho]; auto.
Qed.

(** Every property of [_.fromPairs(pairs)] is one of the pairs. *)
Lemma In_fromPairs (pairs : list (string * V)) (kv : string * V) :
  In kv (Obj.fromPairs pairs) -> In kv pairs.
Proof.
  intros Hin. apply In_fold_set in Hin as [[]|Hin]. exact Hin.
Qed.

Lemma In_delete (k : string) (o : Obj.t V) (kv : string * V) :
  In kv (Obj.delete k o) -> In kv o /\ fst kv <> k.
Proof.
  unfold Obj.delete. rewrite filter_In. intros [Hin Hk]. split; [exact Hin|].
  intros Heq. rewrite Heq, String.eqb_refl in Hk. discriminate.
Qed.

Lemma In_defined (o : Obj.t (option V)) (k : string) (v : V) :
  In (k, v) (defined o) -> In (k, Some v) o.
Proof.
  unfold defined. induction o as [|[k' [v'|]] o IH]; simpl; [tauto| |auto].
  intros [[= -> ->]|Hin]; auto.
Qed.

Lemma get_update_eq (k : string) (v : V) (o : Obj.t V) :
  Obj.has k o = true -> Obj.get k (Obj.update k v o) = Some v.
Proof.
  unfold Obj.has. induction o as [|[k' v'] o IH]; simpl; [discriminate|].
  destruct (String.eqb_spec k' k) as [->|Hne]; simpl.
  - now rewrite String.eqb_refl.
  - intros Hhas. destruct (String.eqb_spec k' k); [contradiction | auto].
Qed.

Lemma get_update_ne (k k' : string) (v : V) (o : Obj.t V) :
  k' <> k -> Obj.get k' (Obj.update k v o) = Obj.get k' o.
Proof.
  intros Hne. induction o as [|[k1 v1] o IH]; simpl; [reflexivity|].
  destruct (String.eqb_spec k1 k) as [->|Hk]; simpl.
  - destruct (String.eqb_spec k k'); [congruence | reflexivity].
  - now rewrite IH.
Qed.

Lemma get_insertIndex_eq (n : N) (k : string) (v : V) (o : Obj.t V) :
  Obj.has k o = false -> Obj.get k (Obj.insertIndex n k v o) = Some v.
Proof.
  unfold Obj.has. induction o as [|[k' v'] o IH]; simpl.
  - now rewrite String.eqb_refl.
  - destruct (String.eqb_spec k' k) as [->|Hne]; [discriminate|]. intros Hhas.
    destruct (Obj.arrayIndex k') as [n'|]; [destruct (n' <? n)%N|]; simpl.
    + destruct (String.eqb_spec k' k); [contradiction | auto].
    + now rewrite String.eqb_refl.
    + now rewrite String.eqb_refl.
Qed.

Lemma get_insertIndex_ne (n : N) (k k' : string) (v : V) (o : Obj.t V) :
  k' <> k -> Obj.get k' (Obj.insertIndex n k v o) = Obj.get k' o.
Proof.
  intros Hne. induction o as [|[k1 v1] o IH]; simpl.
  - destruct (String.eqb_spec k k'); [congruence | reflexivity].
  - destruct (Obj.arrayIndex k1) as [n1|]; [destruct (n1 <? n)%N|]; simpl.
    + now rewrite IH.
    + destruct (String.eqb_spec k k'); [congruence | reflexivity].
    + destruct (String.eqb_spec k k'); [congruence | reflexivity].
Qed.

Lemma get_append (k k' : string) (v : V) (o : Obj.t V) :
  Obj.get k' (o ++ [(k, v)]) =
  match Obj.get k' o with
  | Some x => Some x
  | None => if String.eqb k k' then Some v else None
  end.
Proof.
  induction o as [|[k1 v1] o IH]; simpl; [reflexivity|].
  destruct (String.eqb k1 k'); [reflexivity | exact IH].
Qed.

(** Reading a key after it is assigned gives the value assigned. *)
Lemma get_set_eq (k : string) (v : V) (o : Obj.t V) :
  Obj.get k (Obj.set k v o) = Some v.
Proof.
  unfold Obj.set. destruct (Obj.has k o) eqn:Hhas.
  - now apply get_update_eq.
  - destruct (Obj.arrayIndex k).
    + now apply get_insertIndex_eq.
    + rewrite get_append. unfold Obj.has in Hhas.
      destruct (Obj.get k o); [discriminate|]. now rewrite String.eqb_refl.
Qed.

(** Assigning a key leaves the other keys as they are. *)
Lemma get_set_ne (k k' : string) (v : V) (o : Obj.t V) :
  k' <> k -> Obj.get k' (Obj.set k v o) = Obj.get k' o.
Proof.
  intros Hne. unfold Obj.set. destruct (Obj.has k o).
  - now apply get_update_ne.
  - destruct (Obj.arrayIndex k).
    + now apply get_insertIndex_ne.
    + rewrite get_append. destruct (Obj.get k' o); [reflexivity|].
      destruct (String.eqb_spec k k'); [congruence | reflexivity].
Qed.

End ObjFacts.

(** ** Properties of the module *)

Section Properties.
Context `{Imports}.

Lemma indexOfFrom_spec (i : Z) (x : string) (xs : list string) :
  (0 <= i)%Z ->
  (In x xs -> (0 <= indexOfFrom i x xs)%Z) /\
  (~ In x xs -> indexOfFrom i x xs = (-1)%Z).
Proof.
  revert i. induction xs as [|y ys IH]; intros i Hi; simpl.
  - split; [tauto | reflexivity].
  - destruct (String.eqb_spec y x) as [->|Hne].
    + split; [intros _; exact Hi | tauto].
    + destruct (IH (i + 1)%Z ltac:(lia)) as [IH1 IH2]. split.
      * intros [Heq|Hin]; [congruence | auto].
      * intros Hnot. apply IH2. tauto.
Qed.

(** C10. The [cssComponent] field of the page content is [true] when the
    component's name is one of Box, Grid, Typography and Stack, and [false]
    for every other name. *)
Theorem cssComponent_iff (reactApi : ReactApi.t) :
  let name := ReactApi.name reactApi in
  let listed := name = "Box" \/ name = "Grid" \/ name = "Typography" \/ name = "Stack" in
  (PageContent.cssComponent (pageContent reactApi) = true <-> listed) /\
  (PageContent.cssComponent (pageContent reactApi) = false <-> ~ listed).
Proof.
  intros name listed. simpl. fold name.
  assert (Hlisted : listed <-> In name cssComponents).
  { unfold listed, cssComponents. simpl. intuition congruence. }
  destruct (indexOfFrom_spec 0 name cssComponents ltac:(lia)) as [Hin Hout].
  unfold indexOf. rewrite Hlisted.
  destruct (in_dec string_dec name cssComponents) as [Hyes|Hno].
  - specialize (Hin Hyes). split; split; try tauto.
    + intros _. apply Z.leb_le. exact Hin.
    + intros Hf. apply Z.leb_gt in Hf. lia.
  - rewrite (Hout Hno). change (0 <=? -1)%Z with false.
    split; split; intros; try tauto; try discriminate; reflexivity.
Qed.

(** The required flag as the module derives it: the explicit flag, or the
    text [.isRequired] somewhere in the raw type, or a chained type that is
    required. *)
Lemma requiredProp_cases (prop : Describeable.t) :
  requiredProp prop = true <->
  Describeable.required prop = true \/
  occursIn ".isRequired" (default "undefined" (PropType.raw (Describeable.type prop))) \/
  (exists chained,
      getChained (Describeable.type prop) = Some chained /\
      Chained.required chained = true).
Proof.
  unfold requiredProp, testOptional, isRequiredRegex.
  rewrite !orb_true_iff, test_Lit.
  split.
  - intros [[Hr|Hraw]|Hch]; auto.
    destruct (getChained (Describeable.type prop)) as [chained|]; [|discriminate].
    right; right. eauto.
  - intros [Hr|[Hraw|(chained & -> & Hch)]]; auto.
Qed.

(** C4, as amended. The [required] field of a table entry is [true] or
    left out. It is [true] exactly when the descriptor's own flag is set,
    or the raw type signature contains the text [.isRequired] (anywhere, not
    only at its end; a missing signature is read as the text [undefined]),
    or [getChained] returned a type marked required. In particular a chained
    type marked required always yields [true]. *)
Theorem required_flag_rules (reactApi : ReactApi.t) (propName : string)
    (propDescriptor : PropDescriptor.t) (prop : Describeable.t) :
  let flag := Entry.required (propsTableEntry reactApi propName propDescriptor prop) in
  let raw := default "undefined" (PropType.raw (Describeable.type prop)) in
  let chainedRequired :=
    exists chained,
      getChained (Describeable.type prop) = Some chained /\
      Chained.required chained = true in
  (flag = Some true <->
     Describeable.required prop = true \/ occursIn ".isRequired" raw \/ chainedRequired) /\
  (flag = None <->
     ~ (Describeable.required prop = true \/ occursIn ".isRequired" raw \/ chainedRequired)).
Proof.
  intros flag raw chainedRequired.
  pose proof (requiredProp_cases prop) as Hcases. fold raw chainedRequired in Hcases.
  assert (Hflag : flag = trueOrUndefined (requiredProp prop)) by reflexivity.
  rewrite Hflag. unfold trueOrUndefined.
  destruct (requiredProp prop).
  - split; split; intros; try tauto; try discriminate; reflexivity.
  - assert (Hnot : ~ (Describeable.required prop = true \/
                      occursIn ".isRequired" raw \/ chainedRequired)).
    { intros Hyes. apply Hcases in Hyes. discriminate. }
    split; split; intros; try tauto; try discriminate; reflexivity.
Qed.

(** The description of the type in a table entry is left out when the
    rendered type is the type's name, and is the rendered type otherwise. *)
Lemma propsTableEntry_type_description (reactApi : ReactApi.t) (propName : string)
    (propDescriptor : PropDescriptor.t) (prop : Describeable.t) :
  let rendered := generatePropTypeDescription (PropDescriptor.type propDescriptor) in
  let name := PropType.name (PropDescriptor.type propDescriptor) in
  let description :=
    TableType.description
      (Entry.type (propsTableEntry reactApi propName propDescriptor prop)) in
  (description = None <-> rendered = name) /\
  (rendered <> name -> description = Some rendered).
Proof.
  intros rendered name description.
  assert (Hd : description =
               if negb (String.eqb rendered name) then Some rendered else None)
    by reflexivity.
  rewrite Hd. destruct (String.eqb_spec rendered name) as [Heq|Hne]; simpl.
  - split; [tauto | congruence].
  - split; [split; [discriminate | congruence] | reflexivity].
Qed.

(** Where the entries of the attached table come from. *)
Lemma attachPropsTable_entries (reactApi reactApi' : ReactApi.t) (propName : string)
    (entry : Entry.t) :
  attachPropsTable reactApi = Return reactApi' ->
  In (propName, entry) (ReactApi.propsTable reactApi') ->
  exists propDescriptor prop,
    In (propName, propDescriptor) (ReactApi.props reactApi) /\
    createDescribeableProp propDescriptor propName = Return (Some prop) /\
    entry = propsTableEntry reactApi propName propDescriptor prop.
Proof.
  unfold attachPropsTable.
  destruct (0 <? length _); [discriminate|].
  intros [= <-]. simpl. intros Hin.
  apply In_defined, In_delete in Hin as [Hin _].
  apply In_fromPairs, in_map_iff in Hin as (described & Hpair & Hin).
  apply in_map_iff in Hin as ([name propDescriptor] & <- & Hin).
  unfold describeProp in Hpair.
  destruct (createDescribeableProp propDescriptor name) as [[prop|]|error] eqn:E;
    simpl in Hpair; try discriminate.
  injection Hpair as -> <-. eauto.
Qed.

(** C6. For every prop of the attached props table, the description of its
    type is left out exactly when the rendered type description is the raw
    type name, and is the rendered description otherwise. *)
Theorem type_description_omitted_iff_alias (reactApi reactApi' : ReactApi.t)
    (propName : string) (entry : Entry.t) :
  attachPropsTable reactApi = Return reactApi' ->
  In (propName, entry) (ReactApi.propsTable reactApi') ->
  exists propDescriptor,
    In (propName, propDescriptor) (ReactApi.props reactApi) /\
    let rendered := generatePropTypeDescription (PropDescriptor.type propDescriptor) in
    let name := PropType.name (PropDescriptor.type propDescriptor) in
    TableType.name (Entry.type entry) = Some name /\
    (TableType.description (Entry.type entry) = None <-> rendered = name) /\
    (rendered <> name -> TableType.description (Entry.type entry) = Some rendered).
Proof.
  intros Hattach Hin.
  destruct (attachPropsTable_entries _ _ _ _ Hattach Hin)
    as (propDescriptor & prop & Hprop & _ & ->).
  exists propDescriptor. split; [exact Hprop|].
  split; [reflexivity|].
  apply propsTableEntry_type_description.
Qed.

Lemma propErrors_failingProps (reactApi : ReactApi.t) :
  omap snd (map (describeProp reactApi) (Obj.entries (ReactApi.props reactApi))) =
  map (fun pe => (propLabel reactApi (fst pe), snd pe)) (failingProps reactApi).
Proof.
  unfold failingProps, Obj.entries.
  induction (ReactApi.props reactApi) as [|[propName propDescriptor] props IH];
    [reflexivity|].
  cbn [map omap list_omap fst snd]. rewrite IH.
  unfold describeProp.
  destruct (createDescribeableProp propDescriptor propName) as [[prop|]|error];
    reflexivity.
Qed.

Lemma In_failingProps (reactApi : ReactApi.t) (propName : string) (error : Error) :
  In (propName, error) (failingProps reactApi) <->
  exists propDescriptor,
    In (propName, propDescriptor) (ReactApi.props reactApi) /\
    createDescribeableProp propDescriptor propName = Throw error.
Proof.
  unfold failingProps. rewrite <- list_elem_of_In, list_elem_of_omap. split.
  - intros ([name propDescriptor] & Hin & Hsome). simpl in Hsome.
    destruct (createDescribeableProp propDescriptor name) eqn:E; [discriminate|].
    injection Hsome as -> ->. exists propDescriptor.
    split; [now apply list_elem_of_In | exact E].
  - intros (propDescriptor & Hin & E). exists (propName, propDescriptor).
    split; [now apply list_elem_of_In|]. simpl. now rewrite E.
Qed.

(** Every error of the list is named in the message. *)
Lemma propErrorsMessage_names (propErrors : list (string * Error)) (label : string)
    (error : Error) :
  In (label, error) propErrors -> occursIn label (propErrorsMessage propErrors).
Proof.
  intros Hin. unfold propErrorsMessage.
  apply occursIn_append_r, occursIn_append_r.
  apply occursIn_trans with ("  - " +:+ label +:+ ": " +:+ errorToString error).
  - apply occursIn_append_r, occursIn_append_l, occursIn_refl.
  - apply occursIn_join, in_map_iff. exists (label, error). split; [reflexivity | exact Hin].
Qed.

(** C2. When [createDescribeableProp] throws for a prop of the component,
    [attachPropsTable] throws one error, whose message lists every failing
    prop of the component (so every prop was processed) and names each with
    the component's name; no props table is attached. When it throws for
    no prop, [attachPropsTable] returns with a props table attached. *)
Theorem attachPropsTable_aggregates_errors (reactApi : ReactApi.t) :
  let propErrors :=
    map (fun pe => (propLabel reactApi (fst pe), snd pe)) (failingProps reactApi) in
  (forall propName propDescriptor error,
      In (propName, propDescriptor) (ReactApi.props reactApi) ->
      createDescribeableProp propDescriptor propName = Throw error ->
      attachPropsTable reactApi = Throw (mkError "Error" (propErrorsMessage propErrors)) /\
      occursIn (propLabel reactApi propName) (propErrorsMessage propErrors)) /\
  ((forall propName propDescriptor,
      In (propName, propDescriptor) (ReactApi.props reactApi) ->
      exists prop, createDescribeableProp propDescriptor propName = Return prop) ->
   exists table,
     attachPropsTable reactApi = Return (ReactApi.setPropsTable reactApi table)).
Proof.
  intros propErrors. split.
  - intros propName propDescriptor error Hin Hthrow.
    assert (Hfail : In (propName, error) (failingProps reactApi)).
    { apply In_failingProps. eauto. }
    assert (Herr : In (propLabel reactApi propName, error) propErrors).
    { apply in_map_iff. exists (propName, error). auto. }
    split.
    + unfold attachPropsTable. rewrite propErrors_failingProps. fold propErrors.
      destruct propErrors; [destruct Herr | reflexivity].
    + eapply propErrorsMessage_names, Herr.
  - intros Hok.
    assert (Hnone : failingProps reactApi = []).
    { destruct (failingProps reactApi) as [|[propName error] rest] eqn:E; [reflexivity|].
      assert (Hin : In (propName, error) (failingProps reactApi))
        by (rewrite E; left; reflexivity).
      apply In_failingProps in Hin as (propDescriptor & Hin & Hthrow).
      destruct (Hok _ _ Hin) as [prop Hret]. congruence. }
    unfold attachPropsTable. rewrite propErrors_failingProps, Hnone. simpl.
    eauto.
Qed.

Lemma occursIn_missingDemosError (name : string) :
  occursIn ("`components: " +:+ name +:+ "`") (message (missingDemosError name)).
Proof.
  unfold missingDemosError. simpl.
  exists ("Unable to find demos. " +:+ Js.LF +:+ "Be sure to include "),
         (" in the markdown pages where the `" +:+ name +:+
          "` component is relevant. " +:+ "Every public component should have a demo. ").
  rewrite !append_assoc. reflexivity.
Qed.

(** C5, as amended. A component that is skipped yields [null], and what the
    parser throws is thrown, whatever the demos. Once the component is read
    and parsed, an empty list of demos makes [generateComponentApi] throw
    an error whose message names the component, with the file system as it
    was: nothing has been written. With at least one demo the run goes on
    and fails only as the later steps fail: what [parseTest] or
    [attachPropsTable] throws is thrown with the file system as it was,
    what the step that emits the artifacts throws is thrown with the file
    system that step left, and when that step succeeds the API is
    returned. *)
Theorem missing_demos_fail_the_build (componentInfo : ComponentInfo.t)
    (project : TypeScriptProject) (projectSettings : ProjectSettings.t)
    (fs : FileSystem) :
  let file := ComponentInfo.readFile componentInfo in
  let filename := ComponentInfo.filename componentInfo in
  let name := ComponentInfo.name componentInfo in
  let run := generateComponentApi componentInfo project projectSettings fs in
  (ReadFile.shouldSkip file = true -> run = (fs, Return None)) /\
  (ReadFile.shouldSkip file = false ->
   (forall error,
       parseComponent componentInfo (ReadFile.src file) filename = Throw error ->
       run = (fs, Throw error)) /\
   (forall docgen,
       parseComponent componentInfo (ReadFile.src file) filename = Return docgen ->
       (ComponentInfo.getDemos componentInfo = [] ->
        run = (fs, Throw (missingDemosError name)) /\
        occursIn ("`components: " +:+ name +:+ "`") (message (missingDemosError name))) /\
       (ComponentInfo.getDemos componentInfo <> [] ->
        (forall error, parseTest filename = Throw error -> run = (fs, Throw error)) /\
        (forall testInfo,
            parseTest filename = Return testInfo ->
            let described :=
              attachPropsTable (assembleReactApi componentInfo project docgen testInfo) in
            (forall error, described = Throw error -> run = (fs, Throw error)) /\
            (forall reactApi,
                described = Return reactApi ->
                let emit :=
                  emitArtifacts componentInfo projectSettings
                    (attachTranslations reactApi) fs in
                (forall fs' error,
                    emit = (fs', Throw error) -> run = (fs', Throw error)) /\
                (forall fs',
                    emit = (fs', Return tt) ->
                    run = (fs', Return (Some (attachTranslations reactApi))))))))).
Proof.
  intros file filename name run. subst run.
  unfold generateComponentApi. fold file filename name.
  split; [intros ->; reflexivity|].
  intros ->. unfold mbind, io_bind, ioBind, ioLift. split.
  - intros error ->. reflexivity.
  - intros docgen ->. split.
    + intros ->. simpl. split; [reflexivity | apply occursIn_missingDemosError].
    + intros Hdemos.
      destruct (ComponentInfo.getDemos componentInfo) as [|demo demos]; [congruence|].
      cbn [length Nat.eqb]. split.
      * intros error ->. reflexivity.
      * intros testInfo ->. cbv zeta. split.
        -- intros error ->. reflexivity.
        -- intros reactApi ->. split.
           ++ intros fs' error ->. reflexivity.
           ++ intros fs' ->. reflexivity.
Qed.

Lemma callsCreate_isCreateCall (name : string) (expression : Ast.Expression) :
  callsCreate name expression = true <-> isCreateCall name expression.
Proof.
  unfold callsCreate, isCreateCall. destruct expression as [[callee|] inner].
  - destruct (Ast.calleeName callee) as [definitionName|] eqn:Hname.
    + rewrite String.eqb_eq. split.
      * intros ->. eauto.
      * intros (callee' & inner' & [= <- <-] & Hcallee). congruence.
    + split; [discriminate|]. intros (callee' & inner' & [= <- <-] & Hcallee). congruence.
  - split; [discriminate|]. intros (callee' & inner' & [=] & _).
Qed.

(** The body of the loop examines the initialiser and takes it when it
    calls [create<name>]. *)
Lemma selectDefinition_examined (name : string) (node definition : option Ast.Expression) :
  selectDefinition name node definition =
  match definition with
  | Some init => if callsCreate name (examined init) then Some (examined init) else node
  | None => node
  end.
Proof.
  unfold selectDefinition, callsCreate, examined.
  destruct definition as [[callee [[[inner|] wrapped]|]]|]; try reflexivity.
  - destruct (Ast.calleeName inner); reflexivity.
  - destruct callee as [callee|]; [|reflexivity].
    destruct (Ast.calleeName callee); reflexivity.
Qed.

Lemma lastOr_app {A} (node : option A) (a b : list A) :
  lastOr node (a ++ b) = lastOr (lastOr node a) b.
Proof.
  unfold lastOr. induction b as [|x b IH] using rev_ind.
  - now rewrite app_nil_r.
  - now rewrite app_assoc, !last_snoc.
Qed.

Lemma declarations_last (name : string) (definitions : list (option Ast.Expression))
    (node : option Ast.Expression) :
  fold_left (selectDefinition name) definitions node =
  lastOr node (List.filter (callsCreate name) (map examined (omap id definitions))).
Proof.
  revert node. induction definitions as [|definition definitions IH]; intros node;
    [reflexivity|].
  cbn [fold_left]. rewrite IH, selectDefinition_examined.
  destruct definition as [init|]; [|reflexivity].
  change (omap id (Some init :: definitions)) with (init :: omap id definitions).
  cbn [map List.filter].
  destruct (callsCreate name (examined init)) eqn:Hcalls; [|reflexivity].
  change (examined init :: ?l) with ([examined init] ++ l).
  now rewrite lastOr_app.
Qed.

Lemma visit_last (name : string) (ast : Ast.node) :
  forall node,
    visit name ast node = lastOr node (List.filter (callsCreate name) (initialisers ast)).
Proof.
  induction ast as [declarations|children IH] using node_induction; intros node.
  - apply declarations_last.
  - cbn [visit initialisers]. revert node.
    induction IH as [|child children Hchild _ IHc]; intros node; [reflexivity|].
    cbn [fold_left flat_map]. rewrite IHc, Hchild.
    now rewrite List.filter_app, lastOr_app.
Qed.

Lemma findCreateDefinition_last (name : string) (ast : Ast.node) :
  findCreateDefinition name ast =
  last (List.filter (callsCreate name) (initialisers ast)).
Proof.
  unfold findCreateDefinition. rewrite visit_last. unfold lastOr.
  now destruct (last _).
Qed.

Lemma findCreateDefinition_selects (name : string) (ast : Ast.node) :
  (forall expression,
      findCreateDefinition name ast = Some expression ->
      In expression (initialisers ast) /\ isCreateCall name expression) /\
  ((exists expression,
       In expression (initialisers ast) /\ isCreateCall name expression) ->
   exists expression, findCreateDefinition name ast = Some expression).
Proof.
  rewrite findCreateDefinition_last. split.
  - intros expression Hlast. apply last_Some in Hlast as [found Hfound].
    assert (Hin : In expression (List.filter (callsCreate name) (initialisers ast))).
    { rewrite Hfound. apply in_or_app. right. now left. }
    apply List.filter_In in Hin as [Hin Hcalls].
    split; [exact Hin | now apply callsCreate_isCreateCall].
  - intros (expression & Hin & Hcalls).
    apply callsCreate_isCreateCall in Hcalls.
    assert (Hfound : In expression (List.filter (callsCreate name) (initialisers ast)))
      by now apply List.filter_In.
    destruct (last (List.filter (callsCreate name) (initialisers ast))) as [e|] eqn:Hlast;
      [eauto|].
    apply last_None in Hlast. rewrite Hlast in Hfound. destruct Hfound.
Qed.

(** C9. For a system component the source is parsed with the finder of
    [create<ComponentName>] first; when that throws the error whose message
    is [No suitable component definition found.], and only then, it is
    parsed again with the default detection; any other error is thrown as
    it is. Another component is parsed with the default detection at once.
    The finder examines the initialisers of the variable declarations it
    reaches and selects the last of them that is a call of the function
    named [create<ComponentName>] exactly: what it selects is such an
    initialiser, and it selects one whenever there is one. *)
Theorem factory_lookup_falls_back (componentInfo : ComponentInfo.t)
    (src filename : string) :
  let name := ComponentInfo.name componentInfo in
  let factory :=
    docgenParse src (Some (findCreateDefinition name)) defaultHandlers filename in
  let fallback :=
    docgenParse src None (defaultHandlers ++ [muiDefaultPropsHandler]) filename in
  (ComponentInfo.isSystemComponent componentInfo = true ->
     (forall reactApi,
         factory = Return reactApi ->
         parseComponent componentInfo src filename = Return reactApi) /\
     (forall error,
         factory = Throw error ->
         message error = "No suitable component definition found." ->
         parseComponent componentInfo src filename = fallback) /\
     (forall error,
         factory = Throw error ->
         message error <> "No suitable component definition found." ->
         parseComponent componentInfo src filename = Throw error)) /\
  (ComponentInfo.isSystemComponent componentInfo = false ->
     parseComponent componentInfo src filename = fallback) /\
  (forall ast,
      findCreateDefinition name ast =
        last (List.filter (callsCreate name) (initialisers ast)) /\
      (forall expression,
          findCreateDefinition name ast = Some expression ->
          In expression (initialisers ast) /\ isCreateCall name expression) /\
      ((exists expression,
           In expression (initialisers ast) /\ isCreateCall name expression) ->
       exists expression, findCreateDefinition name ast = Some expression)).
Proof.
  intros name factory fallback. unfold parseComponent. fold name factory fallback.
  split; [|split].
  - intros ->. split; [|split].
    + intros reactApi ->. reflexivity.
    + intros error -> Hmessage. unfold noDefinitionMessage.
      rewrite Hmessage, String.eqb_refl. reflexivity.
    + intros error -> Hmessage. unfold noDefinitionMessage.
      destruct (String.eqb_spec (message error) "No suitable component definition found.");
        [contradiction | reflexivity].
  - intros ->. reflexivity.
  - intros ast. split; [apply findCreateDefinition_last|].
    apply findCreateDefinition_selects.
Qed.

(** A write with the default flag stores the data when the file can be
    written, and throws with the file system as it was otherwise. *)
Lemma writeFileSync_writable (path data : string) (fs : FileSystem) :
  writable (directories fs) path = true ->
  writeFileSync path data FlagW fs = (withFile fs path data, Return tt).
Proof.
  unfold writable, writeFileSync.
  intros [[Hfree Hparent]%andb_true_iff Hallowed]%andb_true_iff.
  apply negb_true_iff in Hfree. rewrite Hfree, Hparent.
  destruct (writeRefused (directories fs) path); [discriminate|].
  now destruct (files fs !! path).
Qed.

Lemma writeFileSync_refused (path data : string) (fs : FileSystem) :
  writable (directories fs) path = false ->
  exists error, writeFileSync path data FlagW fs = (fs, Throw error).
Proof.
  unfold writable, writeFileSync. intros Hnot.
  destruct (bool_decide (path ∈ directories fs)).
  - destruct (files fs !! path); eauto.
  - destruct (parentPresent (directories fs) path);
      [|destruct (files fs !! path); eauto].
    destruct (writeRefused (directories fs) path) as [error|]; [|discriminate].
    destruct (files fs !! path); eauto.
Qed.

Lemma writeFileSync_Throw (path data : string) (flag : WriteFlag) (fs fs' : FileSystem)
    (error : Error) :
  writeFileSync path data flag fs = (fs', Throw error) -> fs' = fs.
Proof.
  unfold writeFileSync.
  destruct flag, (files fs !! path), (bool_decide (path ∈ directories fs));
    try (now intros [= <- _]);
    (destruct (parentPresent (directories fs) path); [|now intros [= <- _]]);
    destruct (writeRefused (directories fs) path); (intros [= <- _] || intros [=]);
    reflexivity.
Qed.

(** A write touches no other file and no directory, and leaves the file
    system as it was when it throws. *)
Lemma writeFileSync_frame (path data : string) (flag : WriteFlag) (fs fs' : FileSystem)
    (outcome : result unit) :
  writeFileSync path data flag fs = (fs', outcome) ->
  (forall p, p <> path -> files fs' !! p = files fs !! p) /\
  directories fs' = directories fs /\
  (forall error, outcome = Throw error -> fs' = fs).
Proof.
  unfold writeFileSync.
  destruct flag, (files fs !! path), (bool_decide (path ∈ directories fs));
    try (now intros [= <- <-]);
    (destruct (parentPresent (directories fs) path); [|now intros [= <- <-]]);
    (destruct (writeRefused (directories fs) path); [now intros [= <- <-]|]);
    intros [= <- <-]; (repeat split; [|discriminate]);
    intros p Hp; cbn [withFile files]; now rewrite lookup_insert_ne.
Qed.

Lemma mkdirSync_Throw (path : string) (fs fs' : FileSystem) (error : Error) :
  mkdirSync path fs = (fs', Throw error) -> fs' = fs.
Proof.
  unfold mkdirSync. destruct (bool_decide (path ∈ directories fs)); [intros [=]|].
  destruct (files fs !! path); [now intros [= <- _]|].
  destruct (existsb _ (pathAncestors path)); [now intros [= <- _]|].
  destruct (mkdirRefused (directories fs) path); [now intros [= <- _] | intros [=]].
Qed.

Lemma mkdirSync_Return (path : string) (fs fs' : FileSystem) :
  mkdirSync path fs = (fs', Return tt) ->
  files fs' = files fs /\
  directories fs ⊆ directories fs' /\
  path ∈ directories fs'.
Proof.
  unfold mkdirSync. destruct (bool_decide (path ∈ directories fs)) eqn:Hin.
  - apply bool_decide_eq_true in Hin. intros [= <-]. repeat split; [|exact Hin].
    intros x Hx. exact Hx.
  - destruct (files fs !! path); [intros [=]|].
    destruct (existsb _ (pathAncestors path)); [intros [=]|].
    destruct (mkdirRefused (directories fs) path); [intros [=]|].
    intros [= <-]. cbn [withDirectories files directories]. repeat split.
    + intros x Hx. apply elem_of_union. now right.
    + apply elem_of_union. left. apply elem_of_list_to_set. now left.
Qed.

(** Writing with the flag [wx] inside [try]/[catch] creates the file when
    it is not there and can be written, and does nothing otherwise. *)
Lemma exclusive_write (path data : string) (fs : FileSystem) :
  tryCatchIgnore (writePrettifiedFile path data FlagWX) fs =
  (match files fs !! path with
   | Some _ => fs
   | None =>
       if writable (directories fs) path then withFile fs path (prettify data) else fs
   end, Return tt).
Proof.
  unfold tryCatchIgnore, writePrettifiedFile, writeFileSync, writable.
  destruct (files fs !! path); [reflexivity|].
  destruct (bool_decide (path ∈ directories fs)); [reflexivity|].
  destruct (parentPresent (directories fs) path); [|reflexivity].
  destruct (writeRefused (directories fs) path); reflexivity.
Qed.

(** The files left by the loop over the languages: a file that was there is
    as it was; a file that was not there holds the bundle when it is the
    file of a language other than [en] and can be written, and is still not
    there otherwise. The directories are as they were. *)
Lemma forEach_language_files (path : string -> string) (data : string)
    (languages : list string) (fs : FileSystem) :
  exists fs',
    forEach languages (fun language =>
      if negb (String.eqb language "en")
      then tryCatchIgnore (writePrettifiedFile (path language) data FlagWX)
      else mret tt) fs = (fs', Return tt) /\
    directories fs' = directories fs /\
    forall p,
      files fs' !! p =
      match files fs !! p with
      | Some content => Some content
      | None =>
          if existsb (fun language =>
                        negb (String.eqb language "en") && String.eqb (path language) p)
                     languages &&
             writable (directories fs) p
          then Some (prettify data) else None
      end.
Proof.
  revert fs. induction languages as [|language languages IH]; intros fs.
  - exists fs. split; [reflexivity|]. split; [reflexivity|].
    intros p. simpl. now destruct (files fs !! p).
  - cbn [forEach]. unfold mbind, io_bind, ioBind.
    destruct (String.eqb_spec language "en") as [->|Hne]; cbn [negb].
    + cbn [mret io_ret ioReturn]. destruct (IH fs) as (fs' & -> & Hdirs & Hfiles).
      exists fs'. split; [reflexivity|]. split; [exact Hdirs|].
      intros p. rewrite Hfiles. reflexivity.
    + rewrite exclusive_write.
      destruct (files fs !! path language) as [content|] eqn:Hfile.
      * destruct (IH fs) as (fs' & -> & Hdirs & Hfiles).
        exists fs'. split; [reflexivity|]. split; [exact Hdirs|].
        intros p. rewrite Hfiles.
        cbn [existsb]. destruct (files fs !! p) eqn:Hp; [reflexivity|].
        destruct (String.eqb_spec (path language) p) as [<-|_]; [congruence|].
        rewrite andb_false_r. reflexivity.
      * destruct (writable (directories fs) (path language)) eqn:Hwritable.
        -- destruct (IH (withFile fs (path language) (prettify data)))
             as (fs' & -> & Hdirs & Hfiles).
           exists fs'. split; [reflexivity|]. split; [exact Hdirs|].
           intros p. rewrite Hfiles.
           cbn [existsb withFile files directories].
           destruct (String.eqb_spec (path language) p) as [<-|Hp].
           ++ rewrite lookup_insert_eq, Hfile, Hwritable.
              destruct (String.eqb_spec language "en"); [contradiction|]. reflexivity.
           ++ rewrite lookup_insert_ne by exact Hp. rewrite andb_false_r. reflexivity.
        -- destruct (IH fs) as (fs' & -> & Hdirs & Hfiles).
           exists fs'. split; [reflexivity|]. split; [exact Hdirs|].
           intros p. rewrite Hfiles. cbn [existsb].
           destruct (files fs !! p) eqn:Hp; [reflexivity|].
           destruct (String.eqb_spec (path language) p) as [<-|_].
           ++ rewrite Hwritable, !andb_false_r. reflexivity.
           ++ rewrite andb_false_r. reflexivity.
Qed.

(** C8, as amended. When the directory of the component cannot be created,
    [generateApiTranslations] throws what [mkdirSync] throws, and when the
    file of [en] cannot be written it throws what the write throws: no
    translation file is written. Otherwise it does not throw; the file of
    [en] holds the bundle, whatever it held before; the file of any other
    language, when it is not the file of [en], holds what it held before if
    it was there, holds the bundle if it was not there and can be written,
    and is still not there if it cannot be written. No other file is
    touched. *)
Theorem translations_seeded_not_overwritten (outputDirectory : string)
    (reactApi : ReactApi.t) (languages : list string) (fs : FileSystem) :
  let directory := pathResolve outputDirectory (kebabCase (ReactApi.name reactApi)) in
  let path :=
    resolveApiDocsTranslationsComponentLanguagePath directory (ReactApi.name reactApi) in
  let bundle := prettify (stringifyTranslations (ReactApi.translations reactApi)) in
  (forall fs0 error,
      mkdirSync directory fs = (fs0, Throw error) ->
      generateApiTranslations outputDirectory reactApi languages fs = (fs, Throw error)) /\
  (forall fs1,
      mkdirSync directory fs = (fs1, Return tt) ->
      (forall fs2 error,
          writeFileSync (path "en") bundle FlagW fs1 = (fs2, Throw error) ->
          generateApiTranslations outputDirectory reactApi languages fs =
            (fs1, Throw error) /\
          files fs1 = files fs) /\
      (writable (directories fs1) (path "en") = true ->
       exists fs',
         generateApiTranslations outputDirectory reactApi languages fs = (fs', Return tt) /\
         files fs' !! path "en" = Some bundle /\
         (forall language,
             In language languages -> language <> "en" -> path language <> path "en" ->
             files fs' !! path language =
             match files fs !! path language with
             | Some content => Some content
             | None =>
                 if writable (directories fs1) (path language) then Some bundle else None
             end) /\
         (forall p,
             p <> path "en" ->
             (forall language, In language languages -> p <> path language) ->
             files fs' !! p = files fs !! p))).
Proof.
  intros directory path bundle.
  unfold generateApiTranslations. fold directory path.
  unfold mbind, io_bind, ioBind, writePrettifiedFile at 1.
  subst bundle.
  set (data := stringifyTranslations (ReactApi.translations reactApi)).
  set (bundle := prettify data).
  split.
  - intros fs0 error Hmkdir. rewrite Hmkdir.
    now rewrite (mkdirSync_Throw _ _ _ _ Hmkdir).
  - intros fs1 Hmkdir. rewrite Hmkdir.
    apply mkdirSync_Return in Hmkdir as (Hfiles1 & _ & _). split.
    + intros fs2 error Hwrite.
      change (writePrettifiedFile (path "en") data FlagW fs1)
        with (writeFileSync (path "en") bundle FlagW fs1).
      rewrite Hwrite.
      now rewrite (writeFileSync_Throw _ _ _ _ _ _ Hwrite).
    + intros Hwritable.
      change (writePrettifiedFile (path "en") data FlagW fs1)
        with (writeFileSync (path "en") bundle FlagW fs1).
      rewrite (writeFileSync_writable _ _ _ Hwritable).
      set (fs0 := withFile fs1 (path "en") bundle).
      destruct (forEach_language_files path data languages fs0)
        as (fs' & Hrun & _ & Hfiles).
      exists fs'. split; [exact Hrun|].
      assert (Hen : files fs0 !! path "en" = Some bundle) by apply lookup_insert_eq.
      assert (Hother : forall p, p <> path "en" -> files fs0 !! p = files fs !! p).
      { intros p Hp. unfold fs0. cbn [withFile files].
        rewrite lookup_insert_ne by congruence. now rewrite Hfiles1. }
      split; [|split].
      * rewrite Hfiles, Hen. reflexivity.
      * intros language Hin Hne Hpath. rewrite Hfiles, (Hother _ Hpath).
        destruct (files fs !! path language) as [content|]; [reflexivity|].
        assert (Hex : existsb (fun l => negb (String.eqb l "en") &&
                                        String.eqb (path l) (path language)) languages
                      = true).
        { apply existsb_exists. exists language. split; [exact Hin|].
          rewrite String.eqb_refl, andb_true_r.
          destruct (String.eqb_spec language "en"); [contradiction | reflexivity]. }
        rewrite Hex. reflexivity.
      * intros p Hp Hlanguages. rewrite Hfiles, (Hother _ Hp).
        destruct (files fs !! p); [reflexivity|].
        assert (Hex : existsb (fun l => negb (String.eqb l "en") &&
                                        String.eqb (path l) p) languages = false).
        { apply not_true_is_false. intros Hex.
          apply existsb_exists in Hex as (language & Hin & Htest).
          apply andb_true_iff in Htest as [_ Heq]. apply String.eqb_eq in Heq.
          exact (Hlanguages language Hin (eq_sym Heq)). }
        rewrite Hex. reflexivity.
Qed.

(** *** The order of the props *)

Lemma insertSorted_Permutation {A} (compare : A -> A -> Z) (x : A) (xs : list A) :
  Permutation (insertSorted compare x xs) (x :: xs).
Proof.
  induction xs as [|y ys IH]; simpl; [reflexivity|].
  destruct (compare x y <=? 0)%Z; [reflexivity|].
  rewrite IH. apply perm_swap.
Qed.

Lemma sort_Permutation {A} (compare : A -> A -> Z) (xs : list A) :
  Permutation (sort compare xs) xs.
Proof.
  induction xs as [|x xs IH]; simpl; [reflexivity|].
  rewrite insertSorted_Permutation. now constructor.
Qed.

Section Sorting.
Context {A : Type} (compare : A -> A -> Z).
Hypothesis compare_total : forall a b, (compare a b <= 0 \/ compare b a <= 0)%Z.
Hypothesis compare_trans :
  forall a b c, (compare a b <= 0 -> compare b c <= 0 -> compare a c <= 0)%Z.

Lemma insertSorted_StronglySorted (x : A) (xs : list A) :
  StronglySorted (fun a b => (compare a b <= 0)%Z) xs ->
  StronglySorted (fun a b => (compare a b <= 0)%Z) (insertSorted compare x xs).
Proof.
  induction 1 as [|y ys Hsorted IH Hy]; simpl.
  - repeat constructor.
  - destruct (compare x y <=? 0)%Z eqn:Hxy.
    + apply Z.leb_le in Hxy. constructor; [now constructor|].
      constructor; [exact Hxy|].
      apply List.Forall_forall. intros z Hz.
      exact (compare_trans _ _ _ Hxy (proj1 (List.Forall_forall _ _) Hy z Hz)).
    + apply Z.leb_gt in Hxy. constructor; [exact IH|].
      apply List.Forall_forall. intros z Hz.
      apply (Permutation_in _ (insertSorted_Permutation compare x ys)) in Hz.
      destruct Hz as [<-|Hz].
      * destruct (compare_total x y); [lia | assumption].
      * exact (proj1 (List.Forall_forall _ _) Hy z Hz).
Qed.

Lemma sort_StronglySorted (xs : list A) :
  StronglySorted (fun a b => (compare a b <= 0)%Z) (sort compare xs).
Proof.
  induction xs as [|x xs IH]; simpl; [constructor|].
  now apply insertSorted_StronglySorted.
Qed.

End Sorting.

(** In a strongly sorted list an element is related to each later one. *)
Lemma StronglySorted_pairs {A} (R : A -> A -> Prop) (xs before after rest : list A)
    (a b : A) :
  StronglySorted R xs -> xs = before ++ a :: after ++ b :: rest -> R a b.
Proof.
  intros Hsorted ->. induction before as [|x before IH]; simpl in Hsorted.
  - apply StronglySorted_inv in Hsorted as [_ Hall].
    apply (proj1 (List.Forall_forall _ _) Hall). apply in_or_app. right. now left.
  - apply StronglySorted_inv in Hsorted as [Hsorted _]. auto.
Qed.

Lemma has_false {V} (k : string) (o : Obj.t V) :
  ~ In k (Obj.keys o) -> Obj.has k o = false.
Proof.
  unfold Obj.has, Obj.keys. induction o as [|[k' v] o IH]; simpl; [reflexivity|].
  intros Hnot. destruct (String.eqb_spec k' k) as [->|Hne]; [tauto|].
  apply IH. tauto.
Qed.

(** Names that are no array indices and differ from one another are kept in
    the order in which they are assigned. *)
Lemma fold_set_append {V} (pairs : list (string * V)) (o : Obj.t V) :
  List.NoDup (Obj.keys (o ++ pairs)) ->
  (forall k, In k (Obj.keys pairs) -> Obj.isArrayIndex k = false) ->
  fold_left (fun o kv => Obj.set (fst kv) (snd kv) o) pairs o = o ++ pairs.
Proof.
  revert o. induction pairs as [|[k v] pairs IH]; intros o Hnodup Hindex; simpl.
  - now rewrite app_nil_r.
  - assert (Hk : Obj.set k v o = o ++ [(k, v)]).
    { unfold Obj.set. rewrite has_false.
      - specialize (Hindex k (or_introl eq_refl)). unfold Obj.isArrayIndex in Hindex.
        destruct (Obj.arrayIndex k); [discriminate | reflexivity].
      - unfold Obj.keys in *. rewrite map_app in Hnodup. simpl in Hnodup.
        apply NoDup_remove_2 in Hnodup. intros Hin. apply Hnodup.
        apply in_or_app. now left. }
    rewrite Hk, IH.
    + now rewrite <- app_assoc.
    + now rewrite <- app_assoc.
    + intros k' Hin. apply Hindex. now right.
Qed.

Lemma fromPairs_id {V} (pairs : list (string * V)) :
  List.NoDup (Obj.keys pairs) ->
  (forall k, In k (Obj.keys pairs) -> Obj.isArrayIndex k = false) ->
  Obj.fromPairs pairs = pairs.
Proof. intros Hnodup Hindex. now apply (fold_set_append pairs []). Qed.

(** [compareProps] puts the required props first and orders each group by
    [localeCompare]. *)
Lemma compareProps_le (a b : string * Entry.t) :
  (compareProps a b <= 0)%Z <->
  (isRequired (snd a) = true /\ isRequired (snd b) = false) \/
  (isRequired (snd a) = isRequired (snd b) /\ (localeCompare (fst a) (fst b) <= 0)%Z).
Proof.
  destruct a as [aName aData], b as [bName bData]. unfold compareProps. simpl.
  destruct (isRequired aData), (isRequired bData); simpl;
    intuition (try discriminate; try lia).
Qed.

(** X23. Let [localeCompare] be a total preorder on names, and
    let the names of the props table differ from one another and none be an
    array index (a canonical decimal number below [2^32 - 1], which an
    object enumerates first whatever the order of assignment). Then the
    props of the page content are the props of the table, reordered so
    that no prop that is not required precedes a required one, and so that
    within each of the two groups a prop precedes only props whose names do
    not compare below its own. Being a function of the table, the order is
    the same whenever the table is. *)
Theorem props_sorted_required_first (propsTable : Obj.t Entry.t) :
  (forall a b, (localeCompare a b <= 0 \/ localeCompare b a <= 0)%Z) ->
  (forall a b c,
      (localeCompare a b <= 0 -> localeCompare b c <= 0 -> localeCompare a c <= 0)%Z) ->
  List.NoDup (Obj.keys propsTable) ->
  (forall name, In name (Obj.keys propsTable) -> Obj.isArrayIndex name = false) ->
  let props := sortedProps propsTable in
  Permutation props propsTable /\
  (forall before a after b rest,
      props = before ++ a :: after ++ b :: rest ->
      (isRequired (snd b) = true -> isRequired (snd a) = true) /\
      (isRequired (snd a) = isRequired (snd b) ->
       (localeCompare (fst a) (fst b) <= 0)%Z)).
Proof.
  intros Htotal Htrans Hnodup Hindex props.
  assert (Hperm : Permutation (sort compareProps propsTable) propsTable)
    by apply sort_Permutation.
  assert (Hkeys : Permutation (Obj.keys (sort compareProps propsTable))
                              (Obj.keys propsTable))
    by (unfold Obj.keys; now apply Permutation_map).
  assert (Hprops : props = sort compareProps propsTable).
  { unfold props, sortedProps, Obj.entries. apply fromPairs_id.
    - eapply Permutation_NoDup; [symmetry; exact Hkeys | exact Hnodup].
    - intros name Hin. apply Hindex. eapply Permutation_in; eassumption. }
  split; [now rewrite Hprops|].
  intros before a after b rest Hsplit.
  assert (Hab : (compareProps a b <= 0)%Z).
  { rewrite Hprops in Hsplit.
    apply (StronglySorted_pairs (fun x y => (compareProps x y <= 0)%Z)
             _ before after rest a b) in Hsplit; [exact Hsplit|].
    apply sort_StronglySorted.
    - intros x y. rewrite !compareProps_le.
      destruct (isRequired (snd x)), (isRequired (snd y));
        destruct (Htotal (fst x) (fst y)); intuition.
    - intros x y z. rewrite !compareProps_le.
      destruct (isRequired (snd x)), (isRequired (snd y)), (isRequired (snd z));
        intuition (try discriminate; eauto). }
  apply compareProps_le in Hab.
  destruct (isRequired (snd a)), (isRequired (snd b));
    intuition (try discriminate; try congruence).
Qed.

(** *** The conditions of a class description *)

Lemma run_stylesPrefix {R} (prefix t : string) (c : Regex.captures)
    (k : string -> Regex.captures -> option R) :
  In prefix prefixes ->
  Regex.run stylesPrefix (prefix +:+ " applied to " +:+ t) c k =
  k t ((1, prefix +:+ " applied to ") :: (2, prefix) :: c).
Proof.
  intros Hprefix. unfold stylesPrefix.
  unfold prefixes in Hprefix. simpl in Hprefix.
  destruct Hprefix as [<-|[<-|[<-|[]]]]; simpl; change ("" +:+ t) with t.
  all: match goal with
       | |- _ = ?k ?t ((1, ?X) :: (2, ?Y) :: ?c) =>
           rewrite (consumed_spec _ X t) by reflexivity;
           rewrite (consumed_spec _ Y (" applied to " +:+ t)) by reflexivity;
           destruct (k t ((1, X) :: (2, Y) :: c)); reflexivity
       end.
Qed.

Lemma run_stylesSeparator {R} (sep t : string) (c : Regex.captures)
    (k : string -> Regex.captures -> option R) :
  In sep separators ->
  Regex.run stylesSeparator (sep +:+ t) c k = k t ((5, sep) :: c).
Proof.
  intros Hsep. unfold stylesSeparator. rewrite run_Cap.
  unfold separators in Hsep. simpl in Hsep.
  destruct Hsep as [<-|[<-|[<-|[<-|[]]]]]; simpl; change ("" +:+ t) with t.
  all: match goal with
       | |- _ = ?k ?t ((5, ?X) :: ?c) =>
           rewrite (consumed_spec _ X t) by reflexivity;
           destruct (k t ((5, X) :: c)); reflexivity
       end.
Qed.

Lemma afterTarget_refuses {R} (u : string) (c : Regex.captures)
    (k : string -> Regex.captures -> option R) :
  forallb (fun stop => negb (Js.startsWith u stop)) stops = true ->
  Regex.run afterTarget u c k = None.
Proof.
  unfold stops, separators, Js.startsWith. cbn [forallb app].
  intros Hstops. unfold afterTarget, stylesSeparator. cbn [Regex.run].
  repeat match type of Hstops with
         | context [Js.stripPrefix ?p u] =>
             destruct (Js.stripPrefix p u); try discriminate
         end.
  reflexivity.
Qed.

Lemma plainTarget_refusedBefore {R} (target rest : string) (k : string -> option R) :
  plainTarget target rest = true ->
  (forall u, forallb (fun stop => negb (Js.startsWith u stop)) stops = true ->
             k u = None) ->
  refusedBefore k target rest.
Proof.
  intros Hplain Hk. induction target as [|a target IH]; simpl; [exact I|].
  simpl in Hplain. apply andb_true_iff in Hplain as [Hhere Hplain].
  split; [now apply Hk | now apply IH].
Qed.

Lemma separator_length (sep : string) : In sep separators -> 2 <= String.length sep.
Proof.
  unfold separators. simpl. intros [<-|[<-|[<-|[<-|[]]]]]; simpl; lia.
Qed.

(** The groups of [stylesRegex] on a description made of a prefix, a plain
    target, a separator and a condition on one line. *)
Lemma run_stylesRegex (prefix target sep cond : string) :
  In prefix prefixes -> In sep separators ->
  Js.singleLine target = true ->
  plainTarget target (sep +:+ cond +:+ ".") = true ->
  Js.singleLine cond = true ->
  Regex.run stylesRegex
    (prefix +:+ " applied to " +:+ target +:+ sep +:+ cond +:+ ".") []
    (fun s' c => Some (s', c)) =
  Some ("", [(4, sep +:+ cond); (6, cond); (5, sep); (3, target);
             (1, prefix +:+ " applied to "); (2, prefix)]).
Proof.
  intros Hprefix Hsep Htarget Hplain Hcond.
  unfold stylesRegex. rewrite run_Seq, run_stylesPrefix by exact Hprefix.
  rewrite run_Seq, run_Cap, run_LazyStar.
  fold afterTarget.
  erewrite lazyRun_target; [reflexivity | exact Htarget | |].
  - apply plainTarget_refusedBefore; [exact Hplain|].
    intros u Hu. now apply afterTarget_refuses.
  - rewrite consumed_append. unfold afterTarget.
    rewrite run_Seq, run_Opt, run_Cap, run_Seq, run_stylesSeparator by exact Hsep.
    rewrite run_Cap, run_Star.
    erewrite greedyRun_last_stop; [reflexivity | exact Hcond | |].
    + simpl. now destruct (_ <? _).
    + assert (Hlt : (String.length "." <? String.length (sep +:+ cond +:+ ".")) = true).
      { apply Nat.ltb_lt. rewrite !length_append.
        pose proof (separator_length sep Hsep). simpl. lia. }
      rewrite Hlt. rewrite consumed_append.
      rewrite (consumed_spec _ (sep +:+ cond) ".") by now rewrite append_assoc.
      reflexivity.
Qed.

Lemma exec_stylesRegex (prefix target sep cond : string) :
  In prefix prefixes -> In sep separators ->
  Js.singleLine target = true ->
  plainTarget target (sep +:+ cond +:+ ".") = true ->
  Js.singleLine cond = true ->
  let description := prefix +:+ " applied to " +:+ target +:+ sep +:+ cond +:+ "." in
  Regex.exec stylesRegex description =
  Some (Regex.Result 0 description ""
          [(4, sep +:+ cond); (6, cond); (5, sep); (3, target);
           (1, prefix +:+ " applied to "); (2, prefix)]).
Proof.
  intros Hprefix Hsep Htarget Hplain Hcond description.
  unfold Regex.exec.
  erewrite execFrom_here by now apply run_stylesRegex.
  rewrite (consumed_spec description description "") by now rewrite append_empty_r.
  reflexivity.
Qed.

Lemma substitution_conditions (m : Regex.result) :
  Regex.substitution m (Regex.groupCount stylesRegex) "$1{{nodeName}}$5{{conditions}}." =
  default "" (Regex.group m 1) +:+ "{{nodeName}}" +:+
  default "" (Regex.group m 5) +:+ "{{conditions}}.".
Proof. reflexivity. Qed.

(** What is recorded for a description with a condition: the template, the
    condition and the target, whatever the target is. *)
Lemma classCondition_with_condition (prefix target sep cond : string) :
  In prefix prefixes -> In sep separators ->
  Js.singleLine target = true ->
  plainTarget target (sep +:+ cond +:+ ".") = true ->
  Js.singleLine cond = true ->
  cond <> "" ->
  classCondition (prefix +:+ " applied to " +:+ target +:+ sep +:+ cond +:+ ".") =
  ClassTranslation.mk
    (renderMarkdown
       (prefix +:+ " applied to " +:+ "{{nodeName}}" +:+ sep +:+ "{{conditions}}."))
    (Some (renderMarkdown (Regex.replaceAll codeRegex "<code>$1</code>" cond)))
    (Some (renderMarkdown target)).
Proof.
  intros Hprefix Hsep Htarget Hplain Hcond Hne.
  unfold classCondition, Regex.replace, Regex.replaceWith.
  rewrite exec_stylesRegex by assumption.
  rewrite substitution_conditions.
  cbn [Regex.group Regex.groups Regex.capture Nat.eqb Regex.index Regex.rest
       Js.take default].
  destruct cond as [|a cond]; [congruence|].
  cbn [Js.truthy]. unfold id.
  change ("" +:+ ?x) with x. rewrite append_empty_r, append_assoc. reflexivity.
Qed.

(** The root element is a plain target, whatever follows it. *)
Lemma plainTarget_root_element (rest : string) :
  plainTarget "the root element" rest = true.
Proof. reflexivity. Qed.

(** Without a condition nothing but the description is recorded for the
    root element. *)
Lemma classCondition_root_element_alone (prefix : string) :
  In prefix prefixes ->
  classCondition (prefix +:+ " applied to " +:+ "the root element" +:+ ".") =
  ClassTranslation.mk
    (renderMarkdown (prefix +:+ " applied to " +:+ "the root element" +:+ "."))
    None None.
Proof.
  unfold prefixes. simpl. intros [<-|[<-|[<-|[]]]]; reflexivity.
Qed.

Lemma extractClassConditions_other (descriptions : Obj.t string)
    (classConditions : Obj.t ClassTranslation.t) (className : string) :
  ~ In className (Obj.keys descriptions) ->
  Obj.get className
    (fold_left
       (fun classConditions entry =>
          let '(className, description) := entry in
          if Js.truthy (Some className)
          then Obj.set className (classCondition description) classConditions
          else classConditions)
       descriptions classConditions) =
  Obj.get className classConditions.
Proof.
  revert classConditions.
  induction descriptions as [|[k d] descriptions IH]; intros classConditions Hnot;
    simpl; [reflexivity|].
  simpl in Hnot. rewrite IH by tauto.
  destruct k; [reflexivity|].
  apply get_set_ne. intros ->. tauto.
Qed.

(** What [extractClassConditions] records under a class name is the entry
    of that class's description. *)
Lemma extractClassConditions_get (descriptions : Obj.t string)
    (className description : string) :
  List.NoDup (Obj.keys descriptions) ->
  className <> "" ->
  In (className, description) descriptions ->
  Obj.get className (extractClassConditions descriptions) =
  Some (classCondition description).
Proof.
  unfold extractClassConditions, Obj.entries. generalize (@nil (string * ClassTranslation.t)).
  induction descriptions as [|[k d] descriptions IH]; intros classConditions Hnodup Hname Hin;
    [destruct Hin|].
  simpl in Hnodup. apply NoDup_cons_iff in Hnodup as [Hfresh Hnodup].
  simpl. destruct Hin as [[= -> ->]|Hin].
  - rewrite extractClassConditions_other by exact Hfresh.
    destruct className; [congruence|]. simpl. apply get_set_eq.
  - now apply IH.
Qed.

(** C3, as amended. For a class whose description is one of [Styles],
    [State class] and [Class name], then [ applied to ], a target, one of
    the separators [ if ], [ unless ], [ when ] and [, ], a condition that
    is not empty, and a full stop (target and condition on one line, no
    separator or full stop starting inside the target),
    [extractClassConditions] records the template, the rendered condition
    and the rendered target as [nodeName]. The root element is such a
    target: with a condition its [nodeName] is recorded too. Only without a
    condition is nothing but the description recorded for the root
    element. *)
Theorem class_conditions_recorded (descriptions : Obj.t string)
    (className prefix : string) :
  List.NoDup (Obj.keys descriptions) ->
  className <> "" ->
  In prefix prefixes ->
  (forall target sep condition,
      In sep separators ->
      Js.singleLine target = true ->
      plainTarget target (sep +:+ condition +:+ ".") = true ->
      Js.singleLine condition = true ->
      condition <> "" ->
      In (className,
          prefix +:+ " applied to " +:+ target +:+ sep +:+ condition +:+ ".")
         descriptions ->
      Obj.get className (extractClassConditions descriptions) =
      Some (ClassTranslation.mk
              (renderMarkdown
                 (prefix +:+ " applied to " +:+ "{{nodeName}}" +:+ sep +:+
                  "{{conditions}}."))
              (Some (renderMarkdown
                       (Regex.replaceAll codeRegex "<code>$1</code>" condition)))
              (Some (renderMarkdown target)))) /\
  (forall rest, plainTarget "the root element" rest = true) /\
  (In (className, prefix +:+ " applied to " +:+ "the root element" +:+ ".")
      descriptions ->
   Obj.get className (extractClassConditions descriptions) =
   Some (ClassTranslation.mk
           (renderMarkdown (prefix +:+ " applied to " +:+ "the root element" +:+ "."))
           None None)).
Proof.
  intros Hnodup Hname Hprefix. split; [|split].
  - intros target sep condition Hsep Htarget Hplain Hcondition Hne Hin.
    rewrite (extractClassConditions_get _ _ _ Hnodup Hname Hin).
    now rewrite classCondition_with_condition.
  - exact plainTarget_root_element.
  - intros Hin.
    rewrite (extractClassConditions_get _ _ _ Hnodup Hname Hin).
    now rewrite classCondition_root_element_alone.
Qed.

Lemma annotatedDescription_shape (api : ReactApi.t) :
  let body := computeApiDescription (ReactApi.description api) HOST in
  exists blank tail,
    (blank = Js.LF +:+ Js.LF \/ (body = "" /\ blank = Js.LF)) /\
    annotatedDescription api =
    (body +:+ blank) +:+ "Demos:" +:+ Js.LF +:+ Js.LF +:+ tail.
Proof.
  intros body. unfold annotatedDescription, markdownLines. fold body.
  set (lines0 := Js.splitOn "010" body).
  set (lines1 := match last lines0 with Some EmptyString => lines0 | _ => lines0 ++ [""] end).
  set (api_line := "- [" +:+ _).
  set (rest := map demoLine (ReactApi.demos api) ++ [""] ++ ["API:"; ""; api_line] ++
               match inheritanceAPILink api with Some link => ["- inherits " +:+ link] | None => [] end).
  assert (Hlines : match inheritanceAPILink api with
                   | Some link => ((lines1 ++ ["Demos:"; ""] ++ map demoLine (ReactApi.demos api) ++ [""]) ++ ["API:"; ""; api_line]) ++ ["- inherits " +:+ link]
                   | None => (lines1 ++ ["Demos:"; ""] ++ map demoLine (ReactApi.demos api) ++ [""]) ++ ["API:"; ""; api_line]
                   end = lines1 ++ "Demos:" :: "" :: rest).
  { unfold rest. destruct (inheritanceAPILink api); simpl; rewrite <- ?app_assoc; simpl;
      rewrite <- ?app_assoc; simpl; rewrite ?app_nil_r; reflexivity. }
  rewrite Hlines.
  assert (Hrest : rest <> []).
  { unfold rest. destruct (map demoLine (ReactApi.demos api)); discriminate. }
  assert (H1 : lines1 <> []).
  { unfold lines1. pose proof (splitOn_nonempty "010" body).
    destruct (last lines0) as [[|]|]; fold lines0 in H0; try assumption;
    destruct lines0; discriminate. }
  rewrite join_app by (assumption || discriminate).
  rewrite (join_cons Js.LF "Demos:") by discriminate.
  rewrite (join_cons Js.LF "") by assumption.
  change ("" +:+ Js.LF +:+ Js.join Js.LF rest) with (Js.LF +:+ Js.join Js.LF rest).
  destruct (last lines0) as [[|c l]|] eqn:Hlast.
  - exists Js.LF, (Js.join Js.LF rest). split.
    + right. split; [|reflexivity].
      apply last_splitOn_empty in Hlast as [Hb|[s' Hb]]; [exact Hb|].
      exfalso. unfold body, computeApiDescription in Hb.
      now apply trim_not_ending_blank in Hb.
    + unfold lines1. unfold lines0. change Js.LF with (String "010" "") at 1.
      rewrite join_splitOn. now rewrite !append_assoc.
  - exists (Js.LF +:+ Js.LF), (Js.join Js.LF rest). split; [now left|].
    unfold lines1. rewrite join_app by (apply splitOn_nonempty || discriminate).
    unfold lines0. change Js.LF with (String "010" "") at 1.
    rewrite join_splitOn. simpl Js.join. rewrite !append_assoc. reflexivity.
  - exists (Js.LF +:+ Js.LF), (Js.join Js.LF rest). split; [now left|].
    unfold lines1. rewrite join_app by (apply splitOn_nonempty || discriminate).
    unfold lines0. change Js.LF with (String "010" "") at 1.
    rewrite join_splitOn. simpl Js.join. rewrite !append_assoc. reflexivity.
Qed.

(** Stripping the comment block gives the rendered description back. *)
Lemma annotation_stripped (api : ReactApi.t) :
  let body := computeApiDescription (ReactApi.description api) HOST in
  Regex.exec annotatedDescriptionRegex (body +:+ Js.LF +:+ Js.LF) = None ->
  stripAnnotation (annotatedDescription api) = body.
Proof.
  intros body Hnone.
  destruct (annotatedDescription_shape api) as (blank & tail & Hblank & Hshape).
  fold body in Hshape, Hblank. rewrite Hshape.
  destruct (exec_annotated body blank tail Hblank Hnone) as (m & Hexec & Hindex).
  unfold stripAnnotation. rewrite Hexec, Hindex, take_append.
  unfold body, computeApiDescription. apply trim_append_blank.
  destruct Hblank as [->|[_ ->]]; reflexivity.
Qed.


(** The comment block depends on the description through its rendering
    only. *)
Lemma jsdoc_same_rendering (api : ReactApi.t) (text : string) :
  computeApiDescription text HOST =
  computeApiDescription (ReactApi.description api) HOST ->
  jsdoc (ReactApi.setDescription api text) = jsdoc api.
Proof.
  intros Hsame. unfold jsdoc, markdownLines, inheritanceAPILink. simpl.
  now rewrite Hsame.
Qed.

(** [stripAnnotation] cuts the description at the first place where the
    marker starts and trims what is before it; a description without
    marker is left as it is. *)
Lemma stripAnnotation_first_marker (description : string) :
  match Regex.exec annotatedDescriptionRegex description with
  | None =>
      stripAnnotation description = description /\
      forall before after, description = before +:+ after -> markerEnd after = None
  | Some _ =>
      exists before after,
        description = before +:+ after /\
        markerEnd after <> None /\
        (forall before1 before2,
            before = before1 +:+ before2 -> before2 <> "" ->
            markerEnd (before2 +:+ after) = None) /\
        stripAnnotation description = Js.trim before
  end.
Proof.
  unfold stripAnnotation.
  destruct (Regex.exec annotatedDescriptionRegex description) as [m|] eqn:Hexec.
  - apply execFrom_first in Hexec as (before & after & -> & Hindex & Hafter & Hfirst).
    exists before, after. repeat split.
    + intros Hnone. apply attempt_markerEnd in Hnone. congruence.
    + intros before1 before2 Heq Hne. apply attempt_markerEnd. now apply Hfirst with before1.
    + simpl in Hindex. now rewrite Hindex, take_append.
  - split; [reflexivity|]. intros before after Heq.
    apply attempt_markerEnd. exact (execFrom_None _ _ _ Hexec before after Heq).
Qed.

(** X24. Take a description whose rendering, followed by an
    empty line, holds no match of the marker, that is, neither [Demos:] or
    [API:] before an empty line nor [Demos:] or [API:] at its end. Then
    stripping the text of the comment block that the annotation generates
    gives the rendered description back, and when rendering leaves that text
    as it is, annotating again generates the same comment block. For every
    description the strip cuts at the first match of the marker and trims
    what is before it. *)
Theorem annotation_regenerated_unchanged (api : ReactApi.t) :
  let body := computeApiDescription (ReactApi.description api) HOST in
  (Regex.exec annotatedDescriptionRegex (body +:+ Js.LF +:+ Js.LF) = None ->
   stripAnnotation (annotatedDescription api) = body /\
   (computeApiDescription body HOST = body ->
    jsdoc (ReactApi.setDescription api (stripAnnotation (annotatedDescription api))) =
    jsdoc api)) /\
  (forall description,
      match Regex.exec annotatedDescriptionRegex description with
      | None => stripAnnotation description = description
      | Some _ =>
          exists before after,
            description = before +:+ after /\
            markerEnd after <> None /\
            (forall before1 before2,
                before = before1 +:+ before2 -> before2 <> "" ->
                markerEnd (before2 +:+ after) = None) /\
            stripAnnotation description = Js.trim before
      end).
Proof.
  intros body. split.
  - intros Hnone. pose proof (annotation_stripped api Hnone) as Hstrip.
    fold body in Hstrip. split; [exact Hstrip|].
    intros Hstable. apply jsdoc_same_rendering. rewrite Hstrip. exact Hstable.
  - intros description. pose proof (stripAnnotation_first_marker description) as Hfirst.
    destruct (Regex.exec annotatedDescriptionRegex description);
      [exact Hfirst | exact (proj1 Hfirst)].
Qed.

End Properties.

(** ** More properties

    Properties of the functions of the module beyond those above, with the
    facts about strings, the matcher and objects that they need. *)

Section SearchFacts.

Lemma execFrom_refused (r : Regex.regex) (i : nat) (s : string) :
  (forall pre post, s = pre +:+ post -> attempt r post = None) ->
  Regex.execFrom r i s = None.
Proof.
  revert i. induction s as [|a s IH]; intros i Hnone.
  - pose proof (Hnone "" "" eq_refl) as Hhere. unfold attempt in Hhere.
    cbn [Regex.execFrom]. now rewrite Hhere.
  - pose proof (Hnone "" (String a s) eq_refl) as Hhere. unfold attempt in Hhere.
    cbn [Regex.execFrom]. rewrite Hhere. apply IH.
    intros pre post ->. now apply (Hnone (String a pre) post).
Qed.

Lemma execFrom_matched (r : Regex.regex) (i : nat) (s : string) (m : Regex.result) :
  Regex.execFrom r i s = Some m ->
  exists pre post,
    s = pre +:+ post /\
    Regex.index m = i + String.length pre /\
    attempt r post = Some (Regex.rest m, Regex.groups m) /\
    Regex.matched m = Regex.consumed post (Regex.rest m) /\
    forall pre1 pre2,
      pre = pre1 +:+ pre2 -> pre2 <> "" -> attempt r (pre2 +:+ post) = None.
Proof.
  revert i. induction s as [|a s IH]; intros i Hexec.
  - cbn [Regex.execFrom] in Hexec.
    destruct (Regex.run r "" [] _) as [[s' c]|] eqn:Hrun; [|discriminate].
    injection Hexec as <-. exists "", "".
    repeat split; [simpl; lia | exact Hrun|].
    intros [|x pre1] pre2 Heq Hne; [|discriminate].
    change ("" +:+ pre2) with pre2 in Heq. congruence.
  - cbn [Regex.execFrom] in Hexec.
    destruct (Regex.run r (String a s) [] _) as [[s' c]|] eqn:Hrun.
    + injection Hexec as <-. exists "", (String a s).
      repeat split; [simpl; lia | exact Hrun|].
      intros [|x pre1] pre2 Heq Hne; [|discriminate].
      change ("" +:+ pre2) with pre2 in Heq. congruence.
    + destruct (IH _ Hexec) as (pre & post & -> & Hindex & Hpost & Hmatched & Hfirst).
      exists (String a pre), post.
      repeat split; [simpl; lia | exact Hpost | exact Hmatched|].
      intros [|x pre1] pre2 Heq Hne.
      * change ("" +:+ pre2) with pre2 in Heq. subst pre2. exact Hrun.
      * change (String x pre1 +:+ pre2) with (String x (pre1 +:+ pre2)) in Heq.
        injection Heq as _ Heq. now apply Hfirst with pre1.
Qed.

Lemma attempt_Lit (p s : string) :
  attempt (Regex.Lit p) s =
  match Js.stripPrefix p s with
  | Some s' => Some (s', [])
  | None => None
  end.
Proof. reflexivity. Qed.

Lemma stripPrefix_extend (p b r q : string) :
  Js.stripPrefix p b = Some r -> Js.stripPrefix p (b +:+ q) = Some (r +:+ q).
Proof.
  intros Hb. apply stripPrefix_Some in Hb as ->.
  rewrite append_assoc. apply stripPrefix_append.
Qed.

Lemma forwardSlashes_append (a b : string) :
  forwardSlashes (a +:+ b) = forwardSlashes a +:+ forwardSlashes b.
Proof.
  induction a as [|x a IH]; [reflexivity|].
  change (String x a +:+ b) with (String x (a +:+ b)).
  cbn [forwardSlashes]. now rewrite IH.
Qed.

Lemma forwardSlashes_idem (s : string) :
  forwardSlashes (forwardSlashes s) = forwardSlashes s.
Proof.
  induction s as [|x s IH]; [reflexivity|].
  cbn [forwardSlashes]. rewrite IH.
  destruct (Ascii.eqb x "092") eqn:E; [reflexivity|]. now rewrite E.
Qed.

Lemma forwardSlashes_length (s : string) :
  String.length (forwardSlashes s) = String.length s.
Proof. induction s as [|x s IH]; [reflexivity|]. cbn. now rewrite IH. Qed.

Lemma forwardSlashes_plain (pre post : string) :
  (forall pre1 pre2,
      pre = pre1 +:+ pre2 -> pre2 <> "" ->
      Js.stripPrefix "\" (pre2 +:+ post) = None) ->
  forwardSlashes pre = pre.
Proof.
  induction pre as [|x pre IH]; intros Hplain; [reflexivity|].
  cbn [forwardSlashes]. rewrite IH.
  - pose proof (Hplain "" (String x pre) eq_refl ltac:(discriminate)) as Hx.
    change (String x pre +:+ post) with (String x (pre +:+ post)) in Hx.
    rewrite stripPrefix_cons in Hx.
    destruct (Ascii.eqb x "092") eqn:E; [|reflexivity].
    rewrite Ascii.eqb_sym, E, stripPrefix_nil in Hx. discriminate.
  - intros pre1 pre2 -> Hne. now apply (Hplain (String x pre1) pre2).
Qed.

Lemma forwardSlashes_no_backslash (s : string) : ~ occursIn "\" (forwardSlashes s).
Proof.
  induction s as [|x s IH]; intros (before & after & Heq).
  - destruct before; discriminate.
  - destruct before as [|b before].
    + cbn in Heq. injection Heq as Hx _.
      destruct (Ascii.eqb x "092") eqn:E; [discriminate|].
      apply Ascii.eqb_neq in E. congruence.
    + cbn [forwardSlashes] in Heq.
      change (String b before +:+ "\" +:+ after)
        with (String b (before +:+ "\" +:+ after)) in Heq.
      injection Heq as _ Heq. apply IH. now exists before, after.
Qed.

End SearchFacts.

Section TrimFacts.

Lemma trimStart_suffix (s : string) : exists p, s = p +:+ Js.trimStart s.
Proof.
  induction s as [|a s [p IH]]; [now exists ""|].
  cbn [Js.trimStart]. destruct (Js.isWhiteSpace a).
  - exists (String a p).
    change (String a s = String a (p +:+ Js.trimStart s)). now rewrite <- IH.
  - now exists "".
Qed.

Lemma trimEnd_prefix (s : string) : exists q, s = Js.trimEnd s +:+ q.
Proof.
  induction s as [|a s [q IH]]; [now exists ""|].
  cbn [Js.trimEnd]. destruct (Js.trimEnd s) as [|b t] eqn:E.
  - destruct (Js.isWhiteSpace a).
    + now exists (String a s).
    + exists s. reflexivity.
  - exists q. change (String a s = String a (String b t +:+ q)). now rewrite <- IH.
Qed.

Lemma trim_substring (s : string) : exists p q, s = p +:+ Js.trim s +:+ q.
Proof.
  destruct (trimStart_suffix s) as [p Hp].
  destruct (trimEnd_prefix (Js.trimStart s)) as [q Hq].
  exists p, q. unfold Js.trim. now rewrite <- Hq.
Qed.

Lemma lineEnd_extend (b r q : string) :
  lineEnd b = Some r -> lineEnd (b +:+ q) = Some (r +:+ q).
Proof.
  unfold lineEnd. destruct (Js.stripPrefix Js.CR b) as [s1|] eqn:Hcr.
  - intros Hlf. rewrite (stripPrefix_extend _ _ _ q Hcr).
    now apply stripPrefix_extend.
  - intros Hlf. pose proof (stripPrefix_extend _ _ _ q Hlf) as Hext.
    apply stripPrefix_Some in Hlf. subst b. cbn in Hext |- *. exact Hext.
Qed.

Lemma markerEnd_append (b r q : string) :
  markerEnd b = Some r -> markerEnd (b +:+ q) = Some (r +:+ q).
Proof.
  assert (Hcolon : forall b r, afterColon b = Some r ->
                               afterColon (b +:+ q) = Some (r +:+ q)).
  { intros b0 r0. unfold afterColon.
    destruct (Js.stripPrefix ":" b0) as [s1|] eqn:H1; [|discriminate].
    rewrite (stripPrefix_extend _ _ _ q H1).
    destruct (lineEnd s1) as [s2|] eqn:H2; [|discriminate].
    rewrite (lineEnd_extend _ _ q H2). apply lineEnd_extend. }
  unfold markerEnd.
  destruct (Js.stripPrefix "Demos" b) as [s1|] eqn:Hdemos.
  - rewrite (stripPrefix_extend _ _ _ q Hdemos).
    destruct (afterColon s1) as [s2|] eqn:Hs1.
    + rewrite (Hcolon _ _ Hs1). now intros [= <-].
    + apply stripPrefix_Some in Hdemos. subst b.
      cbn. discriminate.
  - destruct (Js.stripPrefix "API" b) as [s1|] eqn:Hapi; [|discriminate].
    intros Hs1. apply stripPrefix_Some in Hapi. subst b.
    rewrite append_assoc. cbn. apply (Hcolon _ _ Hs1).
Qed.

End TrimFacts.

Section MoreObjFacts.
Context {V : Type}.

Lemma get_In (k : string) (v : V) (o : Obj.t V) : Obj.get k o = Some v -> In (k, v) o.
Proof.
  induction o as [|[k' v'] o IH]; [discriminate|].
  cbn [Obj.get]. destruct (String.eqb_spec k' k) as [->|Hne].
  - intros [= ->]. now left.
  - intros Hget. right. now apply IH.
Qed.

Lemma In_get (k : string) (o : Obj.t V) :
  In k (Obj.keys o) <-> exists v, Obj.get k o = Some v.
Proof.
  induction o as [|[k' v'] o IH]; cbn [Obj.get Obj.keys map In fst].
  - split; [intros [] | intros [v [=]]].
  - destruct (String.eqb_spec k' k) as [->|Hne].
    + split; eauto.
    + rewrite <- IH. unfold Obj.keys. tauto.
Qed.

Lemma In_get_unique (k : string) (v : V) (o : Obj.t V) :
  In (k, v) o -> (forall v', In (k, v') o -> v' = v) -> Obj.get k o = Some v.
Proof.
  induction o as [|[k' v'] o IH]; [intros []|].
  intros Hin Hunique. cbn [Obj.get].
  destruct (String.eqb_spec k' k) as [->|Hne].
  - f_equal. apply Hunique. now left.
  - destruct Hin as [[= -> ->]|Hin]; [congruence|].
    apply IH; [exact Hin|]. intros v'' Hin'. apply Hunique. now right.
Qed.

Lemma NoDup_keys_unique (k : string) (a b : V) (o : Obj.t V) :
  List.NoDup (Obj.keys o) -> In (k, a) o -> In (k, b) o -> a = b.
Proof.
  induction o as [|[k' v'] o IH]; [intros _ []|].
  cbn. intros Hnodup. apply NoDup_cons_iff in Hnodup as [Hfresh Hnodup].
  intros [Ha|Ha] [Hb|Hb].
  - congruence.
  - injection Ha as -> _. exfalso. apply Hfresh. apply in_map_iff. now exists (k, b).
  - injection Hb as -> _. exfalso. apply Hfresh. apply in_map_iff. now exists (k, a).
  - now apply IH.
Qed.

(** After a run of assignments a key holds the value assigned to it last,
    or what it held before. *)
Lemma get_fold_set (pairs : list (string * V)) (o : Obj.t V) (k : string) :
  Obj.get k (fold_left (fun o kv => Obj.set (fst kv) (snd kv) o) pairs o) =
  match Obj.get k (rev pairs) with
  | Some v => Some v
  | None => Obj.get k o
  end.
Proof.
  revert o. induction pairs as [|[k0 v0] pairs IH]; intros o; [reflexivity|].
  cbn [fold_left rev fst snd]. rewrite IH, get_append.
  destruct (Obj.get k (rev pairs)); [reflexivity|].
  destruct (String.eqb_spec k0 k) as [->|Hne].
  - apply get_set_eq.
  - apply get_set_ne. congruence.
Qed.

Lemma defined_In (o : Obj.t (option V)) (k : string) (v : V) :
  In (k, Some v) o -> In (k, v) (defined o).
Proof.
  induction o as [|[k' [v'|]] o IH]; [intros []| |]; cbn.
  - intros [[= -> ->]|Hin]; [now left | right; now apply IH].
  - intros [[=]|Hin]. now apply IH.
Qed.

Lemma delete_In (k : string) (o : Obj.t V) (kv : string * V) :
  In kv o -> fst kv <> k -> In kv (Obj.delete k o).
Proof.
  intros Hin Hne. unfold Obj.delete. apply filter_In. split; [exact Hin|].
  now destruct (String.eqb_spec (fst kv) k).
Qed.

End MoreObjFacts.

Section MoreRegexFacts.

Lemma execFrom_Some_iff (r : Regex.regex) (i : nat) (s : string) :
  (exists m, Regex.execFrom r i s = Some m) <->
  exists pre post, s = pre +:+ post /\ attempt r post <> None.
Proof.
  split.
  - intros [m Hexec].
    apply execFrom_matched in Hexec as (pre & post & -> & _ & Hpost & _).
    exists pre, post. split; [reflexivity | congruence].
  - intros (pre & post & -> & Hpost).
    destruct (Regex.execFrom r i (pre +:+ post)) as [m|] eqn:Hexec; [eauto|].
    exfalso. apply Hpost. exact (execFrom_None _ _ _ Hexec pre post eq_refl).
Qed.

Lemma greedyRun_cons {R} (p : ascii -> bool) (k : string -> option R)
    (a : ascii) (s : string) :
  Regex.greedyRun p k (String a s) =
  if p a then
    match Regex.greedyRun p k s with
    | Some x => Some x
    | None => k (String a s)
    end
  else k (String a s).
Proof. reflexivity. Qed.

(** A greedy run takes every unit of the class that it finds, when the
    continuation accepts what follows them. *)
Lemma greedyRun_maximal {R} (p : ascii -> bool) (k : string -> option R)
    (units rest : string) (x : R) :
  Js.allUnits p units = true ->
  match rest with String a _ => p a = false | EmptyString => True end ->
  k rest = Some x ->
  Regex.greedyRun p k (units +:+ rest) = Some x.
Proof.
  intros Hunits Hrest Hk. induction units as [|a units IH].
  - change ("" +:+ rest) with rest. destruct rest as [|b rest].
    + exact Hk.
    + now rewrite greedyRun_cons, Hrest.
  - cbn [Js.allUnits] in Hunits. apply andb_true_iff in Hunits as [Ha Hunits].
    change (String a units +:+ rest) with (String a (units +:+ rest)).
    now rewrite greedyRun_cons, Ha, IH.
Qed.

Lemma stripPrefix_head (a b : ascii) (p s : string) :
  Ascii.eqb a b = false -> Js.stripPrefix (String a p) (String b s) = None.
Proof. intros Hne. now rewrite stripPrefix_cons, Hne. Qed.

End MoreRegexFacts.

Section MoreProperties.
Context `{Imports}.

Lemma replaceAllFuel_backslash (fuel : nat) (s : string) :
  String.length s < fuel ->
  Regex.replaceAllFuel fuel (Regex.Lit BACKSLASH) "/" s = forwardSlashes s.
Proof.
  revert s. induction fuel as [|fuel IH]; intros s Hfuel; [lia|].
  cbn [Regex.replaceAllFuel].
  destruct (Regex.exec (Regex.Lit BACKSLASH) s) as [m|] eqn:Hexec.
  - apply execFrom_matched in Hexec
      as (pre & post & -> & Hindex & Hpost & Hmatched & Hfirst).
    rewrite attempt_Lit in Hpost.
    destruct (Js.stripPrefix BACKSLASH post) as [rest|] eqn:Hstrip; [|discriminate].
    injection Hpost as Hrest Hgroups.
    apply stripPrefix_Some in Hstrip. subst post.
    rewrite <- Hrest in Hmatched. rewrite consumed_append in Hmatched.
    rewrite Hmatched, Hindex, <- Hrest. cbn [plus].
    rewrite take_append.
    change (Regex.substitution m (Regex.groupCount (Regex.Lit BACKSLASH)) "/") with "/".
    cbn iota. unfold BACKSLASH at 1.
    rewrite IH.
    + rewrite forwardSlashes_append.
      rewrite (forwardSlashes_plain pre (BACKSLASH +:+ rest)).
      * reflexivity.
      * intros pre1 pre2 Hpre Hne. specialize (Hfirst pre1 pre2 Hpre Hne).
        rewrite attempt_Lit in Hfirst.
        destruct (Js.stripPrefix BACKSLASH _) eqn:E in Hfirst; [discriminate|].
        exact E.
    + rewrite !length_append in Hfuel. simpl in Hfuel. lia.
  - symmetry. apply (forwardSlashes_plain s "").
    intros pre1 pre2 -> Hne.
    pose proof (execFrom_None _ _ _ Hexec pre1 pre2 eq_refl) as Hnone.
    rewrite attempt_Lit in Hnone. rewrite append_empty_r.
    destruct (Js.stripPrefix BACKSLASH pre2) eqn:E; [discriminate|]. exact E.
Qed.

Lemma normalizeSlashes_forwardSlashes (s : string) :
  normalizeSlashes s = forwardSlashes s.
Proof. apply replaceAllFuel_backslash. lia. Qed.

(** X1. [toGitHubPath] returns a slash followed by the path relative to
    the working directory in which every backslash has become a slash, unit
    for unit; the result holds no backslash, and normalising its slashes
    again changes nothing. *)
Theorem toGitHubPath_forward_slashes (filepath : string) :
  toGitHubPath filepath = "/" +:+ forwardSlashes (pathRelative cwd filepath) /\
  String.length (toGitHubPath filepath) =
    S (String.length (pathRelative cwd filepath)) /\
  ~ occursIn BACKSLASH (toGitHubPath filepath) /\
  normalizeSlashes (toGitHubPath filepath) = toGitHubPath filepath.
Proof.
  unfold toGitHubPath. rewrite !normalizeSlashes_forwardSlashes.
  repeat split.
  - rewrite length_append, forwardSlashes_length. reflexivity.
  - apply (forwardSlashes_no_backslash (String "092" (pathRelative cwd filepath))).
  - change ("/" +:+ forwardSlashes (pathRelative cwd filepath))
      with (String "/" (forwardSlashes (pathRelative cwd filepath))).
    cbn [forwardSlashes]. cbn. now rewrite forwardSlashes_idem.
Qed.

Lemma stripAnnotation_no_marker (description : string) :
  Regex.exec annotatedDescriptionRegex (stripAnnotation description) = None.
Proof.
  pose proof (stripAnnotation_first_marker description) as Hfirst.
  destruct (Regex.exec annotatedDescriptionRegex description) as [m|] eqn:Hexec.
  - destruct Hfirst as (before & after & -> & Hafter & Hbefore & ->).
    apply execFrom_refused. intros pre post Hsplit.
    apply attempt_markerEnd.
    destruct (trim_substring before) as (p & q & Htrim).
    destruct (markerEnd post) as [r|] eqn:Hpost; [|reflexivity].
    exfalso.
    assert (Hne : post +:+ q <> "").
    { destruct post; [discriminate Hpost | discriminate]. }
    pose proof (markerEnd_append _ _ (q +:+ after) Hpost) as Hext.
    rewrite <- append_assoc in Hext.
    rewrite (Hbefore (p +:+ pre) (post +:+ q)) in Hext; [discriminate| |exact Hne].
    rewrite Htrim at 1. rewrite Hsplit. now rewrite !append_assoc.
  - destruct Hfirst as [-> _]. exact Hexec.
Qed.

(** X2. What [stripAnnotation] returns holds no marker of the annotation
    ([Demos:] or [API:] followed by two line ends), so stripping it again
    changes nothing. *)
Theorem stripAnnotation_idempotent (description : string) :
  Regex.exec annotatedDescriptionRegex (stripAnnotation description) = None /\
  stripAnnotation (stripAnnotation description) = stripAnnotation description.
Proof.
  pose proof (stripAnnotation_no_marker description) as Hnone.
  split; [exact Hnone|].
  unfold stripAnnotation at 1. now rewrite Hnone.
Qed.

Lemma FileSystem_eq (a b : FileSystem) :
  (forall p, files a !! p = files b !! p) -> directories a = directories b -> a = b.
Proof.
  destruct a as [fa da], b as [fb db]. cbn. intros Hfiles ->.
  f_equal. now apply map_eq.
Qed.

Lemma writeFileSync_Return (path data : string) (fs fs' : FileSystem) :
  writeFileSync path data FlagW fs = (fs', Return tt) ->
  fs' = withFile fs path data /\ writable (directories fs) path = true.
Proof.
  intros Hwrite. destruct (writable (directories fs) path) eqn:Hwritable.
  - rewrite (writeFileSync_writable _ _ _ Hwritable) in Hwrite.
    injection Hwrite as <-. now split.
  - destruct (writeFileSync_refused path data fs Hwritable) as [error Hthrow].
    congruence.
Qed.

(** X3. A run of [generateApiTranslations] that does not throw leaves the
    directory of the component in place, and the function is idempotent
    from there: run again on the file system it left, it does not throw
    and leaves that file system as it is. *)
Theorem generateApiTranslations_idempotent (outputDirectory : string)
    (reactApi : ReactApi.t) (languages : list string) (fs fs' : FileSystem) :
  generateApiTranslations outputDirectory reactApi languages fs = (fs', Return tt) ->
  pathResolve outputDirectory (kebabCase (ReactApi.name reactApi)) ∈ directories fs' /\
  generateApiTranslations outputDirectory reactApi languages fs' = (fs', Return tt).
Proof.
  unfold generateApiTranslations.
  set (directory := pathResolve outputDirectory (kebabCase (ReactApi.name reactApi))).
  set (path :=
         resolveApiDocsTranslationsComponentLanguagePath directory (ReactApi.name reactApi)).
  set (data := stringifyTranslations (ReactApi.translations reactApi)).
  unfold mbind, io_bind, ioBind, writePrettifiedFile at 1 3.
  destruct (mkdirSync directory fs) as [fs1 [[]|error]] eqn:Hmkdir; [|intros [=]].
  apply mkdirSync_Return in Hmkdir as (_ & _ & Hin1).
  destruct (writeFileSync (path "en") (prettify data) FlagW fs1)
    as [fs2 [[]|error]] eqn:Hwrite; [|intros [=]].
  apply writeFileSync_Return in Hwrite as (-> & Hwritable).
  set (fs2 := withFile fs1 (path "en") (prettify data)).
  destruct (forEach_language_files path data languages fs2)
    as (fs3 & Hrun1 & Hdirs1 & Hfiles1).
  rewrite Hrun1. intros [= <-].
  assert (Hdirs : directories fs3 = directories fs1) by exact Hdirs1.
  assert (Hin : directory ∈ directories fs3) by now rewrite Hdirs.
  split; [exact Hin|].
  unfold mkdirSync. rewrite (bool_decide_eq_true_2 _ Hin).
  rewrite <- Hdirs in Hwritable.
  rewrite (writeFileSync_writable _ _ _ Hwritable).
  destruct (forEach_language_files path data languages
              (withFile fs3 (path "en") (prettify data)))
    as (fs4 & Hrun2 & Hdirs2 & Hfiles2).
  rewrite Hrun2. f_equal. apply FileSystem_eq; [|exact Hdirs2].
  intros p. rewrite Hfiles2. cbn [withFile files directories].
  destruct (String.eqb_spec (path "en") p) as [<-|Hp].
  - rewrite lookup_insert_eq, Hfiles1. unfold fs2. cbn [withFile files].
    now rewrite lookup_insert_eq.
  - rewrite lookup_insert_ne by exact Hp.
    destruct (files fs3 !! p) as [content|] eqn:Hold; [reflexivity|].
    rewrite Hfiles1 in Hold. rewrite Hdirs.
    destruct (files fs2 !! p); [discriminate|].
    change (directories fs2) with (directories fs1) in Hold.
    destruct (existsb _ languages && writable (directories fs1) p);
      [discriminate | reflexivity].
Qed.

Lemma attachPropsTable_Return (reactApi reactApi' : ReactApi.t) :
  attachPropsTable reactApi = Return reactApi' ->
  reactApi' = ReactApi.setPropsTable reactApi (ReactApi.propsTable reactApi') /\
  ~ In "undefined" (Obj.keys (ReactApi.propsTable reactApi')).
Proof.
  unfold attachPropsTable.
  destruct (0 <? length _); [discriminate|].
  intros [= <-]. split; [reflexivity|].
  cbn [ReactApi.setPropsTable ReactApi.propsTable].
  intros Hin. apply in_map_iff in Hin as ([k v] & Hk & Hin). cbn in Hk. subst k.
  apply In_defined, In_delete in Hin as [_ Hne]. now apply Hne.
Qed.

(** X4. [generateComponentApi] writes nothing before the props are
    described: a component that is skipped yields [null], and an error of
    the parser or of [attachPropsTable] is thrown as it is, with the file
    system as it was. *)
Theorem generateComponentApi_aborts_before_writing (componentInfo : ComponentInfo.t)
    (project : TypeScriptProject) (projectSettings : ProjectSettings.t)
    (fs : FileSystem) :
  let file := ComponentInfo.readFile componentInfo in
  let filename := ComponentInfo.filename componentInfo in
  (ReadFile.shouldSkip file = true ->
   generateComponentApi componentInfo project projectSettings fs = (fs, Return None)) /\
  (ReadFile.shouldSkip file = false ->
   (forall error,
       parseComponent componentInfo (ReadFile.src file) filename = Throw error ->
       generateComponentApi componentInfo project projectSettings fs = (fs, Throw error)) /\
   (forall docgen testInfo error,
       parseComponent componentInfo (ReadFile.src file) filename = Return docgen ->
       ComponentInfo.getDemos componentInfo <> [] ->
       parseTest filename = Return testInfo ->
       attachPropsTable (assembleReactApi componentInfo project docgen testInfo) =
         Throw error ->
       generateComponentApi componentInfo project projectSettings fs =
         (fs, Throw error))).
Proof.
  intros file filename. unfold generateComponentApi. fold file filename.
  split; [intros ->; reflexivity|].
  intros ->. unfold mbind, io_bind, ioBind, ioLift. split.
  - intros error ->. reflexivity.
  - intros docgen testInfo error -> Hdemos Htest Hattach.
    destruct (ComponentInfo.getDemos componentInfo) as [|demo demos]; [congruence|].
    cbn [length Nat.eqb]. now rewrite Htest, Hattach.
Qed.

(** X5. With [skipApiGeneration] set, [generateComponentApi] leaves the
    file system as it was, whatever its outcome; the API it returns is the
    one it returns otherwise. *)
Theorem skipApiGeneration_writes_nothing (componentInfo : ComponentInfo.t)
    (project : TypeScriptProject) (projectSettings : ProjectSettings.t)
    (fs : FileSystem) :
  ComponentInfo.skipApiGeneration componentInfo = true ->
  (forall fs' outcome,
      generateComponentApi componentInfo project projectSettings fs = (fs', outcome) ->
      fs' = fs) /\
  (forall docgen testInfo reactApi,
      ReadFile.shouldSkip (ComponentInfo.readFile componentInfo) = false ->
      parseComponent componentInfo
        (ReadFile.src (ComponentInfo.readFile componentInfo))
        (ComponentInfo.filename componentInfo) = Return docgen ->
      ComponentInfo.getDemos componentInfo <> [] ->
      parseTest (ComponentInfo.filename componentInfo) = Return testInfo ->
      attachPropsTable (assembleReactApi componentInfo project docgen testInfo) =
        Return reactApi ->
      generateComponentApi componentInfo project projectSettings fs =
        (fs, Return (Some (attachTranslations reactApi)))).
Proof.
  intros Hskip. unfold generateComponentApi, emitArtifacts. rewrite Hskip. cbn [negb].
  unfold mbind, io_bind, ioBind, ioLift, mret, io_ret, ioReturn, ioThrow. split.
  - intros fs' outcome.
    destruct (ReadFile.shouldSkip _); [now intros [= <- _]|].
    destruct (parseComponent _ _ _) as [docgen|error]; [|now intros [= <- _]].
    destruct (length (ComponentInfo.getDemos componentInfo) =? 0); [now intros [= <- _]|].
    destruct (parseTest _) as [testInfo|error]; [|now intros [= <- _]].
    destruct (attachPropsTable _) as [reactApi|error]; now intros [= <- _].
  - intros docgen testInfo reactApi -> -> Hdemos -> ->.
    destruct (ComponentInfo.getDemos componentInfo); [congruence | reflexivity].
Qed.

(** X6. The API that [generateComponentApi] returns has at least one demo,
    carries the name and the file name of the component and the imports
    computed from them, has a description without marker of the annotation,
    which is also the component description of its translations, and has no
    prop named [undefined] in its props table. *)
Theorem generateComponentApi_returns_consistent_api (componentInfo : ComponentInfo.t)
    (project : TypeScriptProject) (projectSettings : ProjectSettings.t)
    (fs fs' : FileSystem) (reactApi : ReactApi.t) :
  generateComponentApi componentInfo project projectSettings fs =
    (fs', Return (Some reactApi)) ->
  ReactApi.demos reactApi = ComponentInfo.getDemos componentInfo /\
  ReactApi.demos reactApi <> [] /\
  ReactApi.name reactApi = ComponentInfo.name componentInfo /\
  ReactApi.filename reactApi = ComponentInfo.filename componentInfo /\
  ReactApi.imports reactApi =
    getComponentImports (ComponentInfo.name componentInfo)
      (ComponentInfo.filename componentInfo) /\
  Regex.exec annotatedDescriptionRegex (ReactApi.description reactApi) = None /\
  Translations.componentDescription (ReactApi.translations reactApi) =
    ReactApi.description reactApi /\
  ~ In "undefined" (Obj.keys (ReactApi.propsTable reactApi)).
Proof.
  unfold generateComponentApi.
  unfold mbind, io_bind, ioBind, ioLift, mret, io_ret, ioReturn, ioThrow.
  destruct (ReadFile.shouldSkip _); [discriminate|].
  destruct (parseComponent _ _ _) as [docgen|error]; [|discriminate].
  destruct (ComponentInfo.getDemos componentInfo) as [|demo demos] eqn:Hdemos;
    [discriminate|].
  cbn [length Nat.eqb].
  destruct (parseTest _) as [testInfo|error]; [|discriminate].
  destruct (attachPropsTable _) as [attached|error] eqn:Hattach; [|discriminate].
  destruct (emitArtifacts _ _ _ _) as [fs1 [[]|error]]; [|discriminate].
  intros [= _ <-].
  apply attachPropsTable_Return in Hattach as [Hattached Hundefined].
  rewrite Hattached in *. unfold assembleReactApi. rewrite Hdemos.
  destruct (parseSlotsAndClasses _ _ _) as [slots classes].
  cbn. repeat split; try congruence.
  - apply stripAnnotation_no_marker.
  - exact Hundefined.
Qed.

Lemma selectDefinition_cases (name : string) (node definition : option Ast.Expression)
    (e : Ast.Expression) :
  selectDefinition name node definition = Some e ->
  node = Some e \/
  exists init, definition = Some init /\ isCreateCall name (examined init).
Proof.
  unfold selectDefinition.
  destruct definition as [[callee [inner|]]|]; cbn.
  - destruct inner as [[c|] i]; auto.
    destruct (Ast.calleeName c) as [definitionName|] eqn:Hname; auto.
    destruct (String.eqb_spec definitionName ("create" +:+ name)) as [->|Hne]; auto.
    intros _. right. eexists. split; [reflexivity|]. cbn. now exists c, i.
  - destruct callee as [c|]; auto.
    destruct (Ast.calleeName c) as [definitionName|] eqn:Hname; auto.
    destruct (String.eqb_spec definitionName ("create" +:+ name)) as [->|Hne]; auto.
    intros _. right. eexists. split; [reflexivity|]. cbn. now exists c, None.
  - auto.
Qed.

Lemma selectDefinition_keeps (name : string) (e : Ast.Expression)
    (definition : option Ast.Expression) :
  exists e', selectDefinition name (Some e) definition = Some e'.
Proof.
  unfold selectDefinition.
  destruct (match definition with
            | Some (Ast.Expr _ (Some inner)) => Some inner
            | _ => definition
            end) as [[[c|] i]|]; eauto.
  destruct (Ast.calleeName c) as [definitionName|]; eauto.
  destruct (String.eqb definitionName ("create" +:+ name)); eauto.
Qed.

Lemma selectDefinition_selects (name : string) (node : option Ast.Expression)
    (init : Ast.Expression) :
  isCreateCall name (examined init) ->
  selectDefinition name node (Some init) = Some (examined init).
Proof.
  intros (callee & inner & Hexamined & Hname). unfold selectDefinition.
  destruct init as [c [i|]]; cbn in Hexamined |- *; subst.
  - now rewrite Hname, String.eqb_refl.
  - injection Hexamined as -> ->. now rewrite Hname, String.eqb_refl.
Qed.

Lemma declarations_keep (name : string) (definitions : list (option Ast.Expression))
    (e : Ast.Expression) :
  exists e', fold_left (selectDefinition name) definitions (Some e) = Some e'.
Proof.
  revert e. induction definitions as [|definition definitions IH]; intros e; [now exists e|].
  cbn [fold_left]. destruct (selectDefinition_keeps name e definition) as [e' ->].
  apply IH.
Qed.

Lemma visit_keeps (name : string) (ast : Ast.node) :
  forall e, exists e', visit name ast (Some e) = Some e'.
Proof.
  induction ast as [declarations|children IH] using node_induction; intros e.
  - apply declarations_keep.
  - cbn [visit]. revert e.
    induction IH as [|child children Hchild _ IHc]; intros e; [now exists e|].
    cbn [fold_left]. destruct (Hchild e) as [e' ->]. apply IHc.
Qed.

Lemma children_keep (name : string) (children : list Ast.node) (e : Ast.Expression) :
  exists e', fold_left (fun node child => visit name child node) children (Some e) = Some e'.
Proof.
  revert e. induction children as [|child children IH]; intros e; [now exists e|].
  cbn [fold_left]. destruct (visit_keeps name child e) as [e' ->]. apply IH.
Qed.

Lemma visit_finds (name : string) (ast : Ast.node) :
  declaresCreate name ast ->
  forall node, exists e, visit name ast node = Some e.
Proof.
  induction 1 as [declarations init Hin Hcall|children child Hin _ IH]; intros node.
  - cbn [visit]. change (default [] (Some declarations)) with declarations. revert node.
    induction declarations as [|definition definitions IHd]; intros node; [destruct Hin|].
    cbn [fold_left]. destruct Hin as [->|Hin]; [|now apply IHd].
    rewrite (selectDefinition_selects _ _ _ Hcall). apply declarations_keep.
  - cbn [visit]. revert node.
    induction children as [|c children IHc]; intros node; [destruct Hin|].
    cbn [fold_left]. destruct Hin as [->|Hin]; [|now apply IHc].
    destruct (IH node) as [e ->]. apply children_keep.
Qed.

Lemma visit_found (name : string) (ast : Ast.node) :
  forall node e,
    visit name ast node = Some e -> node <> None \/ declaresCreate name ast.
Proof.
  induction ast as [declarations|children IH] using node_induction; intros node e.
  - cbn [visit]. destruct declarations as [declarations|].
    + change (default [] (Some declarations)) with declarations. revert node.
      assert (Hgen : forall node,
                 fold_left (selectDefinition name) declarations node = Some e ->
                 node <> None \/
                 exists init, In (Some init) declarations /\
                              isCreateCall name (examined init)).
      { induction declarations as [|definition definitions IHd]; intros node.
        - cbn. intros ->. now left.
        - cbn [fold_left]. intros Hfold.
          destruct (IHd _ Hfold) as [Hnode|(init & Hin & Hcall)].
          + destruct (selectDefinition name node definition) as [e'|] eqn:Hsel;
              [|congruence].
            destruct (selectDefinition_cases _ _ _ _ Hsel) as [->|(init & -> & Hcall)].
            * now left.
            * right. exists init. split; [now left | exact Hcall].
          + right. exists init. split; [now right | exact Hcall]. }
      intros node Hfold. destruct (Hgen node Hfold) as [Hnode|(init & Hin & Hcall)].
      * now left.
      * right. now apply declares_here with init.
    + cbn. intros ->. now left.
  - cbn [visit]. revert node.
    induction IH as [|child children Hchild _ IHc]; intros node.
    + cbn. intros ->. now left.
    + cbn [fold_left]. intros Hfold.
      destruct (IHc _ Hfold) as [Hnode|Hbelow].
      * destruct (visit name child node) as [e'|] eqn:Hvisit; [|congruence].
        destruct (Hchild _ _ Hvisit) as [Hn|Hd]; [now left|].
        right. apply declares_below with child; [now left | exact Hd].
      * right. inversion Hbelow as [|children' c Hin Hc]; subst.
        apply declares_below with c; [now right | exact Hc].
Qed.

(** X7. The component finder returns a definition exactly when a variable
    declaration that the traversal reaches initialises a declarator with a
    call of [create<name>], directly or wrapped in another expression. *)
Theorem findCreateDefinition_complete (name : string) (ast : Ast.node) :
  (exists expression, findCreateDefinition name ast = Some expression) <->
  declaresCreate name ast.
Proof.
  unfold findCreateDefinition. split.
  - intros [expression Hvisit].
    destruct (visit_found _ _ _ _ Hvisit) as [Hnode|Hdeclares]; [congruence | exact Hdeclares].
  - intros Hdeclares. apply visit_finds. exact Hdeclares.
Qed.

Lemma attachPropsTable_described (reactApi reactApi' : ReactApi.t) (propName : string)
    (propDescriptor : PropDescriptor.t) (prop : Describeable.t) :
  attachPropsTable reactApi = Return reactApi' ->
  List.NoDup (Obj.keys (ReactApi.props reactApi)) ->
  In (propName, propDescriptor) (ReactApi.props reactApi) ->
  createDescribeableProp propDescriptor propName = Return (Some prop) ->
  propName <> "undefined" ->
  In (propName, propsTableEntry reactApi propName propDescriptor prop)
     (ReactApi.propsTable reactApi').
Proof.
  unfold attachPropsTable.
  destruct (0 <? length _); [discriminate|].
  intros [= <-] Hnodup Hin Hprop Hname. cbn [ReactApi.setPropsTable ReactApi.propsTable].
  apply defined_In, delete_In; [|exact Hname].
  apply get_In. unfold Obj.fromPairs. rewrite get_fold_set.
  unfold Obj.entries.
  set (pairs := map (fun r => asPair (fst r))
                    (map (describeProp reactApi) (ReactApi.props reactApi))).
  rewrite (In_get_unique propName
             (Some (propsTableEntry reactApi propName propDescriptor prop))); [reflexivity| |].
  - apply in_rev. rewrite rev_involutive. unfold pairs.
    apply in_map_iff. exists (describeProp reactApi (propName, propDescriptor)).
    split; [|apply in_map; exact Hin].
    unfold describeProp. now rewrite Hprop.
  - intros v' Hv'. apply in_rev in Hv'. unfold pairs in Hv'.
    apply in_map_iff in Hv' as (described & Hpair & Hdescribed).
    apply in_map_iff in Hdescribed as ([name' descriptor'] & <- & Hin').
    unfold describeProp in Hpair.
    destruct (createDescribeableProp descriptor' name') as [[prop'|]|error] eqn:Hprop';
      cbn in Hpair; try congruence.
    injection Hpair as -> <-.
    pose proof (NoDup_keys_unique _ _ _ _ Hnodup Hin Hin') as <-.
    congruence.
Qed.

Lemma propDescriptions_other (entries : list (string * PropDescriptor.t))
    (o : Obj.t PropTranslation.t) (propName : string) :
  ~ In propName (Obj.keys entries) ->
  Obj.get propName
    (fold_left
       (fun o entry =>
          let '(propName, propDescriptor) := entry in
          match createDescribeableProp propDescriptor propName with
          | Return (Some prop) => Obj.set propName (propTranslation prop propName) o
          | Return None | Throw _ => o
          end)
       entries o) = Obj.get propName o.
Proof.
  revert o. induction entries as [|[k d] entries IH]; intros o Hnot; [reflexivity|].
  cbn [fold_left]. cbn in Hnot. rewrite IH by tauto.
  destruct (createDescribeableProp d k) as [[prop|]|error]; try reflexivity.
  apply get_set_ne. intros ->. tauto.
Qed.

Lemma propDescriptions_get (entries : list (string * PropDescriptor.t))
    (o : Obj.t PropTranslation.t) (propName : string) (propDescriptor : PropDescriptor.t) :
  List.NoDup (Obj.keys entries) ->
  In (propName, propDescriptor) entries ->
  Obj.get propName
    (fold_left
       (fun o entry =>
          let '(propName, propDescriptor) := entry in
          match createDescribeableProp propDescriptor propName with
          | Return (Some prop) => Obj.set propName (propTranslation prop propName) o
          | Return None | Throw _ => o
          end)
       entries o) =
  match createDescribeableProp propDescriptor propName with
  | Return (Some prop) => Some (propTranslation prop propName)
  | Return None | Throw _ => Obj.get propName o
  end.
Proof.
  revert o. induction entries as [|[k d] entries IH]; intros o Hnodup Hin; [destruct Hin|].
  cbn in Hnodup. apply NoDup_cons_iff in Hnodup as [Hfresh Hnodup].
  cbn [fold_left]. destruct Hin as [[= -> ->]|Hin].
  - rewrite propDescriptions_other by exact Hfresh.
    destruct (createDescribeableProp propDescriptor propName) as [[prop|]|error];
      try reflexivity.
    apply get_set_eq.
  - rewrite IH by assumption.
    destruct (createDescribeableProp propDescriptor propName) as [[prop|]|error];
      try reflexivity;
      destruct (createDescribeableProp d k) as [[prop'|]|error']; try reflexivity;
      apply get_set_ne; intros ->; apply Hfresh, in_map_iff;
      now exists (k, propDescriptor).
Qed.

(** X8. [attachTranslations] translates the props that
    [createDescribeableProp] accepts and passes over the others without
    failing: a prop for which it throws or returns [null], like a name that
    is no prop, has no entry. The component description of the translations
    is the description, the slot descriptions are left out exactly when
    there is no slot, and the props and the props table are as they
    were. *)
Theorem attachTranslations_describes_accepted_props (reactApi : ReactApi.t)
    (propName : string) :
  List.NoDup (Obj.keys (ReactApi.props reactApi)) ->
  let translations := ReactApi.translations (attachTranslations reactApi) in
  (forall propDescriptor,
      In (propName, propDescriptor) (ReactApi.props reactApi) ->
      Obj.get propName (Translations.propDescriptions translations) =
      match createDescribeableProp propDescriptor propName with
      | Return (Some prop) => Some (propTranslation prop propName)
      | Return None | Throw _ => None
      end) /\
  (~ In propName (Obj.keys (ReactApi.props reactApi)) ->
   Obj.get propName (Translations.propDescriptions translations) = None) /\
  Translations.componentDescription translations = ReactApi.description reactApi /\
  (Translations.slotDescriptions translations = None <-> ReactApi.slots reactApi = []) /\
  ReactApi.props (attachTranslations reactApi) = ReactApi.props reactApi /\
  ReactApi.propsTable (attachTranslations reactApi) = ReactApi.propsTable reactApi.
Proof.
  intros Hnodup translations. unfold translations, attachTranslations.
  cbn [ReactApi.setTranslations ReactApi.translations Translations.propDescriptions
       Translations.componentDescription Translations.slotDescriptions ReactApi.props
       ReactApi.propsTable].
  unfold Obj.entries. repeat split.
  - intros propDescriptor Hin. now rewrite (propDescriptions_get _ _ _ _ Hnodup Hin).
  - intros Hnot. now rewrite propDescriptions_other.
  - destruct (ReactApi.slots reactApi); [reflexivity | discriminate].
  - now intros ->.
Qed.

(** X9. Once [attachPropsTable] has succeeded, the props table and the
    prop descriptions of the translations have the same names, the name
    [undefined] apart, which the props table never has: each is a prop for
    which [createDescribeableProp] returned a descriptor. *)
Theorem props_table_matches_translations (reactApi reactApi' : ReactApi.t)
    (propName : string) :
  attachPropsTable reactApi = Return reactApi' ->
  List.NoDup (Obj.keys (ReactApi.props reactApi)) ->
  let described :=
    exists propDescriptor prop,
      In (propName, propDescriptor) (ReactApi.props reactApi) /\
      createDescribeableProp propDescriptor propName = Return (Some prop) in
  let translated :=
    In propName
       (Obj.keys (Translations.propDescriptions
                    (ReactApi.translations (attachTranslations reactApi')))) in
  (In propName (Obj.keys (ReactApi.propsTable reactApi')) <->
   described /\ propName <> "undefined") /\
  (translated <-> described).
Proof.
  intros Hattach Hnodup described translated.
  pose proof (attachPropsTable_Return _ _ Hattach) as [Hsame Hundefined].
  split.
  - split.
    + intros Hin. split; [|congruence].
      apply in_map_iff in Hin as ([name entry] & Hname & Hin). cbn in Hname. subst name.
      destruct (attachPropsTable_entries _ _ _ _ Hattach Hin)
        as (propDescriptor & prop & Hprop & Hcreate & _).
      now exists propDescriptor, prop.
    + intros [(propDescriptor & prop & Hprop & Hcreate) Hname].
      apply in_map_iff.
      exists (propName, propsTableEntry reactApi propName propDescriptor prop).
      split; [reflexivity|]. now apply attachPropsTable_described.
  - unfold translated. rewrite In_get. rewrite Hsame.
    unfold attachTranslations.
    cbn [ReactApi.setTranslations ReactApi.translations Translations.propDescriptions
         ReactApi.setPropsTable ReactApi.props].
    unfold Obj.entries. split.
    + intros [translation Hget].
      destruct (in_dec string_dec propName (Obj.keys (ReactApi.props reactApi)))
        as [Hin|Hnot].
      * apply in_map_iff in Hin as ([name propDescriptor] & Hname & Hin).
        cbn in Hname. subst name.
        rewrite (propDescriptions_get _ _ _ _ Hnodup Hin) in Hget.
        destruct (createDescribeableProp propDescriptor propName) as [[prop|]|error] eqn:E;
          try discriminate.
        now exists propDescriptor, prop.
      * rewrite propDescriptions_other in Hget by exact Hnot. discriminate.
    + intros (propDescriptor & prop & Hin & Hcreate).
      rewrite (propDescriptions_get _ _ _ _ Hnodup Hin), Hcreate. eauto.
Qed.

Lemma attempt_deprecatedRegex (s : string) :
  attempt deprecatedRegex s <> None <-> Js.stripPrefix "@deprecated" s <> None.
Proof.
  unfold attempt, deprecatedRegex. rewrite run_Seq. cbn [Regex.run].
  destruct (Js.stripPrefix "@deprecated" s) as [s'|]; [|tauto].
  match goal with
  | |- context [match ?inner with Some x => Some x | None => Some ?y end] =>
      destruct inner
  end; split; congruence.
Qed.

Lemma test_deprecatedRegex (s : string) :
  (exists m, Regex.exec deprecatedRegex s = Some m) <-> occursIn "@deprecated" s.
Proof.
  unfold Regex.exec. rewrite execFrom_Some_iff. split.
  - intros (pre & post & -> & Hpost). apply attempt_deprecatedRegex in Hpost.
    destruct (Js.stripPrefix "@deprecated" post) as [rest|] eqn:Hstrip; [|congruence].
    apply stripPrefix_Some in Hstrip. subst post. now exists pre, rest.
  - intros (before & after & ->). exists before, ("@deprecated" +:+ after).
    split; [reflexivity|]. apply attempt_deprecatedRegex.
    now rewrite stripPrefix_append.
Qed.

(** X10. The [deprecated] flag of a table entry is [true] or left out; it
    is [true] exactly when the description of the prop, read as the empty
    text when there is none, contains [@deprecated]. *)
Theorem deprecated_flag_iff_tag (reactApi : ReactApi.t) (propName : string)
    (propDescriptor : PropDescriptor.t) (prop : Describeable.t) :
  let description := Js.orElse (PropDescriptor.description propDescriptor) "" in
  let flag := Entry.deprecated (propsTableEntry reactApi propName propDescriptor prop) in
  (flag = Some true <-> occursIn "@deprecated" description) /\
  (flag = None <-> ~ occursIn "@deprecated" description).
Proof.
  intros description flag. unfold flag, propsTableEntry. cbn [Entry.deprecated].
  fold description. rewrite <- test_deprecatedRegex.
  destruct (Regex.exec deprecatedRegex description) as [m|]; cbn.
  - split; split; eauto; try discriminate. intros Hnot. exfalso. eauto.
  - split; split; try discriminate; auto.
    + intros [m [=]].
    + intros _ [m [=]].
Qed.

Lemma orElse_empty (s : string) : Js.orElse (Some s) "" = s.
Proof. now destruct s. Qed.

Lemma run_Plus {R} cls (a : ascii) (s : string) c (k : string -> Regex.captures -> option R) :
  Regex.member cls a = true ->
  Regex.run (Regex.Plus cls) (String a s) c k =
  Regex.greedyRun (Regex.member cls) (fun s'' => k s'' c) s.
Proof. intros Ha. cbn [Regex.run]. now rewrite Ha. Qed.

Lemma run_Lit_append {R} (l s : string) c (k : string -> Regex.captures -> option R) :
  Regex.run (Regex.Lit l) (l +:+ s) c k = k s c.
Proof. cbn [Regex.run]. now rewrite stripPrefix_append. Qed.

Lemma attempt_deprecated_info (ws info tail : string) :
  ws <> "" ->
  Js.allUnits Js.isWhiteSpace ws = true ->
  Js.singleLine info = true ->
  match info with String a _ => Js.isWhiteSpace a = false | EmptyString => False end ->
  match tail with String a _ => Js.isLineTerminator a = true | EmptyString => True end ->
  attempt deprecatedRegex ("@deprecated" +:+ ws +:+ info +:+ tail) =
  Some (tail, [(1, ws +:+ info); (2, info)]).
Proof.
  intros Hws Hblank Hline Hinfo Htail.
  unfold attempt, deprecatedRegex. rewrite run_Seq, run_Lit_append, run_Opt.
  rewrite run_Cap, run_Seq.
  destruct ws as [|a ws]; [congruence|].
  cbn [Js.allUnits] in Hblank. apply andb_true_iff in Hblank as [Ha Hblank].
  change (String a ws +:+ info +:+ tail) with (String a (ws +:+ info +:+ tail)).
  rewrite run_Plus by exact Ha.
  erewrite greedyRun_maximal; [reflexivity | exact Hblank | |].
  - destruct info as [|b info]; [destruct Hinfo|]. exact Hinfo.
  - rewrite run_Cap, run_Star.
    erewrite greedyRun_maximal; [reflexivity | exact Hline | |].
    + destruct tail as [|b tail]; [exact I|]. cbn. now rewrite Htail.
    + rewrite consumed_append.
      rewrite (consumed_spec (String a (ws +:+ info +:+ tail)) (String a ws +:+ info) tail).
      * assert (Hlt : (String.length tail <?
                       String.length (String a (ws +:+ info +:+ tail))) = true).
        { apply Nat.ltb_lt. cbn. rewrite !length_append. lia. }
        rewrite Hlt. reflexivity.
      * change (String a ws +:+ info) with (String a (ws +:+ info)).
        change (String a (ws +:+ info) +:+ tail) with (String a ((ws +:+ info) +:+ tail)).
        now rewrite append_assoc.
Qed.

Lemma no_at_refuses (before rest : string) :
  Js.allUnits (fun a => negb (Ascii.eqb a "@")) before = true ->
  forall pre1 pre2,
    before = pre1 +:+ pre2 -> pre2 <> "" -> attempt deprecatedRegex (pre2 +:+ rest) = None.
Proof.
  intros Hbefore pre1 pre2 -> Hne.
  assert (Hpre2 : Js.allUnits (fun a => negb (Ascii.eqb a "@")) pre2 = true).
  { induction pre1 as [|x pre1 IH]; [exact Hbefore|].
    apply IH. cbn in Hbefore. now apply andb_true_iff in Hbefore as [_ ?]. }
  destruct pre2 as [|x pre2]; [congruence|].
  cbn [Js.allUnits] in Hpre2. apply andb_true_iff in Hpre2 as [Hx _].
  apply negb_true_iff in Hx.
  destruct (attempt deprecatedRegex (String x pre2 +:+ rest)) eqn:E; [|reflexivity].
  exfalso. assert (Hsome : attempt deprecatedRegex (String x pre2 +:+ rest) <> None)
    by congruence.
  apply attempt_deprecatedRegex in Hsome. apply Hsome.
  change (String x pre2 +:+ rest) with (String x (pre2 +:+ rest)).
  apply stripPrefix_head. now rewrite Ascii.eqb_sym.
Qed.

(** X11. When the first [@] of a prop's description starts [@deprecated],
    followed by white space (line ends included) and then by text, the
    deprecation info of the table entry is that text up to the end of its
    line, rendered and trimmed, and is left out when nothing remains. *)
Theorem deprecation_info_is_rest_of_line (reactApi : ReactApi.t) (propName : string)
    (propDescriptor : PropDescriptor.t) (prop : Describeable.t)
    (before ws info tail : string) :
  PropDescriptor.description propDescriptor =
    Some (before +:+ "@deprecated" +:+ ws +:+ info +:+ tail) ->
  Js.allUnits (fun a => negb (Ascii.eqb a "@")) before = true ->
  ws <> "" ->
  Js.allUnits Js.isWhiteSpace ws = true ->
  Js.singleLine info = true ->
  match info with String a _ => Js.isWhiteSpace a = false | EmptyString => False end ->
  match tail with String a _ => Js.isLineTerminator a = true | EmptyString => True end ->
  Entry.deprecationInfo (propsTableEntry reactApi propName propDescriptor prop) =
  nonEmpty (Js.trim (renderMarkdown info)).
Proof.
  intros Hdescription Hbefore Hws Hblank Hline Hinfo Htail.
  unfold propsTableEntry. cbn [Entry.deprecationInfo].
  rewrite Hdescription, orElse_empty. unfold Regex.exec.
  rewrite execFrom_skip by (now apply no_at_refuses).
  pose proof (attempt_deprecated_info ws info tail Hws Hblank Hline Hinfo Htail) as Hrun.
  rewrite (execFrom_here _ _ _ _ _ Hrun).
  cbn [Regex.group Regex.groups Regex.capture Nat.eqb]. now rewrite orElse_empty.
Qed.

Lemma run_afterTarget_stop :
  Regex.run afterTarget "." [] (fun s' c => Some (s', c)) = Some ("", []).
Proof. reflexivity. Qed.

(** The groups of [stylesRegex] on a description made of a prefix and a
    plain target on one line. *)
Lemma exec_stylesRegex_target (prefix target : string) :
  In prefix prefixes ->
  Js.singleLine target = true ->
  plainTarget target "." = true ->
  let description := prefix +:+ " applied to " +:+ target +:+ "." in
  Regex.exec stylesRegex description =
  Some (Regex.Result 0 description ""
          [(3, target); (1, prefix +:+ " applied to "); (2, prefix)]).
Proof.
  intros Hprefix Htarget Hplain description.
  assert (Hrun : Regex.run stylesRegex description [] (fun s' c => Some (s', c)) =
                 Some ("", [(3, target); (1, prefix +:+ " applied to "); (2, prefix)])).
  { unfold description, stylesRegex.
    rewrite run_Seq, run_stylesPrefix by exact Hprefix.
    rewrite run_Seq, run_Cap, run_LazyStar. fold afterTarget.
    erewrite lazyRun_target; [reflexivity | exact Htarget | |].
    - apply plainTarget_refusedBefore; [exact Hplain|].
      intros u Hu. now apply afterTarget_refuses.
    - rewrite consumed_append. reflexivity. }
  unfold Regex.exec. rewrite (execFrom_here _ _ _ _ _ Hrun).
  rewrite (consumed_spec description description "") by now rewrite append_empty_r.
  reflexivity.
Qed.

Lemma substitution_nodeName (m : Regex.result) :
  Regex.substitution m (Regex.groupCount stylesRegex) "$1{{nodeName}}$5." =
  default "" (Regex.group m 1) +:+ "{{nodeName}}" +:+
  default "" (Regex.group m 5) +:+ ".".
Proof. reflexivity. Qed.

(** X12. For a class whose description is one of [Styles], [State class]
    and [Class name], then [ applied to ], a target other than the root
    element, and a full stop (the target on one line, not empty, with no
    separator or full stop starting inside it), [extractClassConditions]
    records the template with [{{nodeName}}] in place of the target and the
    rendered target as [nodeName], and no conditions. *)
Theorem class_target_recorded (descriptions : Obj.t string)
    (className prefix target : string) :
  List.NoDup (Obj.keys descriptions) ->
  className <> "" ->
  In prefix prefixes ->
  Js.singleLine target = true ->
  plainTarget target "." = true ->
  target <> "" ->
  target <> "the root element" ->
  In (className, prefix +:+ " applied to " +:+ target +:+ ".") descriptions ->
  Obj.get className (extractClassConditions descriptions) =
  Some (ClassTranslation.mk
          (renderMarkdown (prefix +:+ " applied to " +:+ "{{nodeName}}" +:+ "."))
          None
          (Some (renderMarkdown target))).
Proof.
  intros Hnodup Hname Hprefix Htarget Hplain Hne Hroot Hin.
  rewrite (extractClassConditions_get _ _ _ Hnodup Hname Hin). f_equal.
  unfold classCondition, Regex.replace, Regex.replaceWith.
  rewrite exec_stylesRegex_target by assumption.
  rewrite substitution_nodeName.
  cbn [Regex.group Regex.groups Regex.capture Nat.eqb Regex.index Regex.rest
       Js.take default Js.truthy].
  destruct target as [|a target]; [congruence|].
  cbn [Js.truthy andb]. unfold id.
  destruct (String.eqb_spec (String a target) "the root element") as [Heq|_];
    [contradiction|].
  cbn [negb]. change ("" +:+ ?x) with x.
  now rewrite !append_empty_r, !append_assoc.
Qed.

Lemma not_occursIn_suffix (sub pre post : string) :
  ~ occursIn sub (pre +:+ post) -> ~ occursIn sub post.
Proof. intros Hnot Hpost. apply Hnot. now apply occursIn_append_r. Qed.

Lemma stylesPrefix_refuses {R} (s : string) (c : Regex.captures)
    (k : string -> Regex.captures -> option R) :
  ~ occursIn " applied to " s ->
  Regex.run stylesPrefix s c k = None.
Proof.
  intros Hnot. unfold stylesPrefix. cbn [Regex.run].
  repeat match goal with
         | |- context [Js.stripPrefix ?p s] =>
             let E := fresh "E" in
             destruct (Js.stripPrefix p s) as [?|] eqn:E;
             [apply stripPrefix_Some in E; subst s|]
         | |- context [Js.stripPrefix " applied to " ?t] =>
             let E := fresh "E" in
             destruct (Js.stripPrefix " applied to " t) as [?|] eqn:E;
             [apply stripPrefix_Some in E; subst t; exfalso; apply Hnot;
              apply occursIn_append_r; eexists "", _; reflexivity|]
         end; reflexivity.
Qed.

Lemma exec_stylesRegex_none (description : string) :
  ~ occursIn " applied to " description ->
  Regex.exec stylesRegex description = None.
Proof.
  intros Hnot. apply execFrom_refused. intros pre post ->.
  unfold attempt, stylesRegex. rewrite run_Seq.
  apply stylesPrefix_refuses. now apply not_occursIn_suffix with pre.
Qed.

Lemma extractClassConditions_unnamed (descriptions : Obj.t string)
    (classConditions : Obj.t ClassTranslation.t) :
  Obj.get ""
    (fold_left
       (fun classConditions entry =>
          let '(className, description) := entry in
          if Js.truthy (Some className)
          then Obj.set className (classCondition description) classConditions
          else classConditions)
       descriptions classConditions) =
  Obj.get "" classConditions.
Proof.
  revert classConditions.
  induction descriptions as [|[k d] descriptions IH]; intros classConditions;
    [reflexivity|].
  cbn [fold_left]. rewrite IH. destruct k; [reflexivity|].
  cbn [Js.truthy]. now apply get_set_ne.
Qed.

(** X13. [extractClassConditions] records nothing under the empty class
    name and nothing for a name that is no class. For a class whose
    description does not contain [ applied to ] it records the rendered
    description alone, without conditions and without [nodeName]. *)
Theorem class_description_kept_as_it_is (descriptions : Obj.t string)
    (className description : string) :
  Obj.get "" (extractClassConditions descriptions) = None /\
  (~ In className (Obj.keys descriptions) ->
   Obj.get className (extractClassConditions descriptions) = None) /\
  (List.NoDup (Obj.keys descriptions) ->
   className <> "" ->
   In (className, description) descriptions ->
   ~ occursIn " applied to " description ->
   Obj.get className (extractClassConditions descriptions) =
   Some (ClassTranslation.mk (renderMarkdown description) None None)).
Proof.
  split; [|split].
  - unfold extractClassConditions, Obj.entries. now rewrite extractClassConditions_unnamed.
  - intros Hnot. unfold extractClassConditions, Obj.entries.
    now rewrite extractClassConditions_other.
  - intros Hnodup Hname Hin Hnot.
    rewrite (extractClassConditions_get _ _ _ Hnodup Hname Hin). f_equal.
    unfold classCondition. now rewrite exec_stylesRegex_none.
Qed.

Lemma allUnits_append (p : ascii -> bool) (a b : string) :
  Js.allUnits p (a +:+ b) = Js.allUnits p a && Js.allUnits p b.
Proof.
  induction a as [|x a IH]; [reflexivity|].
  change (String x a +:+ b) with (String x (a +:+ b)).
  cbn [Js.allUnits]. now rewrite IH, andb_assoc.
Qed.

Lemma not_occursIn_allUnits (c : ascii) (s : string) :
  ~ occursIn (String c "") s ->
  Js.allUnits (fun a => negb (Ascii.eqb a c)) s = true.
Proof.
  induction s as [|x s IH]; intros Hnot; [reflexivity|].
  cbn [Js.allUnits]. apply andb_true_iff. split.
  - apply negb_true_iff. destruct (Ascii.eqb_spec x c) as [->|]; [|reflexivity].
    exfalso. apply Hnot. now exists "", s.
  - apply IH. intros (before & after & ->). apply Hnot.
    now exists (String x before), after.
Qed.

Lemma member_noneOf_slashes (a : ascii) :
  Regex.member (Regex.NoneOf (BACKSLASH +:+ "/")) a =
  negb (Ascii.eqb a "092") && negb (Ascii.eqb a "/").
Proof.
  unfold Regex.member, Js.includes, BACKSLASH.
  change (String "092" "" +:+ "/") with (String "092" (String "/" "")).
  cbn [Js.indexOfFrom]. unfold Js.startsWith. cbn [Js.stripPrefix].
  destruct (Ascii.eqb a "092"); [reflexivity|].
  destruct (Ascii.eqb a "/"); reflexivity.
Qed.

Lemma noSlash_refusedBefore {R} (k : string -> option R) (target rest : string) :
  noSlash target = true ->
  (forall a u, Ascii.eqb a "/" = false -> k (String a u) = None) ->
  refusedBefore k target rest.
Proof.
  intros Htarget Hk. induction target as [|a target IH]; [exact I|].
  unfold noSlash in Htarget. cbn [Js.allUnits] in Htarget.
  apply andb_true_iff in Htarget as [Ha Htarget]. apply negb_true_iff in Ha.
  cbn [refusedBefore]. split; [now apply Hk | now apply IH].
Qed.

Lemma run_Class {R} cls (a : ascii) (s : string) c
    (k : string -> Regex.captures -> option R) :
  Regex.member cls a = true ->
  Regex.run (Regex.Class cls) (String a s) c k = k s c.
Proof. intros Ha. cbn [Regex.run]. now rewrite Ha. Qed.

Lemma greedyRun_line {R} (k : string -> option R) (line : string) (x : R) :
  Js.singleLine line = true -> k "" = Some x ->
  Regex.greedyRun (Regex.member Regex.AnyChar) k line = Some x.
Proof.
  intros Hline Hk. rewrite <- (append_empty_r line).
  now apply greedyRun_maximal.
Qed.

(** The package of a path below [/packages/mui-<package>/src/]. *)
Lemma run_packageSuffix {R} (pkg rest : string) (c : Regex.captures)
    (k : string -> Regex.captures -> option R) (x : R) :
  pkg <> "" ->
  Js.singleLine pkg = true ->
  noSlash pkg = true ->
  (forall a u c', Ascii.eqb a "/" = false -> k (String a u) c' = None) ->
  k rest ((1, pkg) :: c) = Some x ->
  Regex.run packageSuffix ("-" +:+ pkg +:+ rest) c k = Some x.
Proof.
  intros Hne Hline Hslash Hrefuse Hk.
  destruct pkg as [|a pkg]; [congruence|].
  unfold Js.singleLine in Hline. cbn [Js.allUnits] in Hline.
  apply andb_true_iff in Hline as [Ha Hline].
  unfold noSlash in Hslash. cbn [Js.allUnits] in Hslash.
  apply andb_true_iff in Hslash as [_ Hslash].
  unfold packageSuffix. rewrite run_Opt, run_Seq, run_Lit_append, run_Cap, run_Seq.
  change (String a pkg +:+ rest) with (String a (pkg +:+ rest)).
  rewrite run_Class by exact Ha. rewrite run_LazyStar.
  erewrite lazyRun_target; [reflexivity | exact Hline | |].
  - apply noSlash_refusedBefore; [exact Hslash|].
    intros b u Hb. destruct (_ <? _); [|reflexivity]. now apply Hrefuse.
  - assert (Hlt : (String.length rest <?
                   String.length ("-" +:+ String a (pkg +:+ rest))) = true).
    { apply Nat.ltb_lt.
      change ("-" +:+ String a (pkg +:+ rest)) with (String "-" (String a (pkg +:+ rest))).
      cbn [String.length]. rewrite length_append. lia. }
    rewrite Hlt.
    rewrite (consumed_spec (String a (pkg +:+ rest)) (String a pkg) rest) by reflexivity.
    exact Hk.
Qed.

Lemma attempt_rootImportRegex (pkg tail : string) :
  pkg <> "" ->
  Js.singleLine pkg = true ->
  noSlash pkg = true ->
  Js.singleLine tail = true ->
  attempt rootImportRegex ("/packages/mui" +:+ "-" +:+ pkg +:+ "/src/" +:+ tail) =
  Some ("", [(1, pkg)]).
Proof.
  intros Hne Hline Hslash Htail.
  unfold attempt, rootImportRegex. rewrite run_Seq, run_Lit_append, run_Seq.
  apply run_packageSuffix; try assumption.
  - intros a u c' Ha. rewrite run_Seq. cbn [Regex.run].
    now rewrite (stripPrefix_head "/" a "src/" u) by now rewrite Ascii.eqb_sym.
  - rewrite run_Seq, run_Lit_append, run_Star.
    now apply greedyRun_line.
Qed.

Lemma attempt_subdirectoryImportRegex (pkg dir rest : string) :
  pkg <> "" ->
  Js.singleLine pkg = true ->
  noSlash pkg = true ->
  dir <> "" ->
  Js.allUnits (Regex.member (Regex.NoneOf (BACKSLASH +:+ "/"))) dir = true ->
  Js.singleLine rest = true ->
  attempt subdirectoryImportRegex
    ("/packages/mui" +:+ "-" +:+ pkg +:+ "/src/" +:+ dir +:+ "/" +:+ rest) =
  Some ("", [(2, dir); (1, pkg)]).
Proof.
  intros Hne Hline Hslash Hdir Hunits Hrest.
  unfold attempt, subdirectoryImportRegex. rewrite run_Seq, run_Lit_append, run_Seq.
  apply run_packageSuffix; try assumption.
  - intros a u c' Ha. rewrite run_Seq. cbn [Regex.run].
    now rewrite (stripPrefix_head "/" a "src/" u) by now rewrite Ascii.eqb_sym.
  - rewrite run_Seq, run_Lit_append, run_Seq, run_Cap.
    destruct dir as [|d dir]; [congruence|].
    cbn [Js.allUnits] in Hunits. apply andb_true_iff in Hunits as [Hd Hunits].
    change (String d dir +:+ "/" +:+ rest) with (String d (dir +:+ "/" +:+ rest)).
    rewrite run_Plus by exact Hd.
    erewrite greedyRun_maximal; [reflexivity | exact Hunits | reflexivity |].
    rewrite (consumed_spec (String d (dir +:+ "/" +:+ rest)) (String d dir) ("/" +:+ rest))
      by reflexivity.
    rewrite run_Seq, run_Lit_append, run_Star.
    now apply greedyRun_line.
Qed.

Lemma toGitHubPath_no_backslash (filepath : string) :
  ~ occursIn BACKSLASH (toGitHubPath filepath).
Proof.
  unfold toGitHubPath. rewrite normalizeSlashes_forwardSlashes.
  apply (forwardSlashes_no_backslash (String "092" (pathRelative cwd filepath))).
Qed.

Lemma not_occursIn_middle (sub a b c : string) :
  ~ occursIn sub (a +:+ b +:+ c) -> ~ occursIn sub b.
Proof.
  intros Hnot Hb. apply Hnot. now apply occursIn_append_r, occursIn_append_l.
Qed.

Lemma allUnits_and (p q : ascii -> bool) (s : string) :
  Js.allUnits p s = true -> Js.allUnits q s = true ->
  Js.allUnits (fun a => p a && q a) s = true.
Proof.
  induction s as [|a s IH]; [reflexivity|]. cbn [Js.allUnits].
  intros [Hp Hps]%andb_true_iff [Hq Hqs]%andb_true_iff.
  now rewrite Hp, Hq, IH.
Qed.

Lemma allUnits_ext (p q : ascii -> bool) (s : string) :
  (forall a, p a = q a) -> Js.allUnits p s = Js.allUnits q s.
Proof.
  intros Hpq. induction s as [|a s IH]; [reflexivity|].
  cbn [Js.allUnits]. now rewrite Hpq, IH.
Qed.

(** X14. For a file whose path from the working directory is
    [packages/mui-<package>/src/<directory>/...] on one line, the package
    and the directory not empty and without slash, [getComponentImports]
    returns two imports: the import from [@mui/<package>/<directory>], of
    the default export, or of the named export when the package is [base];
    and the named import from [@mui/<package>]. The named export is
    [Unstable_<name> as <name>] when the path contains [Unstable_]. *)
Theorem component_imports_of_package (name filename pkg dir rest : string) :
  toGitHubPath filename =
    "/packages/mui-" +:+ pkg +:+ "/src/" +:+ dir +:+ "/" +:+ rest ->
  Js.singleLine (toGitHubPath filename) = true ->
  pkg <> "" -> noSlash pkg = true ->
  dir <> "" -> noSlash dir = true ->
  let named :=
    if Regex.test (Regex.Lit "Unstable_") (toGitHubPath filename)
    then "Unstable_" +:+ name +:+ " as " +:+ name
    else name in
  getComponentImports name filename =
    [ if String.eqb pkg "base"
      then "import { " +:+ named +:+ " } from '@mui/" +:+ pkg +:+ "/" +:+ dir +:+ "';"
      else "import " +:+ name +:+ " from '@mui/" +:+ pkg +:+ "/" +:+ dir +:+ "';";
      "import { " +:+ named +:+ " } from '@mui/" +:+ pkg +:+ "';" ] /\
  (occursIn "Unstable_" (toGitHubPath filename) ->
   named = "Unstable_" +:+ name +:+ " as " +:+ name) /\
  (~ occursIn "Unstable_" (toGitHubPath filename) -> named = name).
Proof.
  intros Hpath Hline Hpkg Hpkgslash Hdir Hdirslash named.
  pose proof (toGitHubPath_no_backslash filename) as Hback.
  split; [|split].
  - unfold getComponentImports. fold named.
    rewrite Hpath in Hline, Hback |- *.
    change ("/packages/mui-" +:+ pkg +:+ "/src/" +:+ dir +:+ "/" +:+ rest)
      with ("/packages/mui" +:+ "-" +:+ pkg +:+ "/src/" +:+ dir +:+ "/" +:+ rest)
      in Hline, Hback |- *.
    unfold Js.singleLine in Hline. rewrite !allUnits_append in Hline.
    repeat (apply andb_true_iff in Hline as [? Hline]).
    assert (Hunits : Js.allUnits (Regex.member (Regex.NoneOf (BACKSLASH +:+ "/"))) dir
                     = true).
    { rewrite (allUnits_ext _ _ dir member_noneOf_slashes).
      apply allUnits_and; [|exact Hdirslash].
      apply not_occursIn_allUnits.
      apply (not_occursIn_middle _ ("/packages/mui" +:+ "-" +:+ pkg +:+ "/src/") dir
               ("/" +:+ rest)).
      now rewrite !append_assoc. }
    assert (Htail : Js.singleLine (dir +:+ "/" +:+ rest) = true).
    { unfold Js.singleLine. rewrite !allUnits_append.
      repeat (apply andb_true_iff; split); assumption. }
    unfold Regex.replaceWith, Regex.exec.
    rewrite (execFrom_here _ _ _ _ _
               (attempt_rootImportRegex pkg (dir +:+ "/" +:+ rest)
                  Hpkg ltac:(assumption) Hpkgslash Htail)).
    rewrite (execFrom_here _ _ _ _ _
               (attempt_subdirectoryImportRegex pkg dir rest
                  Hpkg ltac:(assumption) Hpkgslash Hdir Hunits ltac:(assumption))).
    cbn [Regex.index Regex.rest Regex.group Regex.groups Regex.capture Nat.eqb
         Js.take interpolate default].
    unfold id. change ("" +:+ ?x) with x. rewrite !append_empty_r.
    change (String.eqb ("@mui/" +:+ pkg) "@mui/base") with (String.eqb pkg "base").
    destruct (String.eqb pkg "base"); now rewrite ?append_assoc.
  - intros Hin. unfold named. apply test_Lit in Hin. now rewrite Hin.
  - intros Hnot. unfold named.
    destruct (Regex.test (Regex.Lit "Unstable_") (toGitHubPath filename)) eqn:Htest;
      [|reflexivity].
    apply test_Lit in Htest. contradiction.
Qed.

Lemma attempt_jsExtensionRegex (s : string) :
  attempt jsExtensionRegex s =
  if String.eqb s ".js" then Some ("", []) else None.
Proof.
  unfold attempt, jsExtensionRegex. rewrite run_Seq. cbn [Regex.run].
  destruct (Js.stripPrefix ".js" s) as [s'|] eqn:Hstrip.
  - apply stripPrefix_Some in Hstrip. subst s. destruct s' as [|a s']; reflexivity.
  - destruct (String.eqb_spec s ".js") as [->|_]; [discriminate | reflexivity].
Qed.

Lemma typesFilename_js (base : string) :
  Regex.replace jsExtensionRegex ".d.ts" (base +:+ ".js") = base +:+ ".d.ts".
Proof.
  unfold Regex.replace, Regex.replaceWith, Regex.exec.
  rewrite execFrom_skip.
  - pose proof (attempt_jsExtensionRegex ".js") as Hrun.
    change (attempt jsExtensionRegex ".js" = Some ("", [])) in Hrun.
    rewrite (execFrom_here _ _ _ _ _ Hrun).
    cbn [Regex.index Regex.rest plus]. rewrite take_append. reflexivity.
  - intros pre1 pre2 _ Hne. rewrite attempt_jsExtensionRegex.
    destruct (String.eqb_spec (pre2 +:+ ".js") ".js") as [Heq|_]; [|reflexivity].
    exfalso. apply (f_equal String.length) in Heq. rewrite length_append in Heq.
    destruct pre2; [congruence | cbn in Heq; lia].
Qed.

Lemma typesFilename_other (filename : string) :
  (forall base, filename <> base +:+ ".js") ->
  Regex.replace jsExtensionRegex ".d.ts" filename = filename.
Proof.
  intros Hother. unfold Regex.replace, Regex.replaceWith, Regex.exec.
  rewrite execFrom_refused; [reflexivity|].
  intros pre post ->. rewrite attempt_jsExtensionRegex.
  destruct (String.eqb_spec post ".js") as [->|_]; [|reflexivity].
  now destruct (Hother pre).
Qed.

Lemma append_suffix_differs (base : string) : base +:+ ".js" <> base +:+ ".d.ts".
Proof.
  induction base as [|a base IH]; [discriminate|].
  change (String a (base +:+ ".js") <> String a (base +:+ ".d.ts")). congruence.
Qed.

(** X15. For a component in a file [<base>.js] the annotation is read from
    and written to [<base>.d.ts] and to no other file: the run throws with
    the file system as it was when that file is missing, and when no place
    for the comment is found, that is when no end is located or the start
    is 0. Otherwise the run is the write to that file of its text with the
    new comment in the place of the located range, the start and the end
    read as [String.prototype.slice] reads them, a negative one from the
    end of the text; so the file holds that text when it can be written.
    A file whose name does not end in [.js] is annotated itself. *)
Theorem annotation_goes_to_declaration_file (api : ReactApi.t) (base : string)
    (fs : FileSystem) :
  ReactApi.filename api = base +:+ ".js" ->
  let types := base +:+ ".d.ts" in
  let located src :=
    locateJsdoc src types (ReactApi.filename api) (pathParseName (ReactApi.filename api)) in
  let annotated src start end_ :=
    Js.sliceTo start src +:+ jsdoc api +:+ Js.sliceFrom end_ src in
  (forall fs' outcome,
      annotateComponentDefinition api fs = (fs', outcome) ->
      (forall p, p <> types -> files fs' !! p = files fs !! p) /\
      directories fs' = directories fs /\
      (forall error, outcome = Throw error -> fs' = fs)) /\
  (files fs !! types = None ->
   exists error, annotateComponentDefinition api fs = (fs, Throw error)) /\
  (forall src start end_,
      files fs !! types = Some src ->
      located src = Return (start, end_) ->
      end_ = None \/ start = 0%Z ->
      annotateComponentDefinition api fs =
        (fs, Throw (noInsertionPoint (ReactApi.filename api)))) /\
  (forall src start end_,
      files fs !! types = Some src ->
      located src = Return (start, Some end_) ->
      start <> 0%Z ->
      annotateComponentDefinition api fs =
        writeFileSync types (annotated src start end_) FlagW fs /\
      (writable (directories fs) types = true ->
       exists fs',
         annotateComponentDefinition api fs = (fs', Return tt) /\
         files fs' !! types = Some (annotated src start end_))) /\
  (forall other : ReactApi.t,
      (forall base', ReactApi.filename other <> base' +:+ ".js") ->
      files fs !! ReactApi.filename other = None ->
      exists error, annotateComponentDefinition other fs = (fs, Throw error)).
Proof.
  intros Hfilename types located annotated. subst located annotated.
  unfold annotateComponentDefinition. rewrite Hfilename, typesFilename_js. fold types.
  unfold readFileSync. split; [|split; [|split; [|split]]].
  - intros fs' outcome.
    destruct (files fs !! types) as [src|];
      [|intros [= <- <-]; repeat split; intros error' [= <-]; reflexivity].
    destruct (locateJsdoc _ _ _ _) as [[start [end_|]]|error];
      try (intros [= <- <-]; repeat split; intros error' [=]; reflexivity).
    destruct (start =? 0)%Z;
      [intros [= <- <-]; repeat split; intros error' [=]; reflexivity|].
    apply writeFileSync_frame.
  - intros ->. eauto.
  - intros src start end_ -> -> [->| ->]; [reflexivity|].
    now destruct end_.
  - intros src start end_ -> -> Hstart.
    apply Z.eqb_neq in Hstart. rewrite Hstart. split; [reflexivity|].
    intros Hwritable. rewrite (writeFileSync_writable _ _ _ Hwritable).
    eexists. split; [reflexivity|]. apply lookup_insert_eq.
  - intros other Hother Hmissing. rewrite (typesFilename_other _ Hother), Hmissing. eauto.
Qed.

Lemma substitution_plain (m : Regex.result) (count : nat) (template : string) :
  noDollar template = true -> Regex.substitution m count template = template.
Proof.
  induction template as [|a t IH]; [reflexivity|].
  unfold noDollar. cbn [Js.allUnits]. intros [Ha Ht]%andb_true_iff.
  apply negb_true_iff in Ha.
  assert (Hstep : Regex.substitution m count (String a t) =
                  String a (Regex.substitution m count t)).
  { destruct (Ascii.eqb_spec a "$") as [->|Hne]; [discriminate|].
    destruct a as [[] [] [] [] [] [] [] []]; try reflexivity; now destruct Hne. }
  rewrite Hstep. f_equal. now apply IH.
Qed.

Lemma splitOn_first (s : string) :
  (Js.allUnits (fun a => negb (Ascii.eqb a "010")) s = true /\
   Js.splitOn "010" s = [s]) \/
  exists x tail,
    s = x +:+ Js.LF +:+ tail /\
    Js.allUnits (fun a => negb (Ascii.eqb a "010")) x = true /\
    Js.splitOn "010" s = x :: Js.splitOn "010" tail.
Proof.
  induction s as [|a s IH]; [now left|].
  cbn [Js.splitOn Js.allUnits]. destruct (Ascii.eqb_spec a "010") as [->|Hne].
  - right. exists "", s. repeat split.
  - destruct IH as [[Hall Hsplit]|(x & tail & -> & Hall & Hsplit)].
    + left. rewrite Hall, Hsplit. now split.
    + right. exists (String a x), tail. rewrite Hsplit. cbn [Js.allUnits].
      rewrite Hall. destruct (Ascii.eqb_spec a "010"); [contradiction|].
      repeat split.
Qed.

Lemma lineEnd_plain (a : ascii) (s : string) :
  Ascii.eqb a "010" = false -> Ascii.eqb a "013" = false ->
  lineEnd (String a s) = None.
Proof.
  intros Hlf Hcr. unfold lineEnd, Js.LF, Js.CR.
  rewrite !stripPrefix_cons, (Ascii.eqb_sym "013" a), (Ascii.eqb_sym "010" a).
  now rewrite Hlf, Hcr.
Qed.

Lemma newline_refused (x rest : string) :
  Js.allUnits (fun a => negb (Ascii.eqb a "010")) x = true ->
  noCR x = true ->
  forall pre1 pre2,
    x = pre1 +:+ pre2 -> pre2 <> "" -> attempt newlineRegex (pre2 +:+ rest) = None.
Proof.
  intros Hlf Hcr pre1 pre2 -> Hne. unfold noCR in Hcr.
  rewrite allUnits_append in Hlf, Hcr.
  apply andb_true_iff in Hlf as [_ Hlf]. apply andb_true_iff in Hcr as [_ Hcr].
  destruct pre2 as [|a pre2]; [congruence|].
  cbn [Js.allUnits] in Hlf, Hcr.
  apply andb_true_iff in Hlf as [Hlf _]. apply andb_true_iff in Hcr as [Hcr _].
  apply negb_true_iff in Hlf, Hcr.
  unfold attempt. rewrite run_newlineRegex.
  change (String a pre2 +:+ rest) with (String a (pre2 +:+ rest)).
  now rewrite lineEnd_plain.
Qed.

Lemma replaceAllFuel_newlines (eol : string) (fuel : nat) (s : string) :
  noDollar eol = true ->
  noCR s = true ->
  String.length s < fuel ->
  Regex.replaceAllFuel fuel newlineRegex eol s = Js.join eol (Js.splitOn "010" s).
Proof.
  intros Heol. revert s. induction fuel as [|fuel IH]; intros s Hcr Hfuel; [lia|].
  cbn [Regex.replaceAllFuel].
  destruct (splitOn_first s) as [[Hlf ->]|(x & tail & -> & Hlf & ->)].
  - unfold Regex.exec. rewrite execFrom_refused; [reflexivity|].
    intros pre post Hsplit.
    destruct post as [|a post].
    + unfold attempt. now rewrite run_newlineRegex.
    + rewrite <- (append_empty_r (String a post)).
      apply (newline_refused s "" Hlf Hcr pre); [exact Hsplit | discriminate].
  - unfold noCR in Hcr. rewrite !allUnits_append in Hcr.
    apply andb_true_iff in Hcr as [Hx Hcr]. apply andb_true_iff in Hcr as [_ Htail].
    unfold Regex.exec.
    rewrite execFrom_skip by (now apply newline_refused).
    assert (Hrun : attempt newlineRegex (Js.LF +:+ tail) = Some (tail, [])).
    { unfold attempt. now rewrite run_newlineRegex. }
    rewrite (execFrom_here _ _ _ _ _ Hrun).
    cbn [Regex.index Regex.matched Regex.rest plus].
    rewrite take_append, consumed_append, substitution_plain by exact Heol.
    cbn iota. unfold Js.LF at 1.
    rewrite IH.
    + rewrite join_cons by apply splitOn_nonempty. reflexivity.
    + exact Htail.
    + rewrite !length_append in Hfuel. cbn in Hfuel. lia.
Qed.

Lemma noCR_pageModule (translationPagesDirectory name : string) :
  noCR translationPagesDirectory = true ->
  noCR (kebabCase name) = true ->
  noCR (pageModule translationPagesDirectory name) = true.
Proof.
  intros Hdirectory Hname. unfold pageModule. cbn [Js.join].
  unfold noCR in *. rewrite !allUnits_append, Hdirectory, Hname. reflexivity.
Qed.

(** X16. [generateApiPage] writes the JSON page first and throws, with
    nothing written, when that file cannot be written. With [onlyJsonFile]
    it writes nothing more. Otherwise it goes on to write the page module,
    in which each line feed is replaced by the line ending of the component
    (the directory of the translations and the component's name in kebab
    case holding no carriage return, the line ending no dollar sign), and
    throws, the JSON page written, when that file cannot be written. *)
Theorem page_module_uses_component_EOL (apiPagesDirectory translationPagesDirectory : string)
    (reactApi : ReactApi.t) (onlyJsonFile : bool) (fs : FileSystem) :
  noCR translationPagesDirectory = true ->
  noCR (kebabCase (ReactApi.name reactApi)) = true ->
  noDollar (ReactApi.EOL reactApi) = true ->
  let json :=
    pathResolve apiPagesDirectory (kebabCase (ReactApi.name reactApi) +:+ ".json") in
  let js :=
    pathResolve apiPagesDirectory (kebabCase (ReactApi.name reactApi) +:+ ".js") in
  let page := prettify (stringifyPageContent (pageContent reactApi)) in
  let module :=
    prettify
      (Js.join (ReactApi.EOL reactApi)
         (Js.splitOn "010"
            (pageModule translationPagesDirectory (ReactApi.name reactApi)))) in
  let run :=
    generateApiPage apiPagesDirectory translationPagesDirectory reactApi onlyJsonFile fs in
  (writable (directories fs) json = false -> exists error, run = (fs, Throw error)) /\
  (writable (directories fs) json = true ->
   (onlyJsonFile = true -> run = (withFile fs json page, Return tt)) /\
   (onlyJsonFile = false ->
    (writable (directories fs) js = true ->
     run = (withFile (withFile fs json page) js module, Return tt)) /\
    (writable (directories fs) js = false ->
     exists error, run = (withFile fs json page, Throw error)))).
Proof.
  intros Hdirectory Hname Heol json js page module run. subst run.
  unfold generateApiPage. fold json js.
  unfold mbind, io_bind, ioBind, writePrettifiedFile. fold page.
  assert (Hmodule :
            prettify
              (Regex.replaceAll newlineRegex (ReactApi.EOL reactApi)
                 (pageModule translationPagesDirectory (ReactApi.name reactApi))) = module).
  { unfold module, Regex.replaceAll.
    rewrite replaceAllFuel_newlines; [reflexivity | exact Heol | | lia].
    now apply noCR_pageModule. }
  rewrite Hmodule. split.
  - intros Hjson. destruct (writeFileSync_refused json page fs Hjson) as [error ->].
    eauto.
  - intros Hjson. rewrite (writeFileSync_writable _ _ _ Hjson). split.
    + intros ->. reflexivity.
    + intros ->. cbn [negb]. split.
      * intros Hjs. now apply writeFileSync_writable.
      * intros Hjs. now apply writeFileSync_refused.
Qed.

Lemma replace_Lit_prefix (l template rest : string) :
  noDollar template = true ->
  Regex.replace (Regex.Lit l) template (l +:+ rest) = template +:+ rest.
Proof.
  intros Htemplate. unfold Regex.replace, Regex.replaceWith, Regex.exec.
  assert (Hrun : attempt (Regex.Lit l) (l +:+ rest) = Some (rest, [])).
  { now rewrite attempt_Lit, stripPrefix_append. }
  rewrite (execFrom_here _ _ _ _ _ Hrun).
  cbn [Regex.index Regex.rest Js.take].
  now rewrite substitution_plain.
Qed.

Lemma replace_Lit_absent (l template s : string) :
  ~ occursIn l s -> Regex.replace (Regex.Lit l) template s = s.
Proof.
  intros Hnot. unfold Regex.replace, Regex.replaceWith.
  destruct (Regex.exec (Regex.Lit l) s) as [m|] eqn:Hexec; [|reflexivity].
  exfalso. apply Hnot. apply (execFrom_Lit l s 0). eauto.
Qed.

Lemma replace_Lit_first (l template before after : string) :
  noDollar template = true ->
  (forall pre1 pre2,
      before = pre1 +:+ pre2 -> pre2 <> "" ->
      Js.stripPrefix l (pre2 +:+ l +:+ after) = None) ->
  Regex.replace (Regex.Lit l) template (before +:+ l +:+ after) =
    before +:+ template +:+ after.
Proof.
  intros Htemplate Hfirst. unfold Regex.replace, Regex.replaceWith, Regex.exec.
  rewrite execFrom_skip.
  - assert (Hrun : attempt (Regex.Lit l) (l +:+ after) = Some (after, [])).
    { now rewrite attempt_Lit, stripPrefix_append. }
    rewrite (execFrom_here _ _ _ _ _ Hrun).
    cbn [Regex.index Regex.rest plus]. rewrite take_append.
    now rewrite substitution_plain.
  - intros pre1 pre2 Hsplit Hne. rewrite attempt_Lit.
    now rewrite (Hfirst pre1 pre2 Hsplit Hne).
Qed.

Lemma Mui_first (before after pre1 pre2 : string) :
  ~ occursIn "Mui" before ->
  before = pre1 +:+ pre2 -> pre2 <> "" ->
  Js.stripPrefix "Mui" (pre2 +:+ "Mui" +:+ after) = None.
Proof.
  intros Hnot -> Hne.
  destruct (Js.stripPrefix "Mui" (pre2 +:+ "Mui" +:+ after)) as [s'|] eqn:Hstrip;
    [|reflexivity].
  exfalso. apply stripPrefix_Some in Hstrip.
  destruct pre2 as [|a [|b [|c rest]]]; [now apply Hne | | |].
  - change (String a (String "M" (String "u" (String "i" after))) =
            String "M" (String "u" (String "i" s'))) in Hstrip.
    congruence.
  - change (String a (String b (String "M" (String "u" (String "i" after)))) =
            String "M" (String "u" (String "i" s'))) in Hstrip.
    congruence.
  - change (String a (String b (String c (rest +:+ "Mui" +:+ after))) =
            String "M" (String "u" (String "i" s'))) in Hstrip.
    injection Hstrip as -> -> -> _.
    apply Hnot. exists pre1, rest. reflexivity.
Qed.

(** X17. In the page content the [muiName] of a component whose API path
    starts with [/joy-ui] has its first [Mui] replaced by [Joy], what is
    before and after it kept: so a name that starts with [Mui] starts with
    [Joy] instead; a name without [Mui] is kept. The [muiName] of any other
    component is kept. *)
Theorem joy_component_is_renamed (reactApi : ReactApi.t) :
  let joy := Js.startsWith (normalizeSlashes (ReactApi.apiPathname reactApi)) "/joy-ui" in
  let muiName := PageContent.muiName (pageContent reactApi) in
  (joy = true ->
   (forall before after,
       ReactApi.muiName reactApi = before +:+ "Mui" +:+ after ->
       ~ occursIn "Mui" before ->
       muiName = before +:+ "Joy" +:+ after) /\
   (forall rest, ReactApi.muiName reactApi = "Mui" +:+ rest -> muiName = "Joy" +:+ rest) /\
   (~ occursIn "Mui" (ReactApi.muiName reactApi) -> muiName = ReactApi.muiName reactApi)) /\
  (joy = false -> muiName = ReactApi.muiName reactApi).
Proof.
  intros joy muiName. unfold muiName, pageContent. cbn [PageContent.muiName].
  fold joy. split.
  - intros ->. split; [|split].
    + intros before after -> Hnot. apply replace_Lit_first; [reflexivity|].
      intros pre1 pre2. now apply Mui_first.
    + intros rest ->. now apply replace_Lit_prefix.
    + intros Hnot. now apply replace_Lit_absent.
  - intros ->. reflexivity.
Qed.

Lemma absoluteUrl_http (pathname : string) :
  Js.startsWith (absoluteUrl HOST pathname) "http" = true.
Proof.
  unfold absoluteUrl. destruct (Js.startsWith pathname "http") eqn:E; [exact E|].
  reflexivity.
Qed.

Lemma In_markdownLines_demo (api : ReactApi.t) (line : string) :
  In line (map demoLine (ReactApi.demos api)) -> In line (markdownLines api).
Proof.
  intros Hin. unfold markdownLines.
  assert (Hlines : forall before after : list string,
             In line (before ++ ["Demos:"; ""] ++ map demoLine (ReactApi.demos api) ++ after)).
  { intros before after. apply in_or_app. right. apply in_or_app. right.
    apply in_or_app. now left. }
  destruct (inheritanceAPILink api); [apply in_or_app; left|];
    apply in_or_app; left; apply Hlines.
Qed.

(** X18. Every link of the annotation is absolute: a path that does not
    start with [http] is put after the host [https://mui.com], one that
    does is kept. The comment block has one line for each demo of the
    component, with the title of the demo and that link. *)
Theorem annotation_links_are_absolute (api : ReactApi.t) :
  (forall pathname,
      Js.startsWith (absoluteUrl HOST pathname) "http" = true /\
      (Js.startsWith pathname "http" = true -> absoluteUrl HOST pathname = pathname) /\
      (Js.startsWith pathname "http" = false ->
       absoluteUrl HOST pathname = "https://mui.com" +:+ pathname)) /\
  (forall demo,
      In demo (ReactApi.demos api) ->
      In ("- [" +:+ Demo.demoPageTitle demo +:+ "](" +:+
          absoluteUrl HOST (Demo.demoPathname demo) +:+ ")")
         (markdownLines api)) /\
  In ("- [" +:+ ReactApi.name api +:+ " API](" +:+
      absoluteUrl HOST (ReactApi.apiPathname api) +:+ ")")
     (markdownLines api).
Proof.
  split; [|split].
  - intros pathname. split; [apply absoluteUrl_http|].
    unfold absoluteUrl. split; intros ->; reflexivity.
  - intros demo Hin. apply In_markdownLines_demo.
    apply in_map_iff. now exists demo.
  - unfold markdownLines.
    destruct (inheritanceAPILink api); [apply in_or_app; left|];
      apply in_or_app; right; cbn; auto.
Qed.

Lemma generateApiTranslations_frame (outputDirectory : string) (reactApi : ReactApi.t)
    (languages : list string) (fs fs' : FileSystem) (outcome : result unit) :
  let directory := pathResolve outputDirectory (kebabCase (ReactApi.name reactApi)) in
  let path :=
    resolveApiDocsTranslationsComponentLanguagePath directory (ReactApi.name reactApi) in
  generateApiTranslations outputDirectory reactApi languages fs = (fs', outcome) ->
  forall p, (forall language, p <> path language) -> files fs' !! p = files fs !! p.
Proof.
  intros directory path. unfold generateApiTranslations. fold directory path.
  unfold mbind, io_bind, ioBind, writePrettifiedFile at 1.
  set (data := stringifyTranslations (ReactApi.translations reactApi)).
  destruct (mkdirSync directory fs) as [fs1 [[]|error]] eqn:Hmkdir.
  - apply mkdirSync_Return in Hmkdir as (Hfiles1 & _ & _).
    destruct (writeFileSync (path "en") (prettify data) FlagW fs1)
      as [fs2 [[]|error]] eqn:Hwrite;
      apply writeFileSync_frame in Hwrite as (Hfiles2 & _ & _).
    + destruct (forEach_language_files path data languages fs2)
        as (fs3 & Hrun & _ & Hfiles3).
      rewrite Hrun. intros [= <- _] p Hp.
      rewrite Hfiles3, (Hfiles2 p (Hp "en")), Hfiles1.
      destruct (files fs !! p); [reflexivity|].
      assert (Hex : existsb (fun l => negb (String.eqb l "en") &&
                                      String.eqb (path l) p) languages = false).
      { apply not_true_is_false. intros Hex.
        apply existsb_exists in Hex as (language & _ & Htest).
        apply andb_true_iff in Htest as [_ Heq]. apply String.eqb_eq in Heq.
        now apply (Hp language). }
      now rewrite Hex.
    + intros [= <- _] p Hp. now rewrite (Hfiles2 p (Hp "en")), Hfiles1.
  - apply mkdirSync_Throw in Hmkdir as ->. now intros [= <- _].
Qed.

Lemma generateApiPage_frame (apiPagesDirectory translationPagesDirectory : string)
    (reactApi : ReactApi.t) (onlyJsonFile : bool) (fs fs' : FileSystem)
    (outcome : result unit) :
  generateApiPage apiPagesDirectory translationPagesDirectory reactApi onlyJsonFile fs =
    (fs', outcome) ->
  forall p,
    p <> pathResolve apiPagesDirectory (kebabCase (ReactApi.name reactApi) +:+ ".json") ->
    (onlyJsonFile = false ->
     p <> pathResolve apiPagesDirectory (kebabCase (ReactApi.name reactApi) +:+ ".js")) ->
    files fs' !! p = files fs !! p.
Proof.
  unfold generateApiPage, mbind, io_bind, ioBind, writePrettifiedFile.
  destruct (writeFileSync _ _ FlagW fs) as [fs1 [[]|error]] eqn:Hjson;
    apply writeFileSync_frame in Hjson as (Hfiles1 & _ & _).
  - destruct onlyJsonFile; cbn [negb].
    + intros [= <- _] p Hp _. now apply Hfiles1.
    + intros Hjs%writeFileSync_frame p Hp1 Hp2. destruct Hjs as (Hfiles2 & _ & _).
      rewrite (Hfiles2 p (Hp2 eq_refl)). now apply Hfiles1.
  - intros [= <- _] p Hp _. now apply Hfiles1.
Qed.

Lemma annotateComponentDefinition_frame (api : ReactApi.t) (fs fs' : FileSystem)
    (outcome : result unit) :
  annotateComponentDefinition api fs = (fs', outcome) ->
  forall p,
    p <> Regex.replace jsExtensionRegex ".d.ts" (ReactApi.filename api) ->
    files fs' !! p = files fs !! p.
Proof.
  unfold annotateComponentDefinition.
  destruct (readFileSync fs _) as [src|error]; [|now intros [= <- _]].
  destruct (locateJsdoc _ _ _ _) as [[start [end_|]]|error];
    try (now intros [= <- _]).
  destruct (start =? 0)%Z; [now intros [= <- _]|].
  intros Hwrite%writeFileSync_frame p Hp. now apply Hwrite.
Qed.

(** X19. Whatever its outcome, the step that emits the artifacts of a
    component touches no file but the translation files of the component
    (in one of the three directories of translations), its JSON page, its
    page module and the file that holds its annotation. *)
Theorem emitArtifacts_touches_only_its_files (componentInfo : ComponentInfo.t)
    (projectSettings : ProjectSettings.t) (reactApi : ReactApi.t)
    (fs fs' : FileSystem) (outcome : result unit) (p : string) :
  emitArtifacts componentInfo projectSettings reactApi fs = (fs', outcome) ->
  (forall directory language,
      In directory ["docs/translations/api-docs"; "docs/translations/api-docs-joy";
                    "docs/translations/api-docs-base"] ->
      p <> resolveApiDocsTranslationsComponentLanguagePath
             (pathResolve (pathJoin cwd directory) (kebabCase (ReactApi.name reactApi)))
             (ReactApi.name reactApi) language) ->
  p <> pathResolve (ComponentInfo.apiPagesDirectory componentInfo)
         (kebabCase (ReactApi.name reactApi) +:+ ".json") ->
  p <> pathResolve (ComponentInfo.apiPagesDirectory componentInfo)
         (kebabCase (ReactApi.name reactApi) +:+ ".js") ->
  p <> Regex.replace jsExtensionRegex ".d.ts" (ReactApi.filename reactApi) ->
  files fs' !! p = files fs !! p.
Proof.
  intros Hrun Htranslations Hjson Hjs Htypes. unfold emitArtifacts in Hrun.
  destruct (ComponentInfo.skipApiGeneration componentInfo); cbn [negb] in Hrun;
    [now injection Hrun as <- _|].
  set (directory := if _ : bool then _ else _) in Hrun.
  assert (Hdirectory : In directory
            ["docs/translations/api-docs"; "docs/translations/api-docs-joy";
             "docs/translations/api-docs-base"]).
  { unfold directory. destruct (_ && _); [cbn; auto|]. destruct (_ && _); cbn; auto. }
  unfold mbind, io_bind, ioBind in Hrun.
  assert (Hframe1 : forall fs1 outcome1,
             generateApiTranslations (pathJoin cwd directory) reactApi
               (ProjectSettings.translationLanguages projectSettings) fs =
               (fs1, outcome1) ->
             files fs1 !! p = files fs !! p).
  { intros fs1 outcome1 Hrun1.
    apply (generateApiTranslations_frame _ _ _ _ _ _ Hrun1).
    intros language. now apply Htranslations. }
  destruct (generateApiTranslations _ _ _ fs) as [fs1 [[]|error1]] eqn:Hrun1;
    [|injection Hrun as <- _; now apply (Hframe1 _ _ eq_refl)].
  rewrite <- (Hframe1 _ _ eq_refl).
  destruct (generateApiPage _ _ _ _ fs1) as [fs2 [[]|error2]] eqn:Hrun2;
    pose proof (generateApiPage_frame _ _ _ _ _ _ _ Hrun2 p Hjson (fun _ => Hjs)) as Hframe2;
    [|now injection Hrun as <- _].
  rewrite <- Hframe2.
  exact (annotateComponentDefinition_frame _ _ _ _ Hrun p Htypes).
Qed.

Lemma replaceAllFuel_none (fuel : nat) (r : Regex.regex) (template s : string) :
  Regex.exec r s = None -> Regex.replaceAllFuel fuel r template s = s.
Proof. intros Hnone. destruct fuel; [reflexivity|]. cbn. now rewrite Hnone. Qed.

Lemma codeRegex_refused (s : string) (a : ascii) :
  Ascii.eqb a "`" = false -> attempt codeRegex (String a s) = None.
Proof.
  intros Ha. unfold attempt, codeRegex. rewrite run_Seq. cbn [Regex.run].
  now rewrite (stripPrefix_head "`" a "" s) by now rewrite Ascii.eqb_sym.
Qed.

Lemma exec_codeRegex_none (s : string) :
  noBackquote s = true -> Regex.exec codeRegex s = None.
Proof.
  intros Hs. apply execFrom_refused. intros pre post ->.
  unfold noBackquote in Hs. rewrite allUnits_append in Hs.
  apply andb_true_iff in Hs as [_ Hpost].
  destruct post as [|a post]; [reflexivity|].
  cbn [Js.allUnits] in Hpost. apply andb_true_iff in Hpost as [Ha _].
  apply negb_true_iff in Ha. now apply codeRegex_refused.
Qed.

Lemma noBackquote_refusedBefore {R} (k : string -> option R) (target rest : string) :
  noBackquote target = true ->
  (forall a u, Ascii.eqb a "`" = false -> k (String a u) = None) ->
  refusedBefore k target rest.
Proof.
  intros Htarget Hk. induction target as [|a target IH]; [exact I|].
  unfold noBackquote in Htarget. cbn [Js.allUnits] in Htarget.
  apply andb_true_iff in Htarget as [Ha Htarget]. apply negb_true_iff in Ha.
  cbn [refusedBefore]. split; [now apply Hk | now apply IH].
Qed.

Lemma attempt_codeRegex (code after : string) :
  noBackquote code = true -> Js.singleLine code = true ->
  attempt codeRegex ("`" +:+ code +:+ "`" +:+ after) = Some (after, [(1, code)]).
Proof.
  intros Hcode Hline. unfold attempt, codeRegex.
  rewrite run_Seq, run_Lit_append, run_Seq, run_Cap, run_LazyStar.
  erewrite lazyRun_target; [reflexivity | exact Hline | |].
  - apply noBackquote_refusedBefore; [exact Hcode|].
    intros a u Ha. cbn [Regex.run].
    now rewrite (stripPrefix_head "`" a "" u) by now rewrite Ascii.eqb_sym.
  - now rewrite run_Lit_append, consumed_append.
Qed.

Lemma substitution_code (m : Regex.result) :
  Regex.substitution m (Regex.groupCount codeRegex) "<code>$1</code>" =
  "<code>" +:+ default "" (Regex.group m 1) +:+ "</code>".
Proof. reflexivity. Qed.

(** X20. In the condition of a class, text between two backquotes, on one
    line, is put between [<code>] and [</code>] and the backquotes are
    dropped; what surrounds it, when it holds no backquote, and a condition
    without backquote are kept as they are. *)
Theorem code_in_condition_is_marked (before code after : string) :
  noBackquote before = true ->
  noBackquote code = true ->
  Js.singleLine code = true ->
  noBackquote after = true ->
  Regex.replaceAll codeRegex "<code>$1</code>"
    (before +:+ "`" +:+ code +:+ "`" +:+ after) =
    before +:+ "<code>" +:+ code +:+ "</code>" +:+ after /\
  Regex.replaceAll codeRegex "<code>$1</code>" before = before.
Proof.
  intros Hbefore Hcode Hline Hafter. split.
  - unfold Regex.replaceAll. cbn [Regex.replaceAllFuel]. unfold Regex.exec.
    rewrite execFrom_skip.
    + rewrite (execFrom_here _ _ _ _ _ (attempt_codeRegex code after Hcode Hline)).
      cbn [Regex.index Regex.matched Regex.rest plus].
      rewrite take_append, substitution_code.
      cbn [Regex.group Regex.groups Regex.capture Nat.eqb default]. unfold id.
      rewrite (consumed_spec _ ("`" +:+ code +:+ "`") after)
        by now rewrite !append_assoc.
      cbn iota.
      rewrite replaceAllFuel_none by now apply exec_codeRegex_none.
      now rewrite !append_assoc.
    + intros pre1 pre2 -> Hne. unfold noBackquote in Hbefore.
      rewrite allUnits_append in Hbefore. apply andb_true_iff in Hbefore as [_ Hpre2].
      destruct pre2 as [|a pre2]; [congruence|].
      cbn [Js.allUnits] in Hpre2. apply andb_true_iff in Hpre2 as [Ha _].
      apply negb_true_iff in Ha. now apply codeRegex_refused.
  - apply replaceAllFuel_none. now apply exec_codeRegex_none.
Qed.

Lemma description_lines (text : string) :
  let body := Js.trim text in
  match last (Js.splitOn "010" body) with
  | Some EmptyString => Js.splitOn "010" body
  | _ => Js.splitOn "010" body ++ [""]
  end =
  if String.eqb body "" then [""] else Js.splitOn "010" body ++ [""].
Proof.
  intros body. destruct (String.eqb_spec body "") as [->|Hne]; [reflexivity|].
  destruct (last (Js.splitOn "010" body)) as [[|a l]|] eqn:Hlast; try reflexivity.
  exfalso. apply last_splitOn_empty in Hlast as [Hempty|[s' Hs']]; [contradiction|].
  now apply (trim_not_ending_blank text s' "010").
Qed.

(** X21. The lines of the annotation are the lines of the rendered
    description, one empty line (the only line when the description is
    empty), [Demos:], an empty line, one line for each demo, an empty line,
    [API:], an empty line, the link to the API of the component and, when
    the component inherits from another one, the link to the API of that
    one. *)
Theorem annotation_layout (api : ReactApi.t) :
  let body := computeApiDescription (ReactApi.description api) HOST in
  markdownLines api =
    (if String.eqb body "" then [""] else Js.splitOn "010" body ++ [""]) ++
    ["Demos:"; ""] ++ map demoLine (ReactApi.demos api) ++
    [""; "API:"; "";
     "- [" +:+ ReactApi.name api +:+ " API](" +:+
     absoluteUrl HOST (ReactApi.apiPathname api) +:+ ")"] ++
    match ReactApi.inheritance api with
    | Some inh =>
        ["- inherits [" +:+ Inheritance.name inh +:+ " API](" +:+
         absoluteUrl HOST (Inheritance.apiPathname inh) +:+ ")"]
    | None => []
    end.
Proof.
  intros body. unfold markdownLines, inheritanceAPILink. fold body.
  unfold body, computeApiDescription. rewrite description_lines.
  destruct (ReactApi.inheritance api) as [inh|];
    rewrite <- ?app_assoc; cbn [app]; rewrite ?app_nil_r; reflexivity.
Qed.

(** X22. For a component whose API path starts with [/base] the artifact
    step writes no page module: the file of the module, when it is none of
    the other artifacts of the component, is as it was. *)
Theorem base_component_has_no_page_module (componentInfo : ComponentInfo.t)
    (projectSettings : ProjectSettings.t) (reactApi : ReactApi.t)
    (fs fs' : FileSystem) (outcome : result unit) :
  Js.startsWith (normalizeSlashes (ReactApi.apiPathname reactApi)) "/base" = true ->
  emitArtifacts componentInfo projectSettings reactApi fs = (fs', outcome) ->
  let js :=
    pathResolve (ComponentInfo.apiPagesDirectory componentInfo)
      (kebabCase (ReactApi.name reactApi) +:+ ".js") in
  (forall directory language,
      In directory ["docs/translations/api-docs"; "docs/translations/api-docs-joy";
                    "docs/translations/api-docs-base"] ->
      js <> resolveApiDocsTranslationsComponentLanguagePath
              (pathResolve (pathJoin cwd directory) (kebabCase (ReactApi.name reactApi)))
              (ReactApi.name reactApi) language) ->
  js <> pathResolve (ComponentInfo.apiPagesDirectory componentInfo)
          (kebabCase (ReactApi.name reactApi) +:+ ".json") ->
  js <> Regex.replace jsExtensionRegex ".d.ts" (ReactApi.filename reactApi) ->
  files fs' !! js = files fs !! js.
Proof.
  intros Hbase Hrun js Htranslations Hjson Htypes. unfold emitArtifacts in Hrun.
  destruct (ComponentInfo.skipApiGeneration componentInfo); cbn [negb] in Hrun;
    [now injection Hrun as <- _|].
  rewrite Hbase in Hrun.
  set (directory := if _ : bool then _ else _) in Hrun.
  assert (Hdirectory : In directory
            ["docs/translations/api-docs"; "docs/translations/api-docs-joy";
             "docs/translations/api-docs-base"]).
  { unfold directory. destruct (_ && _); [cbn; auto|]. destruct (_ && _); cbn; auto. }
  unfold mbind, io_bind, ioBind in Hrun.
  assert (Hframe1 : forall fs1 outcome1,
             generateApiTranslations (pathJoin cwd directory) reactApi
               (ProjectSettings.translationLanguages projectSettings) fs =
               (fs1, outcome1) ->
             files fs1 !! js = files fs !! js).
  { intros fs1 outcome1 Hrun1.
    apply (generateApiTranslations_frame _ _ _ _ _ _ Hrun1).
    intros language. now apply Htranslations. }
  destruct (generateApiTranslations _ _ _ fs) as [fs1 [[]|error1]] eqn:Hrun1;
    [|injection Hrun as <- _; now apply (Hframe1 _ _ eq_refl)].
  rewrite <- (Hframe1 _ _ eq_refl).
  destruct (generateApiPage _ _ _ true fs1) as [fs2 [[]|error2]] eqn:Hrun2;
    pose proof (generateApiPage_frame _ _ _ _ _ _ _ Hrun2 js Hjson
                  ltac:(discriminate)) as Hframe2;
    [|now injection Hrun as <- _].
  rewrite <- Hframe2.
  exact (annotateComponentDefinition_frame _ _ _ _ Hrun js Htypes).
Qed.

Lemma length_take_within (n : nat) (s : string) :
  n <= String.length s -> String.length (Js.take n s) = n.
Proof.
  revert s. induction n as [|n IH]; intros s Hn; [now destruct s|].
  destruct s as [|a s]; [simpl in Hn; lia|].
  simpl in *. rewrite IH; [reflexivity | lia].
Qed.

Lemma drop_append (x y : string) : Js.drop (String.length x) (x +:+ y) = y.
Proof. induction x as [|a x IH]; [now destruct y | exact IH]. Qed.

Lemma position_within (n : nat) (s : string) :
  n <= String.length s -> Js.position (String.length s) (Z.of_nat n) = n.
Proof.
  intros Hn. unfold Js.position.
  destruct (Z.ltb_spec (Z.of_nat n) 0); [lia|].
  rewrite Nat2Z.id. lia.
Qed.

Lemma withFile_again (fs : FileSystem) (path data : string) :
  withFile (withFile fs path data) path data = withFile fs path data.
Proof.
  apply FileSystem_eq; [|reflexivity].
  intros p. cbn [withFile files].
  destruct (String.eqb_spec path p) as [<-|Hp].
  - now rewrite !lookup_insert_eq.
  - now rewrite !lookup_insert_ne by exact Hp.
Qed.

(** X25. The annotation is idempotent on a file whose description holds no
    marker. Let the rendered description, followed by an empty line, hold
    no match of the marker, let rendering leave it as it is, and let the
    comment be located in the file at a range that starts after the first
    code unit; let the run of [annotateComponentDefinition] succeed. Then
    the file holds its text with the new comment in the place of the range;
    and when the comment is located in that text where it was written, and
    the description read from it is stripped, the second run succeeds and
    leaves the file system as the first run left it. *)
Theorem annotation_idempotent_on_file (api : ReactApi.t) (fs fs1 : FileSystem)
    (src : string) (start end_ : nat) :
  let types := Regex.replace jsExtensionRegex ".d.ts" (ReactApi.filename api) in
  let located source :=
    locateJsdoc source types (ReactApi.filename api)
      (pathParseName (ReactApi.filename api)) in
  let body := computeApiDescription (ReactApi.description api) HOST in
  let written := Js.take start src +:+ jsdoc api +:+ Js.drop end_ src in
  let again := ReactApi.setDescription api (stripAnnotation (annotatedDescription api)) in
  Regex.exec annotatedDescriptionRegex (body +:+ Js.LF +:+ Js.LF) = None ->
  computeApiDescription body HOST = body ->
  files fs !! types = Some src ->
  located src = Return (Z.of_nat start, Some (Z.of_nat end_)) ->
  0 < start <= end_ ->
  end_ <= String.length src ->
  annotateComponentDefinition api fs = (fs1, Return tt) ->
  located written =
    Return (Z.of_nat start, Some (Z.of_nat (start + String.length (jsdoc api)))) ->
  files fs1 !! types = Some written /\
  annotateComponentDefinition again fs1 = (fs1, Return tt).
Proof.
  intros types located body written again Hnone Hstable Hfile Hlocated Hrange Hend
    Hrun Hrelocated.
  assert (Hjsdoc : jsdoc again = jsdoc api).
  { apply jsdoc_same_rendering. rewrite (annotation_stripped api Hnone). exact Hstable. }
  assert (Hstart : (Z.of_nat start =? 0)%Z = false) by (apply Z.eqb_neq; lia).
  unfold annotateComponentDefinition in Hrun. fold types in Hrun.
  unfold readFileSync in Hrun. rewrite Hfile in Hrun.
  change (locateJsdoc src types (ReactApi.filename api)
            (pathParseName (ReactApi.filename api))) with (located src) in Hrun.
  rewrite Hlocated, Hstart in Hrun.
  unfold Js.sliceTo, Js.sliceFrom in Hrun.
  rewrite !position_within in Hrun by lia. fold written in Hrun.
  apply writeFileSync_Return in Hrun as (-> & Hwritable).
  split; [apply lookup_insert_eq|].
  unfold annotateComponentDefinition.
  change (ReactApi.filename again) with (ReactApi.filename api). fold types.
  unfold readFileSync. cbn [withFile files]. rewrite lookup_insert_eq.
  change (locateJsdoc written types (ReactApi.filename api)
            (pathParseName (ReactApi.filename api))) with (located written).
  rewrite Hrelocated, Hstart, Hjsdoc.
  assert (Hlength : String.length (Js.take start src) = start)
    by (apply length_take_within; lia).
  assert (Hwritten : String.length written =
                     start + String.length (jsdoc api) + String.length (Js.drop end_ src)).
  { unfold written. rewrite !length_append, Hlength. lia. }
  unfold Js.sliceTo, Js.sliceFrom.
  rewrite !position_within by lia.
  assert (Hbefore : Js.take start written = Js.take start src).
  { unfold written. rewrite <- Hlength at 1. apply take_append. }
  assert (Hafter : Js.drop (start + String.length (jsdoc api)) written = Js.drop end_ src).
  { unfold written. rewrite <- append_assoc.
    rewrite <- Hlength at 1. rewrite <- length_append. apply drop_append. }
  rewrite Hbefore, Hafter. fold written.
  change (mkFS (<[types := written]> (files fs)) (directories fs))
    with (withFile fs types written).
  rewrite (writeFileSync_writable types written (withFile fs types written) Hwritable).
  now rewrite withFile_again.
Qed.

End MoreProperties.

(** ** The module on the sample components

    The theorems above applied to the components of [Instances], read in the
    environment of [Sample], and the inputs on which a statement of the
    documentation does not hold as it stands. *)

#[local] Existing Instance Sample.imports.

Lemma compareStrings_le (a b : string) :
  (Sample.compareStrings a b <= 0)%Z <-> String.le a b.
Proof.
  unfold Sample.compareStrings, String.le, String.leb.
  destruct (String.compare a b); simpl; intuition (try lia; try discriminate).
Qed.

Lemma compareStrings_total (a b : string) :
  (Sample.compareStrings a b <= 0 \/ Sample.compareStrings b a <= 0)%Z.
Proof.
  rewrite !compareStrings_le. destruct (total String.le a b); auto.
Qed.

Lemma compareStrings_trans (a b c : string) :
  (Sample.compareStrings a b <= 0 -> Sample.compareStrings b c <= 0 ->
   Sample.compareStrings a c <= 0)%Z.
Proof.
  rewrite !compareStrings_le. intros Hab Hbc. now transitivity b.
Qed.

(** C1 fails in the code on a prop whose name is a number: the object
    that is built from the sorted pairs enumerates the name [0] first, so a
    prop that is not required comes before the required one. *)
Lemma numbered_prop_precedes_required :
  Obj.keys (sortedProps Instances.numberTable) = ["0"; "children"] /\
  Obj.get "0" (sortedProps Instances.numberTable) = Some Instances.optional /\
  Obj.get "children" (sortedProps Instances.numberTable) = Some Instances.required /\
  isRequired Instances.optional = false /\
  isRequired Instances.required = true.
Proof. repeat split. Qed.

(** X23 on a table of three props. *)
Lemma props_sorted_required_first_witness :
  (Permutation (sortedProps Instances.wordTable) Instances.wordTable /\
   forall before a after b rest,
     sortedProps Instances.wordTable = before ++ a :: after ++ b :: rest ->
     (isRequired (snd b) = true -> isRequired (snd a) = true) /\
     (isRequired (snd a) = isRequired (snd b) ->
      (Sample.compareStrings (fst a) (fst b) <= 0)%Z)) /\
  Obj.keys (sortedProps Instances.wordTable) = ["children"; "color"; "variant"].
Proof.
  split; [|reflexivity].
  apply (props_sorted_required_first (H := Sample.imports) Instances.wordTable).
  - exact compareStrings_total.
  - exact compareStrings_trans.
  - repeat constructor; simpl; intuition discriminate.
  - intros name [<-|[<-|[<-|[]]]]; reflexivity.
Defined.

(** C2 on a component with two props that lack a description, and on one
    whose props are all described. *)
Lemma attachPropsTable_aggregates_errors_witness :
  (attachPropsTable Instances.brokenApi =
     Throw (mkError "Error"
       (propErrorsMessage
          (map (fun pe => (propLabel Instances.brokenApi (fst pe), snd pe))
               (failingProps Instances.brokenApi)))) /\
   occursIn "[Button] `size`"
     (propErrorsMessage
        (map (fun pe => (propLabel Instances.brokenApi (fst pe), snd pe))
             (failingProps Instances.brokenApi)))) /\
  map fst (failingProps Instances.brokenApi) = ["color"; "size"] /\
  exists table,
    attachPropsTable Instances.describedApi =
      Return (ReactApi.setPropsTable Instances.describedApi table).
Proof.
  destruct (attachPropsTable_aggregates_errors (H := Sample.imports) Instances.brokenApi)
    as [Hthrow _].
  destruct (attachPropsTable_aggregates_errors (H := Sample.imports)
              Instances.describedApi) as [_ Hreturn].
  split; [|split; [reflexivity|]].
  - apply (Hthrow "size" (Instances.undescribed "enum")
             (mkError "Error" "The `size` prop is missing a description.")).
    + simpl. auto.
    + reflexivity.
  - apply Hreturn.
    intros propName propDescriptor [[= <- <-]|[[= <- <-]|[]]]; eexists; reflexivity.
Defined.

(** C3, the claim as stated fails on the root element with a condition: its
    [nodeName] is recorded. *)
Lemma root_element_condition_records_nodeName :
  extractClassConditions [("dense", "Styles applied to the root element if dense.")] =
    [("dense",
      ClassTranslation.mk "Styles applied to {{nodeName}} if {{conditions}}."
        (Some "dense") (Some "the root element"))].
Proof. reflexivity. Qed.

(** C3, the amended claim on the classes [dense] and [root]. *)
Lemma class_conditions_recorded_witness :
  Obj.get "dense"
    (extractClassConditions
       [("dense", "Styles applied to the root element if dense.");
        ("root", "Styles applied to the root element.")]) =
  Some (ClassTranslation.mk "Styles applied to {{nodeName}} if {{conditions}}."
          (Some "dense") (Some "the root element")).
Proof.
  destruct (class_conditions_recorded (H := Sample.imports)
              [("dense", "Styles applied to the root element if dense.");
               ("root", "Styles applied to the root element.")]
              "dense" "Styles") as [Hcondition _].
  - repeat constructor; simpl; intuition discriminate.
  - discriminate.
  - simpl. auto.
  - apply (Hcondition "the root element" " if " "dense").
    + simpl. auto.
    + reflexivity.
    + reflexivity.
    + reflexivity.
    + discriminate.
    + simpl. auto.
Defined.

(** C4, the claim as stated fails on a raw signature that holds
    [.isRequired] before its end: the prop is required, although its own
    flag is not set, the signature does not end in [isRequired], and the
    type is not chained. *)
Lemma required_inside_raw_signature :
  Entry.required
    (propsTableEntry Instances.describedApi "open"
       (Instances.described "custom" (PropType.raw (Describeable.type Instances.wrappedProp)))
       Instances.wrappedProp) = Some true /\
  Describeable.required Instances.wrappedProp = false /\
  Js.endsWith
    (default "undefined" (PropType.raw (Describeable.type Instances.wrappedProp)))
    "isRequired" = false /\
  getChained (Describeable.type Instances.wrappedProp) = None.
Proof. repeat split. Qed.

(** C5, the claim as stated fails on a component whose file is to be
    skipped: it has no demo, and the run yields [null]. *)
Lemma skipped_component_needs_no_demo :
  ComponentInfo.getDemos MoreInstances.ignoredComponent = [] /\
  generateComponentApi MoreInstances.ignoredComponent (Project 0) Instances.settings
    Instances.emptyFiles = (Instances.emptyFiles, Return None).
Proof. split; reflexivity. Qed.

(** C5, the amended claim on a component without demos and on one with a
    demo. *)
Lemma missing_demos_fail_the_build_witness :
  (generateComponentApi (Instances.component false []) (Project 0) Instances.settings
     Instances.emptyFiles =
     (Instances.emptyFiles, Throw (missingDemosError "Button")) /\
   occursIn "`components: Button`" (message (missingDemosError "Button"))) /\
  exists fs' reactApi,
    generateComponentApi (Instances.component false [Instances.demo]) (Project 0)
      Instances.settings MoreInstances.sourceFiles = (fs', Return (Some reactApi)).
Proof.
  split.
  - destruct (missing_demos_fail_the_build (H := Sample.imports)
                (Instances.component false []) (Project 0)
                Instances.settings Instances.emptyFiles) as [_ Hread].
    destruct (Hread eq_refl) as [_ Hparsed].
    destruct (Hparsed (Docgen.mk [] "A button.") eq_refl) as [Hempty _].
    exact (Hempty eq_refl).
  - destruct (missing_demos_fail_the_build (H := Sample.imports)
                (Instances.component false [Instances.demo]) (Project 0)
                Instances.settings MoreInstances.sourceFiles) as [_ Hread].
    destruct (Hread eq_refl) as [_ Hparsed].
    destruct (Hparsed (Docgen.mk [] "A button.") eq_refl) as [_ Hdemos].
    destruct (Hdemos ltac:(discriminate)) as [_ Htested].
    destruct (Htested (TestInfo.mk None None ThemeUndefined None) eq_refl)
      as [_ Hdescribed].
    eexists _, _. eapply Hdescribed; [reflexivity|].
    vm_compute. reflexivity.
Defined.

(** C6 on the prop [color], whose type is rendered by its raw signature. *)
Lemma type_description_omitted_iff_alias_witness :
  exists propDescriptor,
    In ("color", propDescriptor) (ReactApi.props Instances.describedApi) /\
    TableType.name (Entry.type Instances.colorEntry) =
      Some (PropType.name (PropDescriptor.type propDescriptor)) /\
    (TableType.description (Entry.type Instances.colorEntry) = None <->
     generatePropTypeDescription (PropDescriptor.type propDescriptor) =
       PropType.name (PropDescriptor.type propDescriptor)) /\
    (generatePropTypeDescription (PropDescriptor.type propDescriptor) <>
       PropType.name (PropDescriptor.type propDescriptor) ->
     TableType.description (Entry.type Instances.colorEntry) =
       Some (generatePropTypeDescription (PropDescriptor.type propDescriptor))).
Proof.
  apply (type_description_omitted_iff_alias (H := Sample.imports) Instances.describedApi
           (ReactApi.setPropsTable Instances.describedApi
              [("color", Instances.colorEntry);
               ("disabled",
                Entry.mk (TableType.mk (Some "bool") None)
                  None None None None None None)])
           "color" Instances.colorEntry).
  - reflexivity.
  - simpl. auto.
Defined.

(** C7 fails in the code on a description written by hand that ends in
    [API:]. The first run writes it into the comment, before the empty line
    that separates it from the generated part; the second run, on the file
    that the first run left, reads it as the marker of the generated part,
    describes the component by [Foo] and writes another comment. A
    description without marker is written again as it was. *)
Lemma handwritten_marker_lost_on_second_run :
  Sample.readDescription (Instances.source ["Foo API:"]) = "Foo API:" /\
  Sample.readDescription (MoreInstances.annotated "Foo API:") =
    annotatedDescription (Instances.api [] "Foo API:") /\
  (exists reactApi,
      snd (MoreInstances.secondRun "Foo API:") = Return (Some reactApi) /\
      ReactApi.description reactApi = "Foo") /\
  files (fst (MoreInstances.secondRun "Foo API:")) !! "Button.tsx" <>
    files (MoreInstances.firstRun "Foo API:") !! "Button.tsx" /\
  files (fst (MoreInstances.secondRun "A button.")) !! "Button.tsx" =
    files (MoreInstances.firstRun "A button.") !! "Button.tsx".
Proof.
  split; [reflexivity|]. split; [vm_compute; reflexivity|]. split; [|split].
  - eexists. split; vm_compute; reflexivity.
  - vm_compute. discriminate.
  - vm_compute. reflexivity.
Qed.

(** X24 on a description without marker. *)
Lemma annotation_regenerated_unchanged_witness :
  stripAnnotation (annotatedDescription Instances.describedApi) = "A button." /\
  jsdoc (ReactApi.setDescription Instances.describedApi
           (stripAnnotation (annotatedDescription Instances.describedApi))) =
    jsdoc Instances.describedApi.
Proof.
  destruct (annotation_regenerated_unchanged (H := Sample.imports)
              Instances.describedApi) as [Hplain _].
  destruct (Hplain eq_refl) as [Hstrip Hjsdoc].
  split; [exact Hstrip | exact (Hjsdoc eq_refl)].
Defined.

(** C8, the claim as stated fails on a file system in which a file has
    the name of the directory of the bundles: the run throws, and the
    bundle of [en] is not written. *)
Lemma file_in_the_way_of_the_directory :
  generateApiTranslations "translations" Instances.describedApi ["en"; "fr"; "de"]
    Instances.blockedFiles =
    (Instances.blockedFiles,
     Throw (mkError "Error" "EEXIST: file already exists, mkdir 'translations/Button'")) /\
  files Instances.blockedFiles !! "translations/Button/Button.json" = None.
Proof. split; vm_compute; reflexivity. Qed.

(** C8, the amended claim on a file system in which the French bundle is
    there and the German one is not. *)
Lemma translations_seeded_not_overwritten_witness :
  exists fs',
    generateApiTranslations "translations" Instances.describedApi ["en"; "fr"; "de"]
      Instances.translatedFiles = (fs', Return tt) /\
    files fs' !! "translations/Button/Button.json" = Some "A button." /\
    files fs' !! "translations/Button/Button-fr.json" = Some "translated" /\
    files fs' !! "translations/Button/Button-de.json" = Some "A button.".
Proof.
  destruct (translations_seeded_not_overwritten (H := Sample.imports) "translations"
              Instances.describedApi ["en"; "fr"; "de"] Instances.translatedFiles)
    as [_ Hcreated].
  destruct (Hcreated Instances.translatedFiles eq_refl) as [_ Hwritable].
  destruct (Hwritable eq_refl) as (fs' & Hrun & Hen & Hother & _).
  exists fs'. split; [exact Hrun|]. split; [exact Hen|]. split.
  - apply (Hother "fr"); [simpl; auto | discriminate | discriminate].
  - apply (Hother "de"); [simpl; auto | discriminate | discriminate].
Defined.

(** C9 on a system component made by [createBox], on one whose factory is
    not found, and on a tree with a call of [createButton]. *)
Lemma factory_lookup_falls_back_witness :
  parseComponent MoreInstances.box "const Box = createBox();" "Box.js" =
    Return (Docgen.mk [] "") /\
  parseComponent (Instances.component true []) (Instances.source ["A button."])
    "Button.tsx" = Return (Docgen.mk [] "A button.") /\
  findCreateDefinition "Button" Instances.program = Some Instances.createButton.
Proof.
  destruct (factory_lookup_falls_back (H := Sample.imports) MoreInstances.box
              "const Box = createBox();" "Box.js") as (Hbox & _ & _).
  destruct (Hbox eq_refl) as (Hfactory & _ & _).
  destruct (factory_lookup_falls_back (H := Sample.imports) (Instances.component true [])
              (Instances.source ["A button."]) "Button.tsx") as (Hsystem & _ & Hfinder).
  destruct (Hsystem eq_refl) as (_ & Hfallback & _).
  split; [|split].
  - exact (Hfactory (Docgen.mk [] "") eq_refl).
  - exact (Hfallback (mkError "Error" "No suitable component definition found.")
             eq_refl eq_refl).
  - exact (proj1 (Hfinder Instances.program)).
Defined.

(** X3 on a file system in which the French bundle is there. *)
Lemma generateApiTranslations_idempotent_witness :
  exists fs',
    generateApiTranslations "translations" Instances.describedApi ["en"; "fr"; "de"]
      Instances.translatedFiles = (fs', Return tt) /\
    "translations/Button" ∈ directories fs' /\
    generateApiTranslations "translations" Instances.describedApi ["en"; "fr"; "de"]
      fs' = (fs', Return tt).
Proof.
  eexists. split; [vm_compute; reflexivity|].
  apply (generateApiTranslations_idempotent (H := Sample.imports) "translations"
           Instances.describedApi ["en"; "fr"; "de"] Instances.translatedFiles).
  vm_compute. reflexivity.
Defined.

(** X5 on the button with [skipApiGeneration] set. *)
Lemma skipApiGeneration_writes_nothing_witness :
  fst (generateComponentApi MoreInstances.skippedComponent (Project 0) Instances.settings
         Instances.emptyFiles) = Instances.emptyFiles /\
  exists reactApi,
    snd (generateComponentApi MoreInstances.skippedComponent (Project 0)
           Instances.settings Instances.emptyFiles) = Return (Some reactApi).
Proof.
  destruct (skipApiGeneration_writes_nothing (H := Sample.imports)
              MoreInstances.skippedComponent (Project 0) Instances.settings
              Instances.emptyFiles eq_refl) as [Hframe Hreturn].
  split.
  - apply (Hframe _ _ (surjective_pairing _)).
  - eexists. erewrite Hreturn;
      [reflexivity | reflexivity | reflexivity | discriminate | reflexivity | reflexivity].
Defined.

(** X6 on the button, in a file system that holds its source. *)
Lemma generateComponentApi_returns_consistent_api_witness :
  exists fs' reactApi,
    generateComponentApi (Instances.component false [Instances.demo]) (Project 0)
      Instances.settings MoreInstances.sourceFiles = (fs', Return (Some reactApi)) /\
    ReactApi.demos reactApi = [Instances.demo] /\
    ReactApi.name reactApi = "Button" /\
    Regex.exec annotatedDescriptionRegex (ReactApi.description reactApi) = None /\
    ~ In "undefined" (Obj.keys (ReactApi.propsTable reactApi)).
Proof.
  assert (Hrun : exists fs' reactApi,
             generateComponentApi (Instances.component false [Instances.demo]) (Project 0)
               Instances.settings MoreInstances.sourceFiles =
               (fs', Return (Some reactApi))).
  { vm_compute. eauto. }
  destruct Hrun as (fs' & reactApi & Hrun). exists fs', reactApi.
  destruct (generateComponentApi_returns_consistent_api (H := Sample.imports)
              _ _ _ _ _ _ Hrun)
    as (Hdemos & _ & Hname & _ & _ & Hmarker & _ & Hundefined).
  repeat split; assumption.
Defined.

(** X8 on the button with two props that lack a description. *)
Lemma attachTranslations_describes_accepted_props_witness :
  Obj.get "size"
    (Translations.propDescriptions
       (ReactApi.translations (attachTranslations Instances.brokenApi))) = None /\
  Obj.get "disabled"
    (Translations.propDescriptions
       (ReactApi.translations (attachTranslations Instances.brokenApi))) =
    Some (propTranslation
            (Describeable.mk false (PropType.mk "bool" None)) "disabled") /\
  Obj.get "variant"
    (Translations.propDescriptions
       (ReactApi.translations (attachTranslations Instances.brokenApi))) = None.
Proof.
  assert (Hnodup : List.NoDup (Obj.keys (ReactApi.props Instances.brokenApi))).
  { repeat constructor; simpl; intuition discriminate. }
  destruct (attachTranslations_describes_accepted_props (H := Sample.imports)
              Instances.brokenApi "size" Hnodup) as (Hsize & _).
  destruct (attachTranslations_describes_accepted_props (H := Sample.imports)
              Instances.brokenApi "disabled" Hnodup) as (Hdisabled & _).
  destruct (attachTranslations_describes_accepted_props (H := Sample.imports)
              Instances.brokenApi "variant" Hnodup) as (_ & Hvariant & _).
  split; [|split].
  - apply (Hsize (Instances.undescribed "enum")). simpl. auto.
  - apply (Hdisabled (Instances.described "bool" None)). simpl. auto.
  - apply Hvariant. simpl. intuition discriminate.
Defined.

(** X9 on the button with two described props. *)
Lemma props_table_matches_translations_witness :
  (In "color" (Obj.keys (ReactApi.propsTable
                           (ReactApi.setPropsTable Instances.describedApi
                              [("color", Instances.colorEntry);
                               ("disabled",
                                Entry.mk (TableType.mk (Some "bool") None)
                                  None None None None None None)]))) <->
   (exists propDescriptor prop,
       In ("color", propDescriptor) (ReactApi.props Instances.describedApi) /\
       createDescribeableProp propDescriptor "color" = Return (Some prop)) /\
   "color" <> "undefined") /\
  In "color"
     (Obj.keys (Translations.propDescriptions
                  (ReactApi.translations (attachTranslations Instances.describedApi)))).
Proof.
  destruct (props_table_matches_translations (H := Sample.imports)
              Instances.describedApi
              (ReactApi.setPropsTable Instances.describedApi
                 [("color", Instances.colorEntry);
                  ("disabled",
                   Entry.mk (TableType.mk (Some "bool") None)
                     None None None None None None)])
              "color" eq_refl) as [Htable Htranslated].
  { repeat constructor; simpl; intuition discriminate. }
  split; [exact Htable|].
  apply Htranslated.
  exists (Instances.described "enum" (Some "'red' | 'blue'")),
         (Describeable.mk false (PropType.mk "enum" (Some "'red' | 'blue'"))).
  split; [simpl; auto | reflexivity].
Defined.

(** X11 on a prop deprecated in favour of another one. *)
Lemma deprecation_info_is_rest_of_line_witness :
  Entry.deprecationInfo
    (propsTableEntry Instances.describedApi "dense" MoreInstances.deprecatedProp
       (Describeable.mk false (PropType.mk "bool" None))) =
  Some "Use the size prop instead.".
Proof.
  apply (deprecation_info_is_rest_of_line (H := Sample.imports)
           Instances.describedApi "dense" MoreInstances.deprecatedProp
           (Describeable.mk false (PropType.mk "bool" None))
           "If true, the button is dense. " " " "Use the size prop instead." "");
    [reflexivity | reflexivity | discriminate | reflexivity | reflexivity
     | reflexivity | exact I].
Defined.

(** X12 on the class of the input element. *)
Lemma class_target_recorded_witness :
  Obj.get "input"
    (extractClassConditions [("input", "Styles applied to the input element.")]) =
  Some (ClassTranslation.mk "Styles applied to {{nodeName}}." None
          (Some "the input element")).
Proof.
  apply (class_target_recorded (H := Sample.imports)
           [("input", "Styles applied to the input element.")]
           "input" "Styles" "the input element");
    try reflexivity; try discriminate; try (simpl; auto; fail).
  repeat constructor; simpl; intuition.
Defined.

(** X14 on the button of the Material UI package. *)
Lemma component_imports_of_package_witness :
  getComponentImports "Button" "packages/mui-material/src/Button/Button.js" =
  ["import Button from '@mui/material/Button';";
   "import { Button } from '@mui/material';"].
Proof.
  exact (proj1 (component_imports_of_package (H := Sample.imports)
                  "Button" "packages/mui-material/src/Button/Button.js"
                  "material" "Button" "Button.js"
                  eq_refl eq_refl ltac:(discriminate) eq_refl ltac:(discriminate)
                  eq_refl)).
Defined.

(** X15 on a button written in JavaScript: on a declaration file with a
    comment, on one that starts with the declaration and has no comment,
    where the start is [-1], and on a file system without declaration
    file. *)
Lemma annotation_goes_to_declaration_file_witness :
  (exists fs',
      annotateComponentDefinition MoreInstances.jsApi MoreInstances.declarationFiles =
        (fs', Return tt) /\
      files fs' !! "Button.d.ts" =
        Some ("import * as React from 'react';" +:+ Js.LF +:+ Js.LF +:+
              jsdoc MoreInstances.jsApi +:+ Js.LF +:+
              "export default function Button() {}" +:+ Js.LF)) /\
  (exists fs',
      annotateComponentDefinition MoreInstances.jsApi MoreInstances.bareDeclarationFiles =
        (fs', Return tt) /\
      files fs' !! "Button.d.ts" =
        Some ("export default Butto" +:+ jsdoc MoreInstances.jsApi +:+ "n")) /\
  exists error,
    annotateComponentDefinition MoreInstances.jsApi Instances.emptyFiles =
      (Instances.emptyFiles, Throw error).
Proof.
  destruct (annotation_goes_to_declaration_file (H := Sample.imports)
              MoreInstances.jsApi "Button" MoreInstances.declarationFiles eq_refl)
    as (_ & _ & _ & Hwrite & _).
  destruct (annotation_goes_to_declaration_file (H := Sample.imports)
              MoreInstances.jsApi "Button" MoreInstances.bareDeclarationFiles eq_refl)
    as (_ & _ & _ & Hbare & _).
  destruct (annotation_goes_to_declaration_file (H := Sample.imports)
              MoreInstances.jsApi "Button" Instances.emptyFiles eq_refl)
    as (_ & Hmissing & _).
  split; [|split].
  - destruct (Hwrite (Instances.source ["A button."]) 33%Z 53%Z eq_refl eq_refl
                ltac:(discriminate)) as [_ Hwritten].
    exact (Hwritten eq_refl).
  - destruct (Hbare "export default Button" (-1)%Z (-1)%Z eq_refl eq_refl
                ltac:(discriminate)) as [_ Hwritten].
    exact (Hwritten eq_refl).
  - apply Hmissing. reflexivity.
Defined.

(** X16 on a button whose file has the line ending of Windows, where the
    directory of the pages exists and where it does not. *)
Lemma page_module_uses_component_EOL_witness :
  generateApiPage "pages/api" "docs/translations/api-docs" MoreInstances.jsApi false
    MoreInstances.pagesDirectory =
    (withFile (withFile MoreInstances.pagesDirectory "pages/api/Button.json" "Button")
       "pages/api/Button.js"
       (Js.join (Js.CR +:+ Js.LF)
          (Js.splitOn "010" (pageModule "docs/translations/api-docs" "Button"))),
     Return tt) /\
  exists error,
    generateApiPage "pages/api" "docs/translations/api-docs" MoreInstances.jsApi false
      Instances.emptyFiles = (Instances.emptyFiles, Throw error).
Proof.
  destruct (page_module_uses_component_EOL (H := Sample.imports)
              "pages/api" "docs/translations/api-docs" MoreInstances.jsApi false
              MoreInstances.pagesDirectory eq_refl eq_refl eq_refl) as [_ Hwritable].
  destruct (page_module_uses_component_EOL (H := Sample.imports)
              "pages/api" "docs/translations/api-docs" MoreInstances.jsApi false
              Instances.emptyFiles eq_refl eq_refl eq_refl) as [Hrefused _].
  split.
  - destruct (Hwritable eq_refl) as [_ Hmodule].
    destruct (Hmodule eq_refl) as [Hwritten _].
    exact (Hwritten eq_refl).
  - exact (Hrefused eq_refl).
Defined.

(** X19 on the button and a file that is none of its artifacts. *)
Lemma emitArtifacts_touches_only_its_files_witness :
  files (fst (emitArtifacts (Instances.component false [Instances.demo])
                Instances.settings Instances.describedApi MoreInstances.sourceFiles))
    !! "README.md" = files MoreInstances.sourceFiles !! "README.md".
Proof.
  apply (emitArtifacts_touches_only_its_files (H := Sample.imports)
           (Instances.component false [Instances.demo]) Instances.settings
           Instances.describedApi MoreInstances.sourceFiles _ _ "README.md"
           (surjective_pairing _)).
  - intros directory language [<-|[<-|[<-|[]]]]; discriminate.
  - discriminate.
  - discriminate.
  - discriminate.
Defined.

(** X20 on a condition that names a prop. *)
Lemma code_in_condition_is_marked_witness :
  Regex.replaceAll codeRegex "<code>$1</code>" "`disabled`={true}" =
    "<code>disabled</code>={true}" /\
  Regex.replaceAll codeRegex "<code>$1</code>" "" = "".
Proof.
  apply (code_in_condition_is_marked "" "disabled" "={true}");
    reflexivity.
Defined.

(** X22 on a button of Base UI. *)
Lemma base_component_has_no_page_module_witness :
  files (fst (emitArtifacts (Instances.component false [Instances.demo])
                Instances.settings MoreInstances.baseApi MoreInstances.sourceFiles))
    !! "pages/api/Button.js" = None /\
  files (fst (emitArtifacts (Instances.component false [Instances.demo])
                Instances.settings Instances.describedApi MoreInstances.sourceFiles))
    !! "pages/api/Button.js" <> None.
Proof.
  split.
  - transitivity (files MoreInstances.sourceFiles !! "pages/api/Button.js");
      [|reflexivity].
    apply (base_component_has_no_page_module (H := Sample.imports)
             (Instances.component false [Instances.demo]) Instances.settings
             MoreInstances.baseApi MoreInstances.sourceFiles _ _ eq_refl
             (surjective_pairing _)).
    + intros directory language [<-|[<-|[<-|[]]]]; discriminate.
    + discriminate.
    + discriminate.
  - vm_compute. discriminate.
Defined.

(** X25 on the declaration file of the button. *)
Lemma annotation_idempotent_on_file_witness :
  exists fs1,
    annotateComponentDefinition MoreInstances.jsApi MoreInstances.declarationFiles =
      (fs1, Return tt) /\
    annotateComponentDefinition
      (ReactApi.setDescription MoreInstances.jsApi
         (stripAnnotation (annotatedDescription MoreInstances.jsApi))) fs1 =
      (fs1, Return tt).
Proof.
  eexists. split; [vm_compute; reflexivity|].
  apply (annotation_idempotent_on_file (H := Sample.imports) MoreInstances.jsApi
           MoreInstances.declarationFiles _ (Instances.source ["A button."]) 33 53);
    try reflexivity; try (vm_compute; lia).
Defined.
